(** * Nova Spark: the coordination core (Agent) and the buffering core
      (MetricsStream), embedded from the TypeScript sources.

    Layout of the development:
    - [Config]           src/core/Config.ts
    - [Timers]           the part of the Node runtime the code uses:
                         setInterval / clearInterval
    - [Collector]        the interface of src/core/Collector.ts
    - [MemoryCollector], [CpuCollector], [EventLoopCollector]
                         src/collectors
    - [Stub]             the test doubles of the Agent's test suite
    - [Agent]            src/core/Agent.ts
    - [Process]          the listeners of the Agent's events, the process
                         that ends on an uncaught error, and calls of
                         [start()] taken turn by turn
    - [Store], [MetricsStream]
                         src/streaming/MetricsStream.ts, over an explicit
                         object store, since [push] copies objects
    - [Fixtures]         the inputs of the scenarios
    - [Provided], [Runs], [Samples]
                         the collectors of the package under one type,
                         sequences of calls, further inputs
    The facts follow the definitions; the main statements are labelled
    C1 to C10, further ones X1 to X24.

    Conventions.  A method that may throw returns a [result]; an [async]
    method awaited by its caller is the same thing, a rejected promise
    being [Throw].  In [Agent] the calls of one timeline are sequential
    (every call is awaited), so a state is passed from call to call;
    [Process] takes calls of [start()] turn by turn.
    [EventEmitter.emit] is modelled by the list of events emitted so far,
    in order.  Listeners only observe: a handler neither throws nor calls
    back into the emitter.  How many listeners there are matters for
    ['error'] alone, which Node's emitter throws when nobody listens to
    it: that is part of [Process]. *)

From Stdlib Require Import ZArith QArith Qminmax String List Bool Lia.
From stdpp Require Import base option list strings.
Import ListNotations.

Local Open Scope Z_scope.

(** ** Errors and results *)

(** A JavaScript [Error]: the statements below only look at its message. *)
Record Error := mkError { message : string }.

Inductive result (A : Type) : Type :=
| Ok (a : A)
| Throw (e : Error).
Arguments Ok {A} a.
Arguments Throw {A} e.

Definition is_ok {A} (r : result A) : bool :=
  match r with Ok _ => true | Throw _ => false end.

(** Sequencing of two awaited calls on a state [S]: a throw of the first
    call leaves the second one unexecuted, as in
    [await x.f(); await x.g();]. *)
Definition and_then {S : Type}
    (f g : S -> S * result unit) (s : S) : S * result unit :=
  match f s with
  | (s1, Ok _) => g s1
  | (s1, Throw e) => (s1, Throw e)
  end.

(** ** Metrics as the collectors produce them (src/core/Collector.ts) *)

Inductive MetricType := memory | cpu | eventloop.

(** [number | string | object], and the values of [Record<string, any>]:
    scalars, arrays of scalars and flat objects.  Numbers are exact
    rationals here, where the sources compute with doubles (rounding, and
    NaN or Infinity for a division by zero); no statement below depends on
    a computed value. *)
Inductive JsScalar :=
| JNum (q : Q)
| JStr (s : string).

Inductive JsValue :=
| JScalar (v : JsScalar)
| JArr (items : list JsScalar)
| JObj (fields : list (string * JsScalar)).

Coercion JScalar : JsScalar >-> JsValue.

Record Metric := mkMetric {
  m_name : string;
  m_value : JsValue;
  m_timestamp : Z;
  m_type : MetricType;
  m_metadata : option (list (string * JsValue))
}.

(** ** Readings of the platform

    What [Date.now()], [process.memoryUsage()], [process.cpuUsage()],
    [process.hrtime()] and [os.cpus().length] answer during one call of a
    method; every statement below holds whatever the readings are. *)
Record Platform := mkPlatform {
  now : Z;
  heapUsed : Z;
  heapTotal : Z;
  rss : Z;
  cpuUser : Z;
  cpuSystem : Z;
  hrSec : Z;
  hrNano : Z;
  numCPUs : Z
}.

(** ** Config (src/core/Config.ts) *)

Module Config.

(** [interface SparkConfig]: every field optional. *)
Record SparkConfig := mkSparkConfig {
  o_sampleInterval : option Z;
  o_enabled : option bool;
  o_maxMemorySnapshots : option Z;
  o_cpuProfilingDuration : option Z;
  o_eventLoopThreshold : option Z;
  o_metricsBufferSize : option Z;
  o_debugMode : option bool
}.

Definition empty : SparkConfig :=
  mkSparkConfig None None None None None None None.

Record t := mk {
  sampleInterval : Z;
  enabled : bool;
  maxMemorySnapshots : Z;
  cpuProfilingDuration : Z;
  eventLoopThreshold : Z;
  metricsBufferSize : Z;
  debugMode : bool
}.

(** [x ?? d] *)
Definition nullish {A} (x : option A) (d : A) : A :=
  match x with Some v => v | None => d end.

Definition validateConfig (c : t) : result unit :=
  if sampleInterval c <=? 0 then
    Throw (mkError "sampleInterval must be greater than 0")
  else if maxMemorySnapshots c <=? 0 then
    Throw (mkError "maxMemorySnapshots must be greater than 0")
  else if cpuProfilingDuration c <=? 0 then
    Throw (mkError "cpuProfilingDuration must be greater than 0")
  else if eventLoopThreshold c <=? 0 then
    Throw (mkError "eventLoopThreshold must be greater than 0")
  else if metricsBufferSize c <=? 0 then
    Throw (mkError "metricsBufferSize must be greater than 0")
  else Ok tt.

(** [constructor(config: SparkConfig = {})] *)
Definition new (config : SparkConfig) : result t :=
  let c := {|
    sampleInterval := nullish (o_sampleInterval config) 5000;
    enabled := nullish (o_enabled config) true;
    maxMemorySnapshots := nullish (o_maxMemorySnapshots config) 10;
    cpuProfilingDuration := nullish (o_cpuProfilingDuration config) 500;
    eventLoopThreshold := nullish (o_eventLoopThreshold config) 100;
    metricsBufferSize := nullish (o_metricsBufferSize config) 1000;
    debugMode := nullish (o_debugMode config) false |} in
  match validateConfig c with
  | Ok _ => Ok c
  | Throw e => Throw e
  end.

Definition set_enabled (b : bool) (c : t) : t :=
  {| sampleInterval := sampleInterval c;
     enabled := b;
     maxMemorySnapshots := maxMemorySnapshots c;
     cpuProfilingDuration := cpuProfilingDuration c;
     eventLoopThreshold := eventLoopThreshold c;
     metricsBufferSize := metricsBufferSize c;
     debugMode := debugMode c |}.

(** The options [config] with [enabled] given as [e]. *)
Definition with_o_enabled (e : option bool) (config : SparkConfig)
  : SparkConfig :=
  {| o_sampleInterval := o_sampleInterval config;
     o_enabled := e;
     o_maxMemorySnapshots := o_maxMemorySnapshots config;
     o_cpuProfilingDuration := o_cpuProfilingDuration config;
     o_eventLoopThreshold := o_eventLoopThreshold config;
     o_metricsBufferSize := o_metricsBufferSize config;
     o_debugMode := o_debugMode config |}.

(** The fields a [Config] is read back into by [Agent.getConfig]. *)
Definition to_spark (c : t) : SparkConfig :=
  {| o_sampleInterval := Some (sampleInterval c);
     o_enabled := Some (enabled c);
     o_maxMemorySnapshots := Some (maxMemorySnapshots c);
     o_cpuProfilingDuration := Some (cpuProfilingDuration c);
     o_eventLoopThreshold := Some (eventLoopThreshold c);
     o_metricsBufferSize := Some (metricsBufferSize c);
     o_debugMode := Some (debugMode c) |}.

End Config.

(** ** Timers of the runtime

    [setInterval] hands out a handle that was never used before and arms a
    repeating timer; [clearInterval] disarms the timer of a handle.  The
    armed timers are kept with their callback and period. *)
Module Timers.

Definition Handle := nat.

(** The two callbacks the sources pass to [setInterval]:
    [() => this.collect()] of the Agent, and the lag probe of the
    EventLoopCollector. *)
Inductive Callback := CbAgentCollect | CbEventLoopCheck.

Record entry := mkEntry {
  e_handle : Handle;
  e_callback : Callback;
  e_period : Z
}.

Record t := mk { armed : list entry; next_handle : Handle }.

Definition empty : t := mk [] 0%nat.

Definition setInterval (cb : Callback) (ms : Z) (tm : t) : t * Handle :=
  let h := next_handle tm in
  (mk (armed tm ++ [mkEntry h cb ms]) (S h), h).

Definition clearInterval (h : Handle) (tm : t) : t :=
  mk (List.filter (fun e => negb (Nat.eqb (e_handle e) h)) (armed tm))
     (next_handle tm).

Definition is_agent_timer (e : entry) : bool :=
  match e_callback e with CbAgentCollect => true | _ => false end.

(** The armed timers whose callback runs the Agent's collection cycle. *)
Definition agent_timers (tm : t) : list entry :=
  List.filter is_agent_timer (armed tm).

Definition find (h : Handle) (tm : t) : option entry :=
  List.find (fun e => Nat.eqb (e_handle e) h) (armed tm).

(** Handles are handed out in increasing order: every armed timer has a
    handle below the next one. *)
Definition wf (tm : t) : Prop :=
  Forall (fun e => (e_handle e < next_handle tm)%nat) (armed tm).

End Timers.

(** ** The Collector interface (src/core/Collector.ts)

    [start], [stop] and [collect] of a collector are arbitrary code over the
    collector's own state and the platform; a collector registered with the
    Agent holds no reference to the Agent or to the Agent's interval
    handle. *)
Module Collector.

Class Impl (C : Type) := {
  start : Platform -> C -> C * result unit;
  stop : Platform -> C -> C * result unit;
  collect : Platform -> C -> C * result (list Metric)
}.

End Collector.

Definition not_started : Error :=
  mkError "Collector must be started before collecting metrics".

(** ** MemoryCollector (dist/collectors/MemoryCollector.js) *)
Module MemoryCollector.

Record t := mk {
  config : Config.t;
  snapshots : list Z;
  isRunning : bool
}.

Definition new (config : Config.t) : t := mk config [] false.

Definition start (env : Platform) (c : t) : t * result unit :=
  if isRunning c then (c, Ok tt)
  else (mk (config c) [] true, Ok tt).

Definition stop (env : Platform) (c : t) : t * result unit :=
  if negb (isRunning c) then (c, Ok tt)
  else (mk (config c) [] false, Ok tt).

(** [for (i = 1; i < a.length; i++) total += a[i] - a[i-1]] *)
Fixpoint totalGrowth (a : list Z) : Z :=
  match a with
  | x :: ((y :: _) as rest) => (y - x) + totalGrowth rest
  | _ => 0
  end.

Definition calculateGrowthRate (snaps : list Z) : Q :=
  if (length snaps <? 2)%nat then 0%Q
  else
    let recentSnapshots := skipn (length snaps - 5) snaps in
    (inject_Z (totalGrowth recentSnapshots)
     / inject_Z (Z.of_nat (length recentSnapshots) - 1))%Q.

Definition determineMemoryStatus (growthRate : Q) : string :=
  if Qle_bool growthRate (inject_Z (1024 * 100)) then "normal"
  else "warning".

Definition collect (env : Platform) (c : t) : t * result (list Metric) :=
  if negb (isRunning c) then (c, Throw not_started)
  else
    let timestamp := now env in
    let pushed := snapshots c ++ [heapUsed env] in
    let snaps :=
      if Z.of_nat (length pushed) >? Config.maxMemorySnapshots (config c)
      then tl pushed else pushed in
    let growthRate := calculateGrowthRate snaps in
    let num (z : Z) : JsValue := JNum (inject_Z z) in
    (mk (config c) snaps true,
     Ok [ mkMetric "memory.heapUsed" (num (heapUsed env)) timestamp memory
            (Some [("unit", JScalar (JStr "bytes"));
                   ("status",
                    JScalar (JStr (determineMemoryStatus growthRate)))]);
          mkMetric "memory.heapTotal" (num (heapTotal env)) timestamp memory
            (Some [("unit", JScalar (JStr "bytes"))]);
          mkMetric "memory.rss" (num (rss env)) timestamp memory
            (Some [("unit", JScalar (JStr "bytes"))]);
          mkMetric "memory.growthRate" (JNum growthRate) timestamp memory
            (Some [("unit", JScalar (JStr "bytes/snapshot"));
                   ("snapshots", num (Z.of_nat (length snaps)))]) ]).

#[global] Instance impl : Collector.Impl t :=
  {| Collector.start := start;
     Collector.stop := stop;
     Collector.collect := collect |}.

End MemoryCollector.

(** ** CpuCollector (src/collectors/CpuCollector.ts) *)
Module CpuCollector.

Record t := mk {
  config : Config.t;
  isRunning : bool;
  lastUsage : option (Z * Z);       (* { user, system } | null *)
  lastTimestamp : option (Z * Z)    (* [seconds, nanoseconds] | null *)
}.

Definition new (config : Config.t) : t := mk config false None None.

Definition start (env : Platform) (c : t) : t * result unit :=
  if isRunning c then (c, Ok tt)
  else (mk (config c) true
           (Some (cpuUser env, cpuSystem env))
           (Some (hrSec env, hrNano env)), Ok tt).

Definition stop (env : Platform) (c : t) : t * result unit :=
  if negb (isRunning c) then (c, Ok tt)
  else (mk (config c) false None None, Ok tt).

Definition clamp (q : Q) : Q := Qmin (inject_Z 100) (Qmax 0%Q q).

Definition collect (env : Platform) (c : t) : t * result (list Metric) :=
  match isRunning c, lastUsage c, lastTimestamp c with
  | true, Some (user0, system0), Some (sec0, nano0) =>
      let user := cpuUser env - user0 in
      let system := cpuSystem env - system0 in
      let elapsedMs :=
        (inject_Z ((hrSec env - sec0) * 1000000000 + (hrNano env - nano0))
         / inject_Z 1000000)%Q in
      let percent (usage : Z) : Q :=
        (inject_Z usage / inject_Z 1000 / elapsedMs * inject_Z 100
         / inject_Z (numCPUs env))%Q in
      let metadata :=
        Some [("unit", JScalar (JStr "percent"));
              ("duration",
               JScalar (JNum (inject_Z
                                (Config.cpuProfilingDuration (config c)))))] in
      (mk (config c) true
          (Some (cpuUser env, cpuSystem env))
          (Some (hrSec env, hrNano env)),
       Ok [ mkMetric "cpu.user" (JNum (clamp (percent user)))
              (now env) cpu metadata;
            mkMetric "cpu.system" (JNum (clamp (percent system)))
              (now env) cpu metadata ])
  | _, _, _ => (c, Throw not_started)
  end.

#[global] Instance impl : Collector.Impl t :=
  {| Collector.start := start;
     Collector.stop := stop;
     Collector.collect := collect |}.

End CpuCollector.

(** ** EventLoopCollector (src/collectors/EventLoopCollector.ts)

    This collector arms a timer of its own, so its methods also take and
    return the timers of the runtime. *)
Module EventLoopCollector.

Record t := mk {
  config : Config.t;
  isRunning : bool;
  lastLoopTime : Z;
  checkInterval : option Timers.Handle
}.

Definition new (env : Platform) (config : Config.t) : t :=
  mk config false (now env) None.

Definition start (env : Platform) (tm : Timers.t) (c : t)
  : Timers.t * t * result unit :=
  if isRunning c then (tm, c, Ok tt)
  else
    let (tm', h) := Timers.setInterval Timers.CbEventLoopCheck 1 tm in
    (tm', mk (config c) true (now env) (Some h), Ok tt).

Definition stop (env : Platform) (tm : Timers.t) (c : t)
  : Timers.t * t * result unit :=
  if negb (isRunning c) then (tm, c, Ok tt)
  else
    match checkInterval c with
    | Some h =>
        (Timers.clearInterval h tm,
         mk (config c) false (lastLoopTime c) None, Ok tt)
    | None =>
        (tm, mk (config c) false (lastLoopTime c) None, Ok tt)
    end.

Definition call
    (op : Timers.t -> t -> Timers.t * t * result unit)
  : Timers.t * t -> Timers.t * t * result unit :=
  fun s => op (fst s) (snd s).

(** The callback of the timer: [this.lastLoopTime = Date.now()]. *)
Definition check (env : Platform) (c : t) : t :=
  mk (config c) (isRunning c) (now env) (checkInterval c).

Definition collect (env : Platform) (c : t) : t * result (list Metric) :=
  if negb (isRunning c) then (c, Throw not_started)
  else
    let currentTime := now env in
    let lag := currentTime - lastLoopTime c in
    let threshold := Config.eventLoopThreshold (config c) in
    let status := if lag >? threshold then "warning" else "normal" in
    (mk (config c) true currentTime (checkInterval c),
     Ok [ mkMetric "eventloop.lag" (JNum (inject_Z lag)) currentTime
            eventloop
            (Some [("unit", JScalar (JStr "milliseconds"));
                   ("threshold", JScalar (JNum (inject_Z threshold)));
                   ("status", JScalar (JStr status))]) ]).

End EventLoopCollector.

(** ** Test doubles (dist/core/Agent.spec.js)

    The object literals of the Agent's tests: each method either resolves or
    throws a fixed error.  A double also keeps the list of the calls it
    received. *)
Module Stub.

Inductive Call := CStart | CStop | CCollect.

Record t := mk {
  onStart : result unit;
  onStop : result unit;
  onCollect : result (list Metric);
  calls : list Call
}.

Definition called (k : Call) (c : t) : t :=
  mk (onStart c) (onStop c) (onCollect c) (calls c ++ [k]).

#[global] Instance impl : Collector.Impl t :=
  {| Collector.start := fun _ c => (called CStart c, onStart c);
     Collector.stop := fun _ c => (called CStop c, onStop c);
     Collector.collect := fun _ c => (called CCollect c, onCollect c) |}.

(** A collector whose three methods succeed, returning [ms]. *)
Definition returning (ms : list Metric) : t :=
  mk (Ok tt) (Ok tt) (Ok ms) [].

End Stub.

(** ** Agent (src/core/Agent.ts) *)
Module Agent.

(** What [emit] is called with: ['metrics'] with the batch, ['error'] with
    the error. *)
Inductive Event :=
| EvMetrics (batch : list Metric)
| EvError (e : Error).

Record t (C : Type) := mk {
  config : Config.t;
  collectors : list (string * C);   (* Map<string, Collector>, in insertion order *)
  isRunning : bool;
  collectionInterval : option Timers.Handle;
  emitted : list Event
}.
Arguments mk {C}.
Arguments config {C}.
Arguments collectors {C}.
Arguments isRunning {C}.
Arguments collectionInterval {C}.
Arguments emitted {C}.

Section WithCollectors.
Context {C : Type} `{Collector.Impl C}.

(** [constructor(config?: SparkConfig)] *)
Definition new (config : Config.SparkConfig) : result (t C) :=
  match Config.new config with
  | Ok c => Ok (mk c [] false None [])
  | Throw e => Throw e
  end.

Definition has (name : string) (cs : list (string * C)) : bool :=
  existsb (fun entry => String.eqb (fst entry) name) cs.

Definition registerCollector (name : string) (collector : C) (a : t C)
  : t C * result unit :=
  if has name (collectors a) then
    (a, Throw (mkError "Collector already exists"))
  else
    (mk (config a) (collectors a ++ [(name, collector)])
        (isRunning a) (collectionInterval a) (emitted a), Ok tt).

(** [for (const collector of this.collectors.values())
       await collector.f();]
    The first throw leaves the loop; the collectors after it are not
    called. *)
Fixpoint for_each (f : C -> C * result unit) (cs : list (string * C))
  : list (string * C) * result unit :=
  match cs with
  | [] => ([], Ok tt)
  | (name, c) :: rest =>
      match f c with
      | (c', Ok _) =>
          let (rest', r) := for_each f rest in ((name, c') :: rest', r)
      | (c', Throw e) => ((name, c') :: rest, Throw e)
      end
  end.

Definition start (env : Platform) (tm : Timers.t) (a : t C)
  : Timers.t * t C * result unit :=
  if isRunning a then (tm, a, Ok tt)
  else
    match for_each (Collector.start env) (collectors a) with
    | (cs, Ok _) =>
        let (tm', h) :=
          Timers.setInterval Timers.CbAgentCollect
            (Config.sampleInterval (config a)) tm in
        (tm', mk (config a) cs true (Some h) (emitted a), Ok tt)
    | (cs, Throw _) =>
        (tm, mk (config a) cs false (collectionInterval a) (emitted a),
         Throw (mkError "Start failed"))
    end.

Definition stop (env : Platform) (tm : Timers.t) (a : t C)
  : Timers.t * t C * result unit :=
  if negb (isRunning a) then (tm, a, Ok tt)
  else
    let tm1 :=
      match collectionInterval a with
      | Some h => Timers.clearInterval h tm
      | None => tm
      end in
    match for_each (Collector.stop env) (collectors a) with
    | (cs, Ok _) =>
        (tm1, mk (config a) cs false (collectionInterval a) (emitted a),
         Ok tt)
    | (cs, Throw _) =>
        (tm1, mk (config a) cs (isRunning a) (collectionInterval a)
                 (emitted a),
         Throw (mkError "Stop failed"))
    end.

(** The loop of [collect]: [metrics] is the array built so far,
    [metrics.push(...collectorMetrics)] appends to it. *)
Fixpoint gather (env : Platform) (cs : list (string * C))
    (metrics : list Metric) : list (string * C) * result (list Metric) :=
  match cs with
  | [] => ([], Ok metrics)
  | (name, c) :: rest =>
      match Collector.collect env c with
      | (c', Ok collectorMetrics) =>
          let (rest', r) := gather env rest (metrics ++ collectorMetrics) in
          ((name, c') :: rest', r)
      | (c', Throw e) => ((name, c') :: rest, Throw e)
      end
  end.

(** [this.emit(...)]: the call is logged in [emitted].  Whether the call
    returns or throws depends on the listeners, see [Process.emit]. *)
Definition emit (ev : Event) (cs : list (string * C)) (a : t C) : t C :=
  mk (config a) cs (isRunning a) (collectionInterval a)
     (emitted a ++ [ev]).

(** [private async collect()]: one collection cycle. *)
Definition collect (env : Platform) (a : t C) : t C :=
  match gather env (collectors a) [] with
  | (cs, Ok metrics) => emit (EvMetrics metrics) cs a
  | (cs, Throw error) => emit (EvError error) cs a
  end.

Definition getConfig (a : t C) : result Config.t :=
  Config.new (Config.to_spark (config a)).

(** The runtime fires the timer of handle [h]: when it is armed with
    the Agent's callback, one collection cycle runs. *)
Definition fire (env : Platform) (h : Timers.Handle) (tm : Timers.t)
    (a : t C) : t C :=
  match Timers.find h tm with
  | Some e =>
      if Timers.is_agent_timer e then collect env a else a
  | None => a
  end.

(** A call of [start] or [stop] as a step on the pair of the runtime's
    timers and the Agent, for [and_then]. *)
Definition call
    (op : Timers.t -> t C -> Timers.t * t C * result unit)
  : Timers.t * t C -> Timers.t * t C * result unit :=
  fun s => op (fst s) (snd s).

(** [this.config.enabled] replaced by [b], all else kept. *)
Definition with_enabled (b : bool) (a : t C) : t C :=
  mk (Config.set_enabled b (config a)) (collectors a) (isRunning a)
     (collectionInterval a) (emitted a).

(** The lifecycle invariant: a timer running the collection cycle is
    armed only while the Agent is running, and then it is the timer of
    [collectionInterval]. *)
Definition timer_inv (tm : Timers.t) (a : t C) : Prop :=
  forall e, In e (Timers.agent_timers tm) ->
    isRunning a = true /\
    collectionInterval a = Some (Timers.e_handle e).

(** The registry after method [f] was called on each of its collectors. *)
Definition called_on (f : C -> C * result unit) (cs : list (string * C))
  : list (string * C) :=
  map (fun nc => (fst nc, fst (f (snd nc)))) cs.

Definition succeeds (f : C -> C * result unit) (nc : string * C) : Prop :=
  snd (f (snd nc)) = Ok tt.

(** The registry after [collect()] was called on each of its
    collectors. *)
Definition collected_on (env : Platform) (cs : list (string * C))
  : list (string * C) :=
  map (fun nc => (fst nc, fst (Collector.collect env (snd nc)))) cs.

Definition returns (env : Platform) (nc : string * C) (ms : list Metric)
  : Prop :=
  snd (Collector.collect env (snd nc)) = Ok ms.

(** The states of the runtime's timers and of an Agent that a program
    reaches when it awaits every call of [start()] and [stop()] to its end
    before the next step: the Agent is constructed and its methods are
    called, timers fire, and other code of the process arms timers of its
    own and clears timers.  Calls of [start()] that overlap are taken turn
    by turn in [Process]. *)
Inductive reachable : Timers.t -> t C -> Prop :=
| reach_new cfg a :
    new cfg = Ok a -> reachable Timers.empty a
| reach_registerCollector tm a name c :
    reachable tm a -> reachable tm (fst (registerCollector name c a))
| reach_start tm a env :
    reachable tm a ->
    reachable (fst (fst (start env tm a))) (snd (fst (start env tm a)))
| reach_stop tm a env :
    reachable tm a ->
    reachable (fst (fst (stop env tm a))) (snd (fst (stop env tm a)))
| reach_fire tm a env h :
    reachable tm a -> reachable tm (fire env h tm a)
| reach_setInterval tm a ms :
    reachable tm a ->
    reachable (fst (Timers.setInterval Timers.CbEventLoopCheck ms tm)) a
| reach_clearInterval tm a h :
    reachable tm a -> reachable (Timers.clearInterval h tm) a.

End WithCollectors.

End Agent.

(** ** The process around an Agent

    [Agent.emitted] logs the calls of [emit].  What a call of [emit] does
    for its caller depends on the listeners: [EventEmitter.emit] calls the
    listeners of the event in order and returns whether there were any,
    except that ['error'] with no listener throws the error it was given.
    Listeners are taken to observe: they return, and they call no method
    of the Agent.

    The methods of the Agent are [async]: a call runs in the caller's turn
    up to its first [await], is suspended there, and is resumed by the
    runtime in a later turn.  [Agent.start] and [Agent.stop] are the calls
    awaited to their end with nothing in between; here a call of [start()]
    is taken turn by turn, so that calls can overlap. *)
Module Process.

(** How many listeners [agent.on('metrics', ...)] and
    [agent.on('error', ...)] have subscribed. *)
Record Listeners := mkListeners {
  onMetrics : nat;
  onError : nat
}.

(** [this.emit(...)], for the caller: the boolean it returns, or the error
    it throws. *)
Definition emit (ls : Listeners) (ev : Agent.Event) : result bool :=
  match ev with
  | Agent.EvMetrics _ => Ok (0 <? onMetrics ls)%nat
  | Agent.EvError e =>
      if (onError ls =? 0)%nat then Throw e else Ok true
  end.

Definition returned (r : result bool) : result unit :=
  match r with
  | Ok _ => Ok tt
  | Throw e => Throw e
  end.

Record t (C : Type) := mk {
  timers : Timers.t;
  agent : Agent.t C;
  listeners : Listeners;
  uncaught : option Error   (* the exception that ended the process *)
}.
Arguments mk {C}.
Arguments timers {C}.
Arguments agent {C}.
Arguments listeners {C}.
Arguments uncaught {C}.

(** A call of [start()] suspended at an [await]: where it goes on. *)
Inductive Task :=
| AtLoop (i : nat)   (* the awaited promise was fulfilled: the loop, at
                        position [i] of [this.collectors.values()] *)
| Caught.            (* the awaited promise was rejected: the catch block *)

Inductive Progress :=
| Suspended (k : Task)
| Settled (r : result unit).

Definition settled (p : Progress) : Prop :=
  match p with
  | Settled _ => True
  | Suspended _ => False
  end.

Section WithCollectors.
Context {C : Type} `{Collector.Impl C}.

(** [collect()] with the listeners [ls]: the Agent it leaves, and whether
    its promise is fulfilled or rejected.  In the catch block nothing
    catches what [emit('error', error)] throws. *)
Definition collect (ls : Listeners) (env : Platform) (a : Agent.t C)
  : Agent.t C * result unit :=
  (Agent.collect env a,
   match Agent.gather env (Agent.collectors a) [] with
   | (_, Ok metrics) => returned (emit ls (Agent.EvMetrics metrics))
   | (_, Throw error) => returned (emit ls (Agent.EvError error))
   end).

(** The runtime fires the timer of handle [h].  The callback
    [() => this.collect()] drops the promise of [collect()]: when that
    promise is rejected nobody handles the rejection, Node raises it as an
    uncaught exception and the process ends.  In a process that has ended
    no timer fires. *)
Definition tick (env : Platform) (h : Timers.Handle) (p : t C) : t C :=
  match uncaught p with
  | Some _ => p
  | None =>
      match Timers.find h (timers p) with
      | Some e =>
          if Timers.is_agent_timer e then
            let (a', r) := collect (listeners p) env (agent p) in
            mk (timers p) a' (listeners p)
               (match r with Ok _ => None | Throw error => Some error end)
          else p
      | None => p
      end
  end.

(** One turn of a call of [start()] that goes on at [k]: up to its next
    [await], or to its end. *)
Definition start_turn (env : Platform) (k : Task) (tm : Timers.t)
    (a : Agent.t C) : Timers.t * Agent.t C * Progress :=
  match k with
  | AtLoop i =>
      match Agent.collectors a !! i with
      | Some (name, c) =>
          let (c', r) := Collector.start env c in
          (tm,
           Agent.mk (Agent.config a)
             (<[i := (name, c')]> (Agent.collectors a))
             (Agent.isRunning a) (Agent.collectionInterval a)
             (Agent.emitted a),
           Suspended (match r with
                      | Ok _ => AtLoop (S i)
                      | Throw _ => Caught
                      end))
      | None =>
          let (tm', h) :=
            Timers.setInterval Timers.CbAgentCollect
              (Config.sampleInterval (Agent.config a)) tm in
          (tm',
           Agent.mk (Agent.config a) (Agent.collectors a) true (Some h)
             (Agent.emitted a),
           Settled (Ok tt))
      end
  | Caught =>
      (tm,
       Agent.mk (Agent.config a) (Agent.collectors a) false
         (Agent.collectionInterval a) (Agent.emitted a),
       Settled (Throw (mkError "Start failed")))
  end.

(** The call of [start()] itself, in the caller's turn: the guard, then
    the first turn. *)
Definition start_call (env : Platform) (tm : Timers.t) (a : Agent.t C)
  : Timers.t * Agent.t C * Progress :=
  if Agent.isRunning a then (tm, a, Settled (Ok tt))
  else start_turn env (AtLoop 0) tm a.

(** [await agent.start()] with nothing else running: the call is resumed
    until it settles, at most [fuel] times. *)
Fixpoint await_start (fuel : nat) (env : Platform)
    (r : Timers.t * Agent.t C * Progress) : Timers.t * Agent.t C * Progress :=
  match fuel, r with
  | S n, (tm, a, Suspended k) => await_start n env (start_turn env k tm a)
  | _, _ => r
  end.

(** Calls of [start()] in flight: the timers, the Agent, and the progress
    of each call in the order the calls were made. *)
Definition calls : Type := Timers.t * Agent.t C * list Progress.

(** A further call of [start()], made while the earlier ones are as they
    are. *)
Definition call_start (env : Platform) (s : calls) : calls :=
  let '(tm, a, pool) := s in
  let '(tm', a', p) := start_call env tm a in
  (tm', a', pool ++ [p]).

(** The runtime resumes call [j] for one turn; a call that has settled is
    not resumed. *)
Definition resume (env : Platform) (j : nat) (s : calls) : calls :=
  let '(tm, a, pool) := s in
  match pool !! j with
  | Some (Suspended k) =>
      let '(tm', a', p) := start_turn env k tm a in
      (tm', a', <[j := p]> pool)
  | _ => s
  end.

(** The calls resumed in the order of [schedule]. *)
Fixpoint resume_all (env : Platform) (schedule : list nat) (s : calls)
  : calls :=
  match schedule with
  | [] => s
  | j :: rest => resume_all env rest (resume env j s)
  end.

(** Two calls resumed in turn, first in first out, [n] times each. *)
Fixpoint in_turn (n : nat) : list nat :=
  match n with
  | O => []
  | S n' => 0%nat :: 1%nat :: in_turn n'
  end.

(** The timers after a call of [start()] has armed the timer of the
    collection cycle. *)
Definition arm (cfg : Config.t) (tm : Timers.t) : Timers.t :=
  fst (Timers.setInterval Timers.CbAgentCollect (Config.sampleInterval cfg)
         tm).

(** How many of the calls have settled. *)
Fixpoint count_settled (pool : list Progress) : nat :=
  match pool with
  | [] => 0
  | Settled _ :: rest => S (count_settled rest)
  | Suspended _ :: rest => count_settled rest
  end.

End WithCollectors.

End Process.

(** ** The object store

    [MetricsStream.push] copies the objects it is given, so the objects are
    kept in a store and named by references: two references to one object
    see each other's writes.  An object is its own properties in insertion
    order and the flag set by [Object.freeze]. *)
Module Store.

Abbreviation Ref := nat (only parsing).

Inductive Val :=
| VUndefined
| VNum (q : Q)
| VStr (s : string)
| VRef (r : Ref).

Record Obj := mkObj {
  fields : list (string * Val);
  frozen : bool
}.

Abbreviation t := (list Obj) (only parsing).

(** A reference outside the store reads as [undefined], whose spread is
    the empty object. *)
Definition get (st : t) (r : Ref) : Obj :=
  match st !! r with Some o => o | None => mkObj [] false end.

Definition alloc (o : Obj) (st : t) : t * Ref :=
  (st ++ [o], length st).

(** [o[k]] *)
Fixpoint read (k : string) (fs : list (string * Val)) : Val :=
  match fs with
  | [] => VUndefined
  | (k', v) :: rest => if String.eqb k' k then v else read k rest
  end.

(** The properties after [o[k] = v]: an own property keeps its place, a
    new one goes last. *)
Fixpoint write (k : string) (v : Val) (fs : list (string * Val))
  : list (string * Val) :=
  match fs with
  | [] => [(k, v)]
  | (k', v') :: rest =>
      if String.eqb k' k then (k, v) :: rest
      else (k', v') :: write k v rest
  end.

(** [r.k = v] in strict mode: a frozen object rejects the write with a
    [TypeError] and stays as it is. *)
Definition assign (r : Ref) (k : string) (v : Val) (st : t)
  : t * result unit :=
  match st !! r with
  | Some o =>
      if frozen o then (st, Throw (mkError "TypeError"))
      else (<[r := mkObj (write k v (fields o)) false]> st, Ok tt)
  | None => (st, Throw (mkError "TypeError"))
  end.

(** [r.outer.k = v]: a write through the object that property [outer] of
    [r] refers to. *)
Definition assign_nested (r : Ref) (outer k : string) (v : Val) (st : t)
  : t * result unit :=
  match read outer (fields (get st r)) with
  | VRef inner => assign inner k v st
  | _ => (st, Throw (mkError "TypeError"))
  end.

(** [Object.freeze({ ...metric })]: a new object with the own properties
    of the given one, property values copied as they are (a reference
    stays a reference to the same object), then frozen.  [Object.freeze]
    freezes the object it is given and nothing that object refers to. *)
Definition freeze_spread (metric : Ref) (st : t) : t * Ref :=
  alloc (mkObj (fields (get st metric)) true) st.

(** What a reader of object [r] sees: its properties, and behind a
    property that is a reference the properties of the object referred
    to. *)
Inductive Seen :=
| SeenVal (v : Val)
| SeenObj (fs : list (string * Val)).

Definition see (st : t) (v : Val) : Seen :=
  match v with
  | VRef r => SeenObj (fields (get st r))
  | _ => SeenVal v
  end.

Definition view (st : t) (r : Ref) : list (string * Seen) :=
  map (fun kv => (fst kv, see st (snd kv))) (fields (get st r)).

End Store.

(** ** MetricsStream (src/streaming/MetricsStream.ts) *)
Module MetricsStream.

Record t := mk {
  config : Config.t;
  buffer : list Store.Ref;
  emitted : list (list Store.Ref)  (* the payloads of the 'data' events *)
}.

Definition new (config : Config.t) : t := mk config [] [].

(** [metrics.map(metric => Object.freeze({ ...metric }))] *)
Fixpoint immutable_copies (metrics : list Store.Ref) (st : Store.t)
  : Store.t * list Store.Ref :=
  match metrics with
  | [] => (st, [])
  | metric :: rest =>
      let (st1, copy) := Store.freeze_spread metric st in
      let (st2, copies) := immutable_copies rest st1 in
      (st2, copy :: copies)
  end.

(** [Object.freeze([...this.buffer])] is delivered, then
    [this.buffer.length = 0]. *)
Definition flush (s : t) : t :=
  if (0 <? length (buffer s))%nat then
    mk (config s) [] (emitted s ++ [buffer s])
  else s.

Definition push (metrics : list Store.Ref) (st : Store.t) (s : t)
  : Store.t * t :=
  let (st', immutableMetrics) := immutable_copies metrics st in
  let s1 := mk (config s) (buffer s ++ immutableMetrics) (emitted s) in
  if Z.of_nat (length (buffer s1)) >=? Config.metricsBufferSize (config s1)
  then (st', flush s1)
  else (st', s1).

Definition clear (s : t) : t := mk (config s) [] (emitted s).

(** One [push] call per batch, in order. *)
Fixpoint push_all (batches : list (list Store.Ref)) (st : Store.t) (s : t)
  : Store.t * t :=
  match batches with
  | [] => (st, s)
  | metrics :: rest =>
      let (st', s') := push metrics st s in push_all rest st' s'
  end.

(** Every buffered reference names a frozen object of the store. *)
Definition frozen_refs (st : Store.t) (refs : list Store.Ref) : Prop :=
  Forall (fun r => exists o, st !! r = Some o /\ Store.frozen o = true)
         refs.

(** What the subscriber of ['data'] reads in a payload. *)
Definition seen (st : Store.t) (payload : list Store.Ref)
  : list (list (string * Store.Seen)) :=
  map (Store.view st) payload.

End MetricsStream.

(** ** Fixtures, after the test suites of the repository *)
Module Fixtures.

Definition env0 : Platform := mkPlatform 1700000000000 0 0 0 0 0 0 0 1.

(** [new Agent({ sampleInterval: 100 })] of Agent.spec *)
Definition config100 : Config.t := Config.mk 100 true 10 500 100 1000 false.

(** [new Config({ metricsBufferSize: 3 })] of MetricsStream.spec *)
Definition config3 : Config.t := Config.mk 5000 true 10 500 100 3 false.

Definition metric (name : string) (value : Z) : Metric :=
  mkMetric name (JNum (inject_Z value)) (now env0) memory None.

Definition a1 := metric "a.one" 1.
Definition a2 := metric "a.two" 2.
Definition b1 := metric "b.one" 3.
Definition c1 := metric "c.one" 4.
Definition c2 := metric "c.two" 5.
Definition c3 := metric "c.three" 6.

Definition boom : Error := mkError "boom".

Definition failingStart : Stub.t := Stub.mk (Throw boom) (Ok tt) (Ok []) [].
Definition failingStop : Stub.t := Stub.mk (Ok tt) (Throw boom) (Ok []) [].
Definition failingCollect : Stub.t :=
  Stub.mk (Ok tt) (Ok tt) (Throw boom) [].

Definition agent_of (running : bool) (cs : list (string * Stub.t))
  : Agent.t Stub.t :=
  Agent.mk config100 cs running None [].

(** Collectors A, B, C of the batch-ordering scenario. *)
Definition abc : list (string * Stub.t) :=
  [ ("A", Stub.returning [a1; a2]);
    ("B", Stub.returning [b1]);
    ("C", Stub.returning [c1; c2; c3]) ].

(** A collector that works between two others, of which the middle one
    fails in the method under test. *)
Definition around (middle : Stub.t) : list (string * Stub.t) :=
  [ ("A", Stub.returning [a1; a2]);
    ("B", middle);
    ("C", Stub.returning [c1; c2; c3]) ].

(** [createMetric(name, value)] of MetricsStream.spec, allocated in the
    store: the metadata object [{ unit: 'bytes' }] first, then the metric
    that refers to it.  The metric is the returned reference. *)
Definition createMetric (name : string) (value : Z) (st : Store.t)
  : Store.t * Store.Ref :=
  let (st1, metadata) :=
    Store.alloc (Store.mkObj [("unit", Store.VStr "bytes")] false) st in
  Store.alloc
    (Store.mkObj [ ("name", Store.VStr name);
                   ("value", Store.VNum (inject_Z value));
                   ("timestamp", Store.VNum (inject_Z (now env0)));
                   ("type", Store.VStr "memory");
                   ("metadata", Store.VRef metadata) ] false) st1.

(** One metric [m] (reference 1, its metadata is object 0). *)
Definition store1 : Store.t := fst (createMetric "test.metric" 100 []).
Definition m : Store.Ref := snd (createMetric "test.metric" 100 []).

(** Three metrics: references 1, 3 and 5. *)
Definition store3 : Store.t :=
  fst (createMetric "test.metric3" 300
         (fst (createMetric "test.metric2" 200
                 (fst (createMetric "test.metric1" 100 []))))).

(** [new Config()] and [new Config({ metricsBufferSize: 1 })] *)
Definition config1000 : Config.t :=
  Config.mk 5000 true 10 500 100 1000 false.
Definition config1 : Config.t := Config.mk 5000 true 10 500 100 1 false.

(** The Agent of the tests with collectors [cs] registered, after a
    [start()] from the initial state of the runtime. *)
Definition started (cs : list (string * Stub.t)) : Agent.t Stub.t :=
  snd (fst (Agent.start env0 Timers.empty (agent_of false cs))).

(** A running Agent as [start] leaves it: timer 0 armed. *)
Definition running_timers : Timers.t :=
  fst (Timers.setInterval Timers.CbAgentCollect 100 Timers.empty).

Definition running_agent (cs : list (string * Stub.t)) : Agent.t Stub.t :=
  Agent.mk config100 cs true (Some 0%nat) [].

(** The process of that Agent with the listeners of the README,
    [agent.on('metrics', ...)] alone, and with the listeners of Agent.spec,
    which subscribes to ['error'] as well. *)
Definition unheard (cs : list (string * Stub.t)) : Process.t Stub.t :=
  Process.mk running_timers (running_agent cs) (Process.mkListeners 1 0)
    None.

Definition heard (cs : list (string * Stub.t)) : Process.t Stub.t :=
  Process.mk running_timers (running_agent cs) (Process.mkListeners 1 1)
    None.

End Fixtures.

(** ** The provided collectors behind the interface

    The registry of one Agent holds collectors of different classes
    ([agent.registerCollector('cpu', new CpuCollector(...))],
    [agent.registerCollector('memory', new MemoryCollector(...))] in the
    README): the collector type of such an Agent is the sum of the classes
    that take their readings from the platform alone. *)
Module Provided.

Inductive t :=
| Memory (c : MemoryCollector.t)
| Cpu (c : CpuCollector.t).

Definition isRunning (p : t) : bool :=
  match p with
  | Memory c => MemoryCollector.isRunning c
  | Cpu c => CpuCollector.isRunning c
  end.

Definition start (env : Platform) (p : t) : t * result unit :=
  match p with
  | Memory c => let (c', r) := MemoryCollector.start env c in (Memory c', r)
  | Cpu c => let (c', r) := CpuCollector.start env c in (Cpu c', r)
  end.

Definition stop (env : Platform) (p : t) : t * result unit :=
  match p with
  | Memory c => let (c', r) := MemoryCollector.stop env c in (Memory c', r)
  | Cpu c => let (c', r) := CpuCollector.stop env c in (Cpu c', r)
  end.

Definition collect (env : Platform) (p : t) : t * result (list Metric) :=
  match p with
  | Memory c => let (c', r) := MemoryCollector.collect env c in (Memory c', r)
  | Cpu c => let (c', r) := CpuCollector.collect env c in (Cpu c', r)
  end.

#[global] Instance impl : Collector.Impl t :=
  {| Collector.start := start;
     Collector.stop := stop;
     Collector.collect := collect |}.

(** The number of metrics one [collect()] of a running collector
    returns. *)
Definition batch_size (p : t) : nat :=
  match p with Memory _ => 4%nat | Cpu _ => 2%nat end.

(** A collector on which [collect()] returns: it is running, and a
    CpuCollector has its two baselines. *)
Definition ready (p : t) : Prop :=
  match p with
  | Memory c => MemoryCollector.isRunning c = true
  | Cpu c =>
      CpuCollector.isRunning c = true /\
      CpuCollector.lastUsage c <> None /\
      CpuCollector.lastTimestamp c <> None
  end.

(** The states the methods of a collector produce: a running CpuCollector
    has its baselines. *)
Definition consistent (p : t) : Prop :=
  isRunning p = true -> ready p.

(** The size of the batch of one cycle over the registry [cs]. *)
Fixpoint batch_total (cs : list (string * t)) : nat :=
  match cs with
  | [] => 0%nat
  | (_, p) :: rest => (batch_size p + batch_total rest)%nat
  end.

End Provided.

(** ** Runs: several calls in a row *)
Module Runs.

(** The last [k] elements of [l] ([l.slice(-k)] for [k > 0]). *)
Definition lastn {A} (k : nat) (l : list A) : list A :=
  skipn (length l - k) l.

(** [collect()] of a MemoryCollector called once per reading, in order;
    the collector after the calls. *)
Fixpoint memory_collects (envs : list Platform) (c : MemoryCollector.t)
  : MemoryCollector.t :=
  match envs with
  | [] => c
  | env :: rest => memory_collects rest (fst (MemoryCollector.collect env c))
  end.

(** [registerCollector] called once per entry, in order; the first throw
    ends the run. *)
Fixpoint register_all {C : Type} `{Collector.Impl C}
    (entries : list (string * C)) (a : Agent.t C) : Agent.t C * result unit :=
  match entries with
  | [] => (a, Ok tt)
  | (name, c) :: rest =>
      match Agent.registerCollector name c a with
      | (a', Ok _) => register_all rest a'
      | (a', Throw e) => (a', Throw e)
      end
  end.

(** The collection cycle run once per reading, in order. *)
Fixpoint cycles {C : Type} `{Collector.Impl C}
    (envs : list Platform) (a : Agent.t C) : Agent.t C :=
  match envs with
  | [] => a
  | env :: rest => cycles rest (Agent.collect env a)
  end.

(** The calls a user of a MetricsStream makes. *)
Inductive StreamOp :=
| Push (metrics : list Store.Ref)
| Flush
| Clear.

Definition stream_step (op : StreamOp) (st : Store.t) (s : MetricsStream.t)
  : Store.t * MetricsStream.t :=
  match op with
  | Push metrics => MetricsStream.push metrics st s
  | Flush => (st, MetricsStream.flush s)
  | Clear => (st, MetricsStream.clear s)
  end.

Fixpoint stream_run (ops : list StreamOp) (st : Store.t)
    (s : MetricsStream.t) : Store.t * MetricsStream.t :=
  match ops with
  | [] => (st, s)
  | op :: rest =>
      let (st', s') := stream_step op st s in stream_run rest st' s'
  end.

(** Every reference held by an object of the store names an object of the
    store. *)
Definition closed (st : Store.t) : Prop :=
  Forall (fun o =>
            Forall (fun kv =>
                      match snd kv with
                      | Store.VRef r => (r < length st)%nat
                      | _ => True
                      end) (Store.fields o)) st.

(** What holds of a stream between two calls: the configuration it was built
    with, a buffer below the capacity, no empty payload delivered, and only
    frozen objects of the store buffered or delivered. *)
Definition stream_inv (cfg : Config.t) (st : Store.t) (s : MetricsStream.t)
  : Prop :=
  MetricsStream.config s = cfg /\
  Z.of_nat (length (MetricsStream.buffer s)) < Config.metricsBufferSize cfg /\
  Forall (fun payload => payload <> []) (MetricsStream.emitted s) /\
  MetricsStream.frozen_refs st (MetricsStream.buffer s) /\
  Forall (MetricsStream.frozen_refs st) (MetricsStream.emitted s).

End Runs.

(** ** Inputs of further scenarios *)
Module Samples.

(** [new Config({ maxMemorySnapshots: 3 })] of MemoryCollector.spec *)
Definition config_snapshots3 : Config.t :=
  Config.mk 5000 true 3 500 100 1000 false.

(** Readings in which only the clock and the heap in use vary. *)
Definition reading (time heap : Z) : Platform :=
  mkPlatform time heap 2000 3000 10 20 1 0 4.

(** The registry of the README: a CpuCollector, then a MemoryCollector. *)
Definition readme_collectors : list (string * Provided.t) :=
  [ ("cpu", Provided.Cpu (CpuCollector.new Fixtures.config100));
    ("memory", Provided.Memory (MemoryCollector.new Fixtures.config100)) ].

Definition readme_agent : Agent.t Provided.t :=
  Agent.mk Fixtures.config100 readme_collectors false None [].

End Samples.

(** * Facts *)

(** Case analysis on the conditions of the conditionals in the goal. *)
Ltac case_if :=
  match goal with
  | |- context [if ?b then _ else _] => destruct b eqn:?
  end.

(** ** Config *)

(** A constructed configuration has positive numeric fields. *)
Lemma config_new_positive options c :
  Config.new options = Ok c ->
  0 < Config.sampleInterval c /\
  0 < Config.maxMemorySnapshots c /\
  0 < Config.cpuProfilingDuration c /\
  0 < Config.eventLoopThreshold c /\
  0 < Config.metricsBufferSize c.
Proof.
  unfold Config.new, Config.validateConfig.
  set (built := Config.mk _ _ _ _ _ _ _).
  destruct (Z.leb_spec (Config.sampleInterval built) 0); [discriminate|].
  destruct (Z.leb_spec (Config.maxMemorySnapshots built) 0); [discriminate|].
  destruct (Z.leb_spec (Config.cpuProfilingDuration built) 0);
    [discriminate|].
  destruct (Z.leb_spec (Config.eventLoopThreshold built) 0); [discriminate|].
  destruct (Z.leb_spec (Config.metricsBufferSize built) 0); [discriminate|].
  intros [= <-]. repeat split; assumption.
Qed.

(** ** Timers *)

Lemma agent_timers_setInterval_agent ms tm :
  Timers.agent_timers (fst (Timers.setInterval Timers.CbAgentCollect ms tm))
  = Timers.agent_timers tm
    ++ [Timers.mkEntry (Timers.next_handle tm) Timers.CbAgentCollect ms].
Proof.
  unfold Timers.agent_timers, Timers.setInterval; simpl.
  now rewrite List.filter_app.
Qed.

Lemma agent_timers_setInterval_other ms tm :
  Timers.agent_timers
    (fst (Timers.setInterval Timers.CbEventLoopCheck ms tm))
  = Timers.agent_timers tm.
Proof.
  unfold Timers.agent_timers, Timers.setInterval; simpl.
  rewrite List.filter_app. simpl. apply app_nil_r.
Qed.

Lemma agent_timers_clearInterval h tm e :
  In e (Timers.agent_timers (Timers.clearInterval h tm)) ->
  In e (Timers.agent_timers tm) /\ Timers.e_handle e <> h.
Proof.
  unfold Timers.agent_timers, Timers.clearInterval; simpl.
  rewrite !List.filter_In, negb_true_iff, Nat.eqb_neq. tauto.
Qed.

Lemma wf_empty : Timers.wf Timers.empty.
Proof. constructor. Qed.

Lemma wf_setInterval cb ms tm :
  Timers.wf tm -> Timers.wf (fst (Timers.setInterval cb ms tm)).
Proof.
  unfold Timers.wf, Timers.setInterval; simpl. intros Hwf.
  apply Forall_app. split.
  - eapply List.Forall_impl; [|exact Hwf]. simpl. intros e He. lia.
  - constructor; [simpl; lia | constructor].
Qed.

Lemma wf_clearInterval h tm :
  Timers.wf tm -> Timers.wf (Timers.clearInterval h tm).
Proof.
  unfold Timers.wf, Timers.clearInterval; simpl. intros Hwf.
  rewrite List.Forall_forall in *. intros e He.
  apply List.filter_In in He as [He _]. now apply Hwf.
Qed.

(** The timer just armed is the one its handle finds. *)
Lemma find_setInterval cb ms tm :
  Timers.wf tm ->
  Timers.find (Timers.next_handle tm) (fst (Timers.setInterval cb ms tm))
  = Some (Timers.mkEntry (Timers.next_handle tm) cb ms).
Proof.
  unfold Timers.wf, Timers.find, Timers.setInterval; simpl.
  induction (Timers.armed tm) as [|e l IH]; simpl; intros Hwf.
  - now rewrite Nat.eqb_refl.
  - inversion Hwf as [|? ? He Hl]; subst.
    destruct (Nat.eqb_spec (Timers.e_handle e) (Timers.next_handle tm));
      [lia | now apply IH].
Qed.

Lemma find_agent_timer h tm e :
  Timers.find h tm = Some e -> Timers.is_agent_timer e = true ->
  In e (Timers.agent_timers tm).
Proof.
  unfold Timers.find, Timers.agent_timers. intros Hf Ha.
  apply List.find_some in Hf as [Hin _].
  apply List.filter_In. now split.
Qed.

(** ** The loops over the registered collectors *)

Section Loops.
Context {C : Type} `{Collector.Impl C}.

Lemma for_each_all_ok (f : C -> C * result unit) cs :
  Forall (Agent.succeeds f) cs ->
  Agent.for_each f cs = (Agent.called_on f cs, Ok tt).
Proof.
  induction 1 as [|[name c] rest Hc _ IH]; simpl; [reflexivity|].
  unfold Agent.succeeds in Hc; simpl in Hc.
  destruct (f c) as [c' r]; simpl in *; subst r.
  now rewrite IH.
Qed.

Lemma for_each_throw (f : C -> C * result unit) pre name c post e :
  Forall (Agent.succeeds f) pre ->
  snd (f c) = Throw e ->
  Agent.for_each f (pre ++ (name, c) :: post)
  = (Agent.called_on f (pre ++ [(name, c)]) ++ post, Throw e).
Proof.
  intros Hpre Hc.
  induction Hpre as [|[n0 c0] rest H0 _ IH]; simpl.
  - destruct (f c) as [c' r]; simpl in *; now subst r.
  - unfold Agent.succeeds in H0; simpl in H0.
    destruct (f c0) as [c0' r0]; simpl in *; subst r0.
    now rewrite IH.
Qed.

(** A loop that throws did so at some collector, after the ones before it
    succeeded. *)
Lemma for_each_throw_inv (f : C -> C * result unit) cs cs' e :
  Agent.for_each f cs = (cs', Throw e) ->
  exists pre name c post,
    cs = pre ++ (name, c) :: post /\
    Forall (Agent.succeeds f) pre /\
    snd (f c) = Throw e.
Proof.
  revert cs'. induction cs as [|[n0 c0] rest IH]; simpl; intros cs' Heq.
  - discriminate.
  - destruct (f c0) as [c0' [u|e0]] eqn:Hf.
    + destruct (Agent.for_each f rest) as [rest' r] eqn:Hrest.
      injection Heq as _ ->.
      destruct (IH _ eq_refl) as (pre & name & c & post & -> & Hpre & Hc).
      exists ((n0, c0) :: pre), name, c, post. repeat split; auto.
      constructor; auto. unfold Agent.succeeds; simpl. rewrite Hf.
      now destruct u.
    + injection Heq as _ ->.
      exists [], n0, c0, rest. repeat split; auto. now rewrite Hf.
Qed.

Lemma for_each_names (f : C -> C * result unit) cs :
  map (@fst string C) (fst (Agent.for_each f cs)) = map (@fst string C) cs.
Proof.
  induction cs as [|[n0 c0] rest IH]; simpl; [reflexivity|].
  destruct (f c0) as [c0' [u|e0]]; simpl.
  - destruct (Agent.for_each f rest); simpl in *. now rewrite IH.
  - reflexivity.
Qed.

Lemma gather_all_ok env cs results acc :
  Forall2 (Agent.returns env) cs results ->
  Agent.gather env cs acc
  = (Agent.collected_on env cs, Ok (acc ++ concat results)).
Proof.
  intros Hall. revert acc.
  induction Hall as [|[name c] ms rest results Hc _ IH]; intros acc; simpl.
  - now rewrite app_nil_r.
  - unfold Agent.returns in Hc; simpl in Hc.
    destruct (Collector.collect env c) as [c' r]; simpl in *; subst r.
    now rewrite IH, app_assoc.
Qed.

Lemma gather_throw env pre name c post e acc :
  Forall (fun nc => exists ms, Agent.returns env nc ms) pre ->
  snd (Collector.collect env c) = Throw e ->
  Agent.gather env (pre ++ (name, c) :: post) acc
  = (Agent.collected_on env (pre ++ [(name, c)]) ++ post, Throw e).
Proof.
  intros Hpre Hc. revert acc.
  induction Hpre as [|[n0 c0] rest [ms H0] _ IH]; intros acc; simpl.
  - destruct (Collector.collect env c) as [c' r]; simpl in *; now subst r.
  - unfold Agent.returns in H0; simpl in H0.
    destruct (Collector.collect env c0) as [c0' r0]; simpl in *; subst r0.
    now rewrite IH.
Qed.

(** When the method throws on some registered collector, there is a first
    collector on which it does. *)
Lemma first_failure (f : C -> C * result unit) cs :
  Exists (fun nc => is_ok (snd (f (snd nc))) = false) cs ->
  exists pre name c post e,
    cs = pre ++ (name, c) :: post /\
    Forall (Agent.succeeds f) pre /\
    snd (f c) = Throw e.
Proof.
  induction cs as [|[n0 c0] rest IH]; intros Hex.
  - inversion Hex.
  - destruct (snd (f c0)) as [u|e0] eqn:Hf.
    + assert (Hrest : Exists (fun nc => is_ok (snd (f (snd nc))) = false) rest).
      { inversion Hex as [? ? Hhead|? ? Htail]; subst; [|assumption].
        simpl in Hhead. rewrite Hf in Hhead. discriminate. }
      destruct (IH Hrest) as (pre & name & c & post & e & -> & Hpre & Hc).
      exists ((n0, c0) :: pre), name, c, post, e. repeat split; auto.
      constructor; auto. unfold Agent.succeeds; simpl. rewrite Hf.
      now destruct u.
    + exists [], n0, c0, rest, e0. repeat split; auto.
Qed.

Lemma first_collect_failure env (cs : list (string * C)) :
  Exists (fun nc => is_ok (snd (Collector.collect env (snd nc))) = false) cs ->
  exists pre name c post e,
    cs = pre ++ (name, c) :: post /\
    Forall (fun nc => exists ms, Agent.returns env nc ms) pre /\
    snd (Collector.collect env c) = Throw e.
Proof.
  induction cs as [|[n0 c0] rest IH]; intros Hex.
  - inversion Hex.
  - destruct (snd (Collector.collect env c0)) as [ms|e0] eqn:Hf.
    + assert (Hrest :
        Exists (fun nc => is_ok (snd (Collector.collect env (snd nc))) = false)
               rest).
      { inversion Hex as [? ? Hhead|? ? Htail]; subst; [|assumption].
        simpl in Hhead. rewrite Hf in Hhead. discriminate. }
      destruct (IH Hrest) as (pre & name & c & post & e & -> & Hpre & Hc).
      exists ((n0, c0) :: pre), name, c, post, e. repeat split; auto.
      constructor; auto. exists ms. exact Hf.
    + exists [], n0, c0, rest, e0. repeat split; auto.
Qed.

End Loops.

(** ** Agent: lifecycle *)

Section AgentFacts.
Context {C : Type} `{Collector.Impl C}.

Implicit Types (a : Agent.t C) (tm : Timers.t) (env : Platform).

(** The outcome of a [start()] during which a collector's [start()]
    throws. *)
Lemma start_throws env tm a pre name c post e0 :
  Agent.isRunning a = false ->
  Agent.collectors a = pre ++ (name, c) :: post ->
  Forall (Agent.succeeds (Collector.start env)) pre ->
  snd (Collector.start env c) = Throw e0 ->
  Agent.start env tm a
  = (tm,
     Agent.mk (Agent.config a)
       (Agent.called_on (Collector.start env) (pre ++ [(name, c)]) ++ post)
       false (Agent.collectionInterval a) (Agent.emitted a),
     Throw (mkError "Start failed")).
Proof.
  intros Hrun Hcs Hpre Hc. unfold Agent.start.
  rewrite Hrun, Hcs, (for_each_throw _ _ _ _ _ e0) by assumption.
  reflexivity.
Qed.

Lemma start_succeeds env tm a :
  Agent.isRunning a = false ->
  Forall (Agent.succeeds (Collector.start env)) (Agent.collectors a) ->
  Agent.start env tm a
  = (fst (Timers.setInterval Timers.CbAgentCollect
            (Config.sampleInterval (Agent.config a)) tm),
     Agent.mk (Agent.config a)
       (Agent.called_on (Collector.start env) (Agent.collectors a))
       true (Some (Timers.next_handle tm)) (Agent.emitted a),
     Ok tt).
Proof.
  intros Hrun Hall. unfold Agent.start.
  now rewrite Hrun, for_each_all_ok.
Qed.

(** The outcome of a [stop()] during which a collector's [stop()]
    throws. *)
Lemma stop_throws env tm a pre name c post e0 :
  Agent.isRunning a = true ->
  Agent.collectors a = pre ++ (name, c) :: post ->
  Forall (Agent.succeeds (Collector.stop env)) pre ->
  snd (Collector.stop env c) = Throw e0 ->
  Agent.stop env tm a
  = (match Agent.collectionInterval a with
     | Some h => Timers.clearInterval h tm
     | None => tm
     end,
     Agent.mk (Agent.config a)
       (Agent.called_on (Collector.stop env) (pre ++ [(name, c)]) ++ post)
       true (Agent.collectionInterval a) (Agent.emitted a),
     Throw (mkError "Stop failed")).
Proof.
  intros Hrun Hcs Hpre Hc. unfold Agent.stop.
  rewrite Hrun, Hcs, (for_each_throw _ _ _ _ _ e0) by assumption.
  reflexivity.
Qed.

Lemma stop_succeeds env tm a :
  Agent.isRunning a = true ->
  Forall (Agent.succeeds (Collector.stop env)) (Agent.collectors a) ->
  Agent.stop env tm a
  = (match Agent.collectionInterval a with
     | Some h => Timers.clearInterval h tm
     | None => tm
     end,
     Agent.mk (Agent.config a)
       (Agent.called_on (Collector.stop env) (Agent.collectors a))
       false (Agent.collectionInterval a) (Agent.emitted a),
     Ok tt).
Proof.
  intros Hrun Hall. unfold Agent.stop.
  now rewrite Hrun, for_each_all_ok.
Qed.

(** *** The timer invariant holds at construction and is kept by every
    operation. *)

Lemma timer_inv_new cfg a :
  Agent.new cfg = Ok a -> Agent.timer_inv Timers.empty a.
Proof. intros _ e []. Qed.

Lemma timer_inv_not_running tm a :
  Agent.timer_inv tm a -> Agent.isRunning a = false ->
  Timers.agent_timers tm = [].
Proof.
  intros Hinv Hrun.
  destruct (Timers.agent_timers tm) as [|e l] eqn:E; [reflexivity|].
  destruct (Hinv e) as [Hr _]; [rewrite E; now left | congruence].
Qed.

Lemma timer_inv_start env tm a :
  Agent.timer_inv tm a ->
  Agent.timer_inv (fst (fst (Agent.start env tm a)))
                  (snd (fst (Agent.start env tm a))).
Proof.
  intros Hinv. unfold Agent.start.
  destruct (Agent.isRunning a) eqn:Hrun; simpl; [assumption|].
  pose proof (timer_inv_not_running _ _ Hinv Hrun) as Hnone.
  destruct (Agent.for_each _ _) as [cs [u|e0]]; simpl.
  - intros e. unfold Timers.setInterval; simpl.
    change (Timers.agent_timers _) with
      (Timers.agent_timers
         (fst (Timers.setInterval Timers.CbAgentCollect
                 (Config.sampleInterval (Agent.config a)) tm))).
    rewrite agent_timers_setInterval_agent, Hnone; simpl.
    intros [<-|[]]. now split.
  - intros e. rewrite Hnone. intros [].
Qed.

Lemma agent_timers_after_clear tm a :
  Agent.timer_inv tm a ->
  Timers.agent_timers
    (match Agent.collectionInterval a with
     | Some h => Timers.clearInterval h tm
     | None => tm
     end) = [].
Proof.
  intros Hinv.
  destruct (Agent.collectionInterval a) as [h|] eqn:Hh.
  - destruct (Timers.agent_timers _) as [|e l] eqn:E; [reflexivity|].
    assert (Hin : In e (Timers.agent_timers (Timers.clearInterval h tm)))
      by (rewrite E; now left).
    apply agent_timers_clearInterval in Hin as [Hin Hne].
    destruct (Hinv e Hin) as [_ Heq]. congruence.
  - destruct (Timers.agent_timers tm) as [|e l] eqn:E; [reflexivity|].
    destruct (Hinv e) as [_ Heq]; [rewrite E; now left | congruence].
Qed.

Lemma timer_inv_stop env tm a :
  Agent.timer_inv tm a ->
  Agent.timer_inv (fst (fst (Agent.stop env tm a)))
                  (snd (fst (Agent.stop env tm a))).
Proof.
  intros Hinv. unfold Agent.stop.
  destruct (Agent.isRunning a) eqn:Hrun; simpl; [|assumption].
  pose proof (agent_timers_after_clear _ _ Hinv) as Hnone.
  destruct (Agent.for_each _ _) as [cs [u|e0]]; simpl;
    intros e; rewrite Hnone; intros [].
Qed.

Lemma timer_inv_collect env tm a :
  Agent.timer_inv tm a -> Agent.timer_inv tm (Agent.collect env a).
Proof.
  intros Hinv e Hin. unfold Agent.collect.
  destruct (Agent.gather _ _ _) as [cs [ms|e0]]; simpl; auto.
Qed.

Lemma timer_inv_registerCollector name c tm a :
  Agent.timer_inv tm a ->
  Agent.timer_inv tm (fst (Agent.registerCollector name c a)).
Proof.
  intros Hinv e Hin. unfold Agent.registerCollector.
  destruct (Agent.has _ _); simpl; auto.
Qed.

Lemma timer_inv_fire env h tm a :
  Agent.timer_inv tm a -> Agent.timer_inv tm (Agent.fire env h tm a).
Proof.
  intros Hinv. unfold Agent.fire.
  destruct (Timers.find h tm) as [e|]; [|assumption].
  destruct (Timers.is_agent_timer e); [|assumption].
  now apply timer_inv_collect.
Qed.

(** Timers armed and cleared by other code keep the invariant. *)
Lemma timer_inv_setInterval_other ms tm a :
  Agent.timer_inv tm a ->
  Agent.timer_inv (fst (Timers.setInterval Timers.CbEventLoopCheck ms tm)) a.
Proof.
  intros Hinv e. rewrite agent_timers_setInterval_other. apply Hinv.
Qed.

Lemma timer_inv_clearInterval h tm a :
  Agent.timer_inv tm a -> Agent.timer_inv (Timers.clearInterval h tm) a.
Proof.
  intros Hinv e Hin. apply agent_timers_clearInterval in Hin as [Hin _].
  now apply Hinv.
Qed.

Lemma timer_inv_eventloop env tm a c :
  Agent.timer_inv tm a ->
  Agent.timer_inv (fst (fst (EventLoopCollector.start env tm c))) a /\
  Agent.timer_inv (fst (fst (EventLoopCollector.stop env tm c))) a.
Proof.
  intros Hinv.
  unfold EventLoopCollector.start, EventLoopCollector.stop. split.
  - destruct (EventLoopCollector.isRunning c); simpl; [assumption|].
    now apply timer_inv_setInterval_other.
  - destruct (EventLoopCollector.isRunning c); simpl; [|assumption].
    destruct (EventLoopCollector.checkInterval c); simpl; [|assumption].
    now apply timer_inv_clearInterval.
Qed.

Lemma wf_start env tm a :
  Timers.wf tm -> Timers.wf (fst (fst (Agent.start env tm a))).
Proof.
  intros Hwf. unfold Agent.start.
  destruct (Agent.isRunning a); simpl; [assumption|].
  destruct (Agent.for_each _ _) as [cs [u|e0]]; simpl; [|assumption].
  now apply (wf_setInterval Timers.CbAgentCollect).
Qed.

Lemma wf_stop env tm a :
  Timers.wf tm -> Timers.wf (fst (fst (Agent.stop env tm a))).
Proof.
  intros Hwf. unfold Agent.stop.
  destruct (negb (Agent.isRunning a)); simpl; [assumption|].
  assert (Hcleared : Timers.wf
            (match Agent.collectionInterval a with
             | Some h => Timers.clearInterval h tm
             | None => tm
             end)).
  { destruct (Agent.collectionInterval a);
      [now apply wf_clearInterval | assumption]. }
  destruct (Agent.for_each _ _) as [cs [u|e0]]; exact Hcleared.
Qed.

(** In every reachable state the timers are well formed. *)
Lemma reachable_wf tm a : Agent.reachable tm a -> Timers.wf tm.
Proof.
  induction 1; auto.
  - apply wf_empty.
  - now apply wf_start.
  - now apply wf_stop.
  - now apply wf_setInterval.
  - now apply wf_clearInterval.
Qed.

(** Every reachable state satisfies the timer invariant. *)
Lemma reachable_timer_inv tm a :
  Agent.reachable tm a -> Agent.timer_inv tm a.
Proof.
  induction 1.
  - eapply timer_inv_new; eassumption.
  - now apply timer_inv_registerCollector.
  - now apply timer_inv_start.
  - now apply timer_inv_stop.
  - now apply timer_inv_fire.
  - now apply timer_inv_setInterval_other.
  - now apply timer_inv_clearInterval.
Qed.

(** With no Agent timer armed, no firing of a timer runs a cycle. *)
Lemma fire_without_timer env h tm a :
  Timers.agent_timers tm = [] -> Agent.fire env h tm a = a.
Proof.
  intros Hnone. unfold Agent.fire.
  destruct (Timers.find h tm) as [e|] eqn:Hf; [|reflexivity].
  destruct (Timers.is_agent_timer e) eqn:Ha; [|reflexivity].
  pose proof (find_agent_timer _ _ _ Hf Ha) as Hin.
  rewrite Hnone in Hin. destruct Hin.
Qed.

(** C1. All-or-nothing start: in every reachable state, when the
    [start()] of some registered collector throws during [Agent.start()],
    the call throws, leaves the running flag false and the timers of the
    runtime as they were; no timer of the collection cycle is armed, and
    whichever timer fires afterwards, no collection cycle runs. *)
Theorem start_all_or_nothing env tm a :
  Agent.reachable tm a ->
  Agent.isRunning a = false ->
  Exists (fun nc => is_ok (snd (Collector.start env (snd nc))) = false)
         (Agent.collectors a) ->
  exists a' e,
    Agent.start env tm a = (tm, a', Throw e) /\
    Agent.isRunning a' = false /\
    Timers.agent_timers tm = [] /\
    forall env' h, Agent.fire env' h tm a' = a'.
Proof.
  intros Hreach Hrun Hfail.
  destruct (first_failure _ _ Hfail)
    as (pre & name & c & post & e0 & Hcs & Hpre & Hc).
  pose proof (reachable_timer_inv _ _ Hreach) as Hinv.
  pose proof (timer_inv_not_running _ _ Hinv Hrun) as Hnone.
  eexists _, _. split; [eapply start_throws; eassumption|].
  repeat split; auto.
  intros env' h. now apply fire_without_timer.
Qed.

(** C6, as the code has it. Start error: when the [start()] of a
    registered collector throws during [Agent.start()], the caller of
    [Agent.start()] receives a new error whose message is "Start failed",
    whatever the collector threw, and no event is emitted. *)
Theorem start_error_is_start_failed env tm a pre name c post e0 :
  Agent.isRunning a = false ->
  Agent.collectors a = pre ++ (name, c) :: post ->
  Forall (Agent.succeeds (Collector.start env)) pre ->
  snd (Collector.start env c) = Throw e0 ->
  snd (Agent.start env tm a) = Throw (mkError "Start failed") /\
  Agent.emitted (snd (fst (Agent.start env tm a))) = Agent.emitted a.
Proof.
  intros Hrun Hcs Hpre Hc.
  now rewrite (start_throws env tm a pre name c post e0).
Qed.

(** ** Agent: the collection cycle *)

Lemma collect_throws env a pre name c post e0 :
  Agent.collectors a = pre ++ (name, c) :: post ->
  Forall (fun nc => exists ms, Agent.returns env nc ms) pre ->
  snd (Collector.collect env c) = Throw e0 ->
  Agent.collect env a
  = Agent.emit (Agent.EvError e0)
      (Agent.collected_on env (pre ++ [(name, c)]) ++ post) a.
Proof.
  intros Hcs Hpre Hc. unfold Agent.collect.
  now rewrite Hcs, (gather_throw _ _ _ _ _ e0).
Qed.

Lemma collect_succeeds env a results :
  Forall2 (Agent.returns env) (Agent.collectors a) results ->
  Agent.collect env a
  = Agent.emit (Agent.EvMetrics (concat results))
      (Agent.collected_on env (Agent.collectors a)) a.
Proof.
  intros Hall. unfold Agent.collect.
  now rewrite (gather_all_ok _ _ results).
Qed.

Lemma fire_agent_timer env h tm a e :
  Timers.find h tm = Some e -> Timers.is_agent_timer e = true ->
  Agent.fire env h tm a = Agent.collect env a.
Proof. intros Hf Ha. unfold Agent.fire. now rewrite Hf, Ha. Qed.

(** A timer that fires in a process that has not ended runs what
    [Agent.fire] runs, and leaves the timers and the listeners alone. *)
Lemma tick_agent env h (p : Process.t C) :
  Process.uncaught p = None ->
  Process.agent (Process.tick env h p)
  = Agent.fire env h (Process.timers p) (Process.agent p).
Proof.
  intros Halive. unfold Process.tick, Agent.fire. rewrite Halive.
  destruct (Timers.find h (Process.timers p)) as [e|]; [|reflexivity].
  now destruct (Timers.is_agent_timer e).
Qed.

Lemma tick_frame env h (p : Process.t C) :
  Process.timers (Process.tick env h p) = Process.timers p /\
  Process.listeners (Process.tick env h p) = Process.listeners p.
Proof.
  unfold Process.tick. destruct (Process.uncaught p); [now split|].
  destruct (Timers.find h (Process.timers p)) as [e|]; [|now split].
  now destruct (Timers.is_agent_timer e).
Qed.

Lemma tick_ended env h (p : Process.t C) e :
  Process.uncaught p = Some e -> Process.tick env h p = p.
Proof. intros Hended. unfold Process.tick. now rewrite Hended. Qed.

(** Every cycle emits one event. *)
Lemma collect_emits env (a : Agent.t C) :
  exists ev, Agent.emitted (Agent.collect env a) = Agent.emitted a ++ [ev].
Proof.
  unfold Agent.collect.
  destruct (Agent.gather env (Agent.collectors a) []) as [cs [ms|e]];
    eexists; reflexivity.
Qed.

(** C2, as the code has it.  Cycle failure isolation: the timer of the
    collection cycle fires in a process that has not ended, and in the
    cycle the [collect()] of a registered collector throws (those before it
    having returned).  The Agent emits exactly one event, an ['error']
    carrying the error thrown, and no ['metrics'] event.  The running flag
    and the interval handle are as before; the collectors up to the failing
    one have had [collect()] called and nothing else, the later ones are
    untouched, so no collector was stopped; the timers and the listeners
    are as before.  With a listener of ['error'] the promise of
    [collect()] is fulfilled, the process goes on, and when the same timer
    fires next a cycle runs and emits one more event, a ['metrics'] with
    the whole batch when every collector returns then.  With no listener
    of ['error'], [emit] throws the error, the promise of [collect()] is
    rejected, the process ends with that error and no timer fires any
    more. *)
Theorem cycle_failure_isolation env h e (p : Process.t C)
    pre name c post e0 :
  Process.uncaught p = None ->
  Timers.find h (Process.timers p) = Some e ->
  Timers.is_agent_timer e = true ->
  Agent.collectors (Process.agent p) = pre ++ (name, c) :: post ->
  Forall (fun nc => exists ms, Agent.returns env nc ms) pre ->
  snd (Collector.collect env c) = Throw e0 ->
  Agent.emitted (Process.agent (Process.tick env h p))
    = Agent.emitted (Process.agent p) ++ [Agent.EvError e0] /\
  Agent.isRunning (Process.agent (Process.tick env h p))
    = Agent.isRunning (Process.agent p) /\
  Agent.collectionInterval (Process.agent (Process.tick env h p))
    = Agent.collectionInterval (Process.agent p) /\
  Agent.collectors (Process.agent (Process.tick env h p))
    = Agent.collected_on env (pre ++ [(name, c)]) ++ post /\
  Process.timers (Process.tick env h p) = Process.timers p /\
  Process.listeners (Process.tick env h p) = Process.listeners p /\
  ((0 < Process.onError (Process.listeners p))%nat ->
     Process.uncaught (Process.tick env h p) = None /\
     forall env',
       exists ev,
         Agent.emitted
           (Process.agent (Process.tick env' h (Process.tick env h p)))
         = Agent.emitted (Process.agent (Process.tick env h p)) ++ [ev] /\
         forall results,
           Forall2 (Agent.returns env')
             (Agent.collectors (Process.agent (Process.tick env h p)))
             results ->
           ev = Agent.EvMetrics (concat results)) /\
  (Process.onError (Process.listeners p) = 0%nat ->
     Process.uncaught (Process.tick env h p) = Some e0 /\
     forall env' h',
       Process.tick env' h' (Process.tick env h p) = Process.tick env h p).
Proof.
  intros Halive Hfind Htimer Hcs Hpre Hc.
  destruct (tick_frame env h p) as [Htm Hls].
  assert (Hagent : Process.agent (Process.tick env h p)
                   = Agent.emit (Agent.EvError e0)
                       (Agent.collected_on env (pre ++ [(name, c)]) ++ post)
                       (Process.agent p)).
  { rewrite tick_agent by assumption.
    rewrite (fire_agent_timer _ _ _ _ e) by assumption.
    now apply collect_throws. }
  assert (Hsettles : Process.uncaught (Process.tick env h p)
                     = if (Process.onError (Process.listeners p) =? 0)%nat
                       then Some e0 else None).
  { unfold Process.tick, Process.collect.
    rewrite Halive, Hfind, Htimer, Hcs.
    rewrite (gather_throw _ _ _ _ _ e0) by assumption. simpl.
    now destruct (Process.onError (Process.listeners p) =? 0)%nat. }
  assert (Hgoes : (0 < Process.onError (Process.listeners p))%nat ->
                  Process.uncaught (Process.tick env h p) = None).
  { intros Hheard. rewrite Hsettles.
    destruct (Nat.eqb_spec (Process.onError (Process.listeners p)) 0);
      [lia | reflexivity]. }
  repeat apply conj; try assumption; try (rewrite Hagent; reflexivity).
  - intros Hheard. split; [now apply Hgoes|]. intros env'.
    rewrite (tick_agent env' h _ (Hgoes Hheard)), Htm.
    rewrite (fire_agent_timer _ _ _ _ e) by assumption.
    destruct (collect_emits env' (Process.agent (Process.tick env h p)))
      as [ev Hev].
    exists ev. split; [exact Hev|].
    intros results Hall.
    rewrite (collect_succeeds env' _ results) in Hev by exact Hall.
    simpl in Hev. apply app_inv_head in Hev. now injection Hev as <-.
  - intros Hunheard.
    assert (Hended : Process.uncaught (Process.tick env h p) = Some e0)
      by (rewrite Hsettles, Hunheard; reflexivity).
    split; [exact Hended|]. intros env' h'.
    now apply (tick_ended env' h' _ e0).
Qed.

(** C2 as stated fails with the listeners of the README, which subscribes
    to ['metrics'] alone: in the cycle in which B fails, [emit('error',
    boom)] throws, the process ends with [boom] while the Agent is running
    and its timer is armed, and when the timer would fire next no cycle
    runs and nothing more is emitted. *)
Lemma cycle_failure_unheard :
  let p := Fixtures.unheard (Fixtures.around Fixtures.failingCollect) in
  let p' := Process.tick Fixtures.env0 0%nat p in
  Process.emit (Process.listeners p) (Agent.EvError Fixtures.boom)
  = Throw Fixtures.boom /\
  Process.uncaught p' = Some Fixtures.boom /\
  Agent.isRunning (Process.agent p') = true /\
  Timers.agent_timers (Process.timers p')
  = [Timers.mkEntry 0%nat Timers.CbAgentCollect 100] /\
  Process.tick Fixtures.env0 0%nat p' = p' /\
  Agent.emitted (Process.agent (Process.tick Fixtures.env0 0%nat p'))
  = Agent.emitted (Process.agent p').
Proof. cbv zeta. repeat apply conj; reflexivity. Qed.

(** A cycle in which the [collect()] of some collector throws emits one
    ['error'] event and nothing else. *)
Lemma failing_cycle_emits_error env a :
  Exists (fun nc => is_ok (snd (Collector.collect env (snd nc))) = false)
         (Agent.collectors a) ->
  exists e0,
    Agent.emitted (Agent.collect env a)
    = Agent.emitted a ++ [Agent.EvError e0].
Proof.
  intros Hfail.
  destruct (first_collect_failure _ _ Hfail)
    as (pre & name & c & post & e0 & Hcs & Hpre & Hc).
  exists e0. now rewrite (collect_throws env a pre name c post e0).
Qed.

Lemma all_empty_results env (cs : list (string * C)) :
  Forall (fun nc => Agent.returns env nc []) cs ->
  exists results,
    Forall2 (Agent.returns env) cs results /\ concat results = [].
Proof.
  induction 1 as [|nc rest Hnc _ (results & IH1 & IH2)].
  - exists []. split; [constructor | reflexivity].
  - exists ([] :: results). split; [now constructor | exact IH2].
Qed.

(** C3. Batch ordering: in a cycle in which every registered collector's
    [collect()] returns, the Agent emits exactly one event, a ['metrics']
    carrying the concatenation of the collectors' results in registration
    order; with no collector registered, or when every collector returns
    the empty sequence, that event carries the empty batch. *)
Theorem batch_ordering env a :
  (forall results,
      Forall2 (Agent.returns env) (Agent.collectors a) results ->
      Agent.emitted (Agent.collect env a)
      = Agent.emitted a ++ [Agent.EvMetrics (concat results)]) /\
  (Agent.collectors a = [] ->
      Agent.emitted (Agent.collect env a)
      = Agent.emitted a ++ [Agent.EvMetrics []]) /\
  (Forall (fun nc => Agent.returns env nc []) (Agent.collectors a) ->
      Agent.emitted (Agent.collect env a)
      = Agent.emitted a ++ [Agent.EvMetrics []]).
Proof.
  assert (Hgen : forall results,
             Forall2 (Agent.returns env) (Agent.collectors a) results ->
             Agent.emitted (Agent.collect env a)
             = Agent.emitted a ++ [Agent.EvMetrics (concat results)]).
  { intros results Hall. now rewrite (collect_succeeds env a results). }
  split; [exact Hgen|]. split.
  - intros Hnil. apply (Hgen []). rewrite Hnil. constructor.
  - intros Hall.
    destruct (all_empty_results env _ Hall) as (results & Hall' & Hempty).
    rewrite <- Hempty. now apply Hgen.
Qed.

(** ** Agent: idempotence, failure of [stop], the [enabled] flag *)

Lemma start_when_running env tm a :
  Agent.isRunning a = true -> Agent.start env tm a = (tm, a, Ok tt).
Proof. intros Hrun. unfold Agent.start. now rewrite Hrun. Qed.

Lemma stop_when_not_running env tm a :
  Agent.isRunning a = false -> Agent.stop env tm a = (tm, a, Ok tt).
Proof. intros Hrun. unfold Agent.stop. now rewrite Hrun. Qed.

Lemma start_ok_running env tm a tm1 a1 u :
  Agent.start env tm a = (tm1, a1, Ok u) -> Agent.isRunning a1 = true.
Proof.
  unfold Agent.start. destruct (Agent.isRunning a) eqn:Hrun.
  - intros [= _ <- _]. exact Hrun.
  - destruct (Agent.for_each _ _) as [cs [v|e0]]; simpl.
    + intros [= _ <- _]. reflexivity.
    + discriminate.
Qed.

Lemma stop_ok_not_running env tm a tm1 a1 u :
  Agent.stop env tm a = (tm1, a1, Ok u) -> Agent.isRunning a1 = false.
Proof.
  unfold Agent.stop. destruct (Agent.isRunning a) eqn:Hrun; simpl.
  - destruct (Agent.for_each _ _) as [cs [v|e0]]; simpl.
    + intros [= _ <- _]. reflexivity.
    + discriminate.
  - intros [= _ <- _]. exact Hrun.
Qed.

Lemma start_twice env1 env2 tm a :
  and_then (Agent.call (Agent.start env1)) (Agent.call (Agent.start env2))
           (tm, a)
  = Agent.start env1 tm a.
Proof.
  unfold and_then, Agent.call; simpl.
  destruct (Agent.start env1 tm a) as [[tm1 a1] [u|e]] eqn:E;
    [|reflexivity].
  simpl. destruct u.
  now rewrite (start_when_running env2 tm1 a1 (start_ok_running _ _ _ _ _ _ E)).
Qed.

Lemma stop_twice env1 env2 tm a :
  and_then (Agent.call (Agent.stop env1)) (Agent.call (Agent.stop env2))
           (tm, a)
  = Agent.stop env1 tm a.
Proof.
  unfold and_then, Agent.call; simpl.
  destruct (Agent.stop env1 tm a) as [[tm1 a1] [u|e]] eqn:E;
    [|reflexivity].
  simpl. destruct u.
  now rewrite (stop_when_not_running env2 tm1 a1
                 (stop_ok_not_running _ _ _ _ _ _ E)).
Qed.

End AgentFacts.

(** ** The provided collectors: [start] when active and [stop] when
    inactive *)

Lemma memory_start_active env c :
  MemoryCollector.isRunning c = true ->
  MemoryCollector.start env c = (c, Ok tt).
Proof. intros Hrun. unfold MemoryCollector.start. now rewrite Hrun. Qed.

Lemma memory_stop_inactive env c :
  MemoryCollector.isRunning c = false ->
  MemoryCollector.stop env c = (c, Ok tt).
Proof. intros Hrun. unfold MemoryCollector.stop. now rewrite Hrun. Qed.

Lemma cpu_start_active env c :
  CpuCollector.isRunning c = true -> CpuCollector.start env c = (c, Ok tt).
Proof. intros Hrun. unfold CpuCollector.start. now rewrite Hrun. Qed.

Lemma cpu_stop_inactive env c :
  CpuCollector.isRunning c = false -> CpuCollector.stop env c = (c, Ok tt).
Proof. intros Hrun. unfold CpuCollector.stop. now rewrite Hrun. Qed.

Lemma eventloop_start_active env tm c :
  EventLoopCollector.isRunning c = true ->
  EventLoopCollector.start env tm c = (tm, c, Ok tt).
Proof. intros Hrun. unfold EventLoopCollector.start. now rewrite Hrun. Qed.

Lemma eventloop_stop_inactive env tm c :
  EventLoopCollector.isRunning c = false ->
  EventLoopCollector.stop env tm c = (tm, c, Ok tt).
Proof. intros Hrun. unfold EventLoopCollector.stop. now rewrite Hrun. Qed.

(** Two calls in a row are one call, for each provided collector. *)

Lemma memory_twice env1 env2 c :
  and_then (MemoryCollector.start env1) (MemoryCollector.start env2) c
  = MemoryCollector.start env1 c /\
  and_then (MemoryCollector.stop env1) (MemoryCollector.stop env2) c
  = MemoryCollector.stop env1 c.
Proof.
  unfold and_then, MemoryCollector.start, MemoryCollector.stop.
  destruct c as [cfg snaps []]; simpl; auto.
Qed.

Lemma cpu_twice env1 env2 c :
  and_then (CpuCollector.start env1) (CpuCollector.start env2) c
  = CpuCollector.start env1 c /\
  and_then (CpuCollector.stop env1) (CpuCollector.stop env2) c
  = CpuCollector.stop env1 c.
Proof.
  unfold and_then, CpuCollector.start, CpuCollector.stop.
  destruct c as [cfg [] usage stamp]; simpl; auto.
Qed.

Lemma eventloop_twice env1 env2 tm c :
  and_then (EventLoopCollector.call (EventLoopCollector.start env1))
           (EventLoopCollector.call (EventLoopCollector.start env2)) (tm, c)
  = EventLoopCollector.start env1 tm c /\
  and_then (EventLoopCollector.call (EventLoopCollector.stop env1))
           (EventLoopCollector.call (EventLoopCollector.stop env2)) (tm, c)
  = EventLoopCollector.stop env1 tm c.
Proof.
  unfold and_then, EventLoopCollector.call, EventLoopCollector.start,
    EventLoopCollector.stop.
  destruct c as [cfg [] last [h|]]; simpl; auto.
Qed.

(** C8. Lifecycle idempotence.  For the Agent: [start()] called twice in a
    row leaves the runtime and the Agent as one call does and returns what
    one call returns, and so does [stop()]; after a [start()] that returned
    a further [start()] changes nothing, and after a [stop()] that returned
    a further [stop()] changes nothing.  For MemoryCollector, CpuCollector
    and EventLoopCollector: [start()] on an active collector and [stop()]
    on an inactive one return with the collector (and the timers)
    unchanged, and two calls in a row are one call. *)
Theorem lifecycle_idempotence :
  (forall (C : Type) (I : Collector.Impl C) env1 env2 tm (a : Agent.t C),
      and_then (Agent.call (Agent.start env1)) (Agent.call (Agent.start env2))
               (tm, a) = Agent.start env1 tm a /\
      and_then (Agent.call (Agent.stop env1)) (Agent.call (Agent.stop env2))
               (tm, a) = Agent.stop env1 tm a /\
      (forall tm1 a1, Agent.start env1 tm a = (tm1, a1, Ok tt) ->
                      Agent.start env2 tm1 a1 = (tm1, a1, Ok tt)) /\
      (forall tm1 a1, Agent.stop env1 tm a = (tm1, a1, Ok tt) ->
                      Agent.stop env2 tm1 a1 = (tm1, a1, Ok tt))) /\
  (forall env1 env2 c,
      (MemoryCollector.isRunning c = true ->
       MemoryCollector.start env1 c = (c, Ok tt)) /\
      (MemoryCollector.isRunning c = false ->
       MemoryCollector.stop env1 c = (c, Ok tt)) /\
      and_then (MemoryCollector.start env1) (MemoryCollector.start env2) c
      = MemoryCollector.start env1 c /\
      and_then (MemoryCollector.stop env1) (MemoryCollector.stop env2) c
      = MemoryCollector.stop env1 c) /\
  (forall env1 env2 c,
      (CpuCollector.isRunning c = true ->
       CpuCollector.start env1 c = (c, Ok tt)) /\
      (CpuCollector.isRunning c = false ->
       CpuCollector.stop env1 c = (c, Ok tt)) /\
      and_then (CpuCollector.start env1) (CpuCollector.start env2) c
      = CpuCollector.start env1 c /\
      and_then (CpuCollector.stop env1) (CpuCollector.stop env2) c
      = CpuCollector.stop env1 c) /\
  (forall env1 env2 tm c,
      (EventLoopCollector.isRunning c = true ->
       EventLoopCollector.start env1 tm c = (tm, c, Ok tt)) /\
      (EventLoopCollector.isRunning c = false ->
       EventLoopCollector.stop env1 tm c = (tm, c, Ok tt)) /\
      and_then (EventLoopCollector.call (EventLoopCollector.start env1))
               (EventLoopCollector.call (EventLoopCollector.start env2))
               (tm, c)
      = EventLoopCollector.start env1 tm c /\
      and_then (EventLoopCollector.call (EventLoopCollector.stop env1))
               (EventLoopCollector.call (EventLoopCollector.stop env2))
               (tm, c)
      = EventLoopCollector.stop env1 tm c).
Proof.
  repeat apply conj.
  - intros C I env1 env2 tm a. repeat apply conj.
    + apply start_twice.
    + apply stop_twice.
    + intros tm1 a1 E. apply start_when_running.
      eapply start_ok_running; eassumption.
    + intros tm1 a1 E. apply stop_when_not_running.
      eapply stop_ok_not_running; eassumption.
  - intros env1 env2 c. repeat apply conj.
    + apply memory_start_active.
    + apply memory_stop_inactive.
    + apply memory_twice.
    + apply memory_twice.
  - intros env1 env2 c. repeat apply conj.
    + apply cpu_start_active.
    + apply cpu_stop_inactive.
    + apply cpu_twice.
    + apply cpu_twice.
  - intros env1 env2 tm c. repeat apply conj.
    + apply eventloop_start_active.
    + apply eventloop_stop_inactive.
    + apply eventloop_twice.
    + apply eventloop_twice.
Qed.

Lemma find_clearInterval h tm : Timers.find h (Timers.clearInterval h tm) = None.
Proof.
  unfold Timers.find, Timers.clearInterval; simpl.
  induction (Timers.armed tm) as [|e l IH]; simpl; [reflexivity|].
  destruct (Nat.eqb (Timers.e_handle e) h) eqn:E; simpl; [exact IH|].
  now rewrite E.
Qed.

Section AgentStopAndFlag.
Context {C : Type} `{Collector.Impl C}.

Implicit Types (a : Agent.t C) (tm : Timers.t) (env : Platform).

(** The [stop()] of a running Agent calls [stop()] on its collectors,
    whatever the outcome. *)
Lemma stop_running_collectors env tm a :
  Agent.isRunning a = true ->
  Agent.collectors (snd (fst (Agent.stop env tm a)))
  = fst (Agent.for_each (Collector.stop env) (Agent.collectors a)).
Proof.
  intros Hrun. unfold Agent.stop. rewrite Hrun; simpl.
  destruct (Agent.for_each _ _) as [cs [u|e0]]; reflexivity.
Qed.

(** C9. Stop is not atomic on failure: in every reachable state, when the
    [stop()] of a registered collector throws during the [stop()] of a
    running Agent (the collectors before it having stopped), the caller
    receives a new error whose message is "Stop failed"; the timer of the
    collection cycle is already cancelled: the handle of
    [collectionInterval] is not armed and no timer of the cycle is; the
    collectors registered after the failing one have not been called; the
    running flag is still true, so that a later [stop()] calls [stop()] on
    the collectors again and, when they all return, marks the Agent not
    running. *)
Theorem stop_not_atomic env tm a pre name c post e0 :
  Agent.reachable tm a ->
  Agent.isRunning a = true ->
  Agent.collectors a = pre ++ (name, c) :: post ->
  Forall (Agent.succeeds (Collector.stop env)) pre ->
  snd (Collector.stop env c) = Throw e0 ->
  exists tm' a',
    Agent.stop env tm a = (tm', a', Throw (mkError "Stop failed")) /\
    (forall h, Agent.collectionInterval a = Some h ->
               Timers.find h tm' = None) /\
    Timers.agent_timers tm' = [] /\
    Agent.collectors a'
      = Agent.called_on (Collector.stop env) (pre ++ [(name, c)]) ++ post /\
    Agent.isRunning a' = true /\
    (forall env2,
        Agent.collectors (snd (fst (Agent.stop env2 tm' a')))
        = fst (Agent.for_each (Collector.stop env2) (Agent.collectors a'))) /\
    (forall env2,
        Forall (Agent.succeeds (Collector.stop env2)) (Agent.collectors a') ->
        exists tm2 a2,
          Agent.stop env2 tm' a' = (tm2, a2, Ok tt) /\
          Agent.collectors a2
            = Agent.called_on (Collector.stop env2) (Agent.collectors a') /\
          Agent.isRunning a2 = false).
Proof.
  intros Hreach Hrun Hcs Hpre Hc.
  pose proof (reachable_timer_inv _ _ Hreach) as Hinv.
  eexists _, _. split; [eapply stop_throws; eassumption|].
  repeat apply conj; try reflexivity.
  - intros h Hh. rewrite Hh. apply find_clearInterval.
  - now apply agent_timers_after_clear.
  - intros env2. now apply stop_running_collectors.
  - intros env2 Hall. eexists _, _.
    split; [apply stop_succeeds; [reflexivity | exact Hall]|].
    split; reflexivity.
Qed.

(** C10. The [enabled] flag is ignored: replacing the value of [enabled]
    in the Agent's configuration changes nothing but that value in the
    outcome of the constructor, of [start], [stop], [registerCollector]
    and of the collection cycle; and with [enabled] false, [start()] on an
    Agent that is not running and whose collectors all start still calls
    [start()] on every collector, sets the running flag and arms the timer
    of the collection cycle at [sampleInterval]: when that timer fires, a
    collection cycle runs. *)
Theorem enabled_ignored b env tm a name c :
  (forall options e,
     Agent.new (C := C) (Config.with_o_enabled e options)
     = match Agent.new options with
       | Ok a0 => Ok (Agent.with_enabled (Config.nullish e true) a0)
       | Throw err => Throw err
       end) /\
  Agent.start env tm (Agent.with_enabled b a)
    = (fst (fst (Agent.start env tm a)),
       Agent.with_enabled b (snd (fst (Agent.start env tm a))),
       snd (Agent.start env tm a)) /\
  Agent.stop env tm (Agent.with_enabled b a)
    = (fst (fst (Agent.stop env tm a)),
       Agent.with_enabled b (snd (fst (Agent.stop env tm a))),
       snd (Agent.stop env tm a)) /\
  Agent.registerCollector name c (Agent.with_enabled b a)
    = (Agent.with_enabled b (fst (Agent.registerCollector name c a)),
       snd (Agent.registerCollector name c a)) /\
  Agent.collect env (Agent.with_enabled b a)
    = Agent.with_enabled b (Agent.collect env a) /\
  (Config.enabled (Agent.config a) = false ->
   Agent.isRunning a = false ->
   Forall (Agent.succeeds (Collector.start env)) (Agent.collectors a) ->
   exists tm' a',
     Agent.start env tm a = (tm', a', Ok tt) /\
     Agent.collectors a'
       = Agent.called_on (Collector.start env) (Agent.collectors a) /\
     Agent.isRunning a' = true /\
     Agent.collectionInterval a' = Some (Timers.next_handle tm) /\
     In (Timers.mkEntry (Timers.next_handle tm) Timers.CbAgentCollect
           (Config.sampleInterval (Agent.config a)))
        (Timers.agent_timers tm') /\
     (Timers.wf tm ->
      forall env',
        Agent.fire env' (Timers.next_handle tm) tm' a'
        = Agent.collect env' a')).
Proof.
  repeat apply conj.
  - intros options e.
    unfold Agent.new, Config.new, Config.validateConfig; simpl.
    repeat case_if; reflexivity.
  - destruct a as [cfg cs run h ev].
    unfold Agent.start, Agent.with_enabled; simpl.
    destruct run; [reflexivity|].
    destruct (Agent.for_each _ _) as [cs' [u|e0]]; reflexivity.
  - destruct a as [cfg cs run h ev].
    unfold Agent.stop, Agent.with_enabled; simpl.
    destruct run; [|reflexivity]; simpl.
    destruct (Agent.for_each _ _) as [cs' [u|e0]]; reflexivity.
  - destruct a as [cfg cs run h ev].
    unfold Agent.registerCollector, Agent.with_enabled; simpl.
    destruct (Agent.has _ _); reflexivity.
  - destruct a as [cfg cs run h ev].
    unfold Agent.collect, Agent.with_enabled; simpl.
    destruct (Agent.gather _ _ _) as [cs' [ms|e0]]; reflexivity.
  - intros _ Hrun Hall. eexists _, _.
    split; [apply start_succeeds; assumption|].
    repeat apply conj; try reflexivity.
    + rewrite agent_timers_setInterval_agent.
      apply in_or_app. right. now left.
    + intros Hwf env'. unfold Agent.fire.
      now rewrite find_setInterval.
Qed.

End AgentStopAndFlag.

(** ** MetricsStream *)


Lemma immutable_copies_length metrics st :
  length (snd (MetricsStream.immutable_copies metrics st)) = length metrics.
Proof.
  revert st. induction metrics as [|metric rest IH]; intros st; simpl;
    [reflexivity|].
  specialize (IH (st ++ [Store.mkObj (Store.fields (Store.get st metric)) true])).
  destruct (MetricsStream.immutable_copies rest _) as [st2 copies].
  simpl in *. now rewrite IH.
Qed.

Lemma flush_nonempty s :
  MetricsStream.buffer s <> [] ->
  MetricsStream.flush s
  = MetricsStream.mk (MetricsStream.config s) []
      (MetricsStream.emitted s ++ [MetricsStream.buffer s]).
Proof.
  unfold MetricsStream.flush.
  destruct (MetricsStream.buffer s); [congruence | reflexivity].
Qed.

Lemma flush_empty s :
  MetricsStream.buffer s = [] -> MetricsStream.flush s = s.
Proof. unfold MetricsStream.flush. now intros ->. Qed.

(** The two outcomes of [push], by the length the buffer reaches. *)
Lemma push_reaching metrics st s :
  0 < Config.metricsBufferSize (MetricsStream.config s) ->
  Config.metricsBufferSize (MetricsStream.config s)
    <= Z.of_nat (length (MetricsStream.buffer s) + length metrics) ->
  MetricsStream.push metrics st s
  = (fst (MetricsStream.immutable_copies metrics st),
     MetricsStream.mk (MetricsStream.config s) []
       (MetricsStream.emitted s
        ++ [MetricsStream.buffer s
            ++ snd (MetricsStream.immutable_copies metrics st)])).
Proof.
  intros Hpos Hreach. unfold MetricsStream.push.
  pose proof (immutable_copies_length metrics st) as Hlen.
  destruct (MetricsStream.immutable_copies metrics st) as [st' copies].
  simpl in *. rewrite length_app, Hlen.
  destruct (Z.geb_spec
              (Z.of_nat (length (MetricsStream.buffer s) + length metrics))
              (Config.metricsBufferSize (MetricsStream.config s))); [|lia].
  rewrite flush_nonempty; [reflexivity|]. simpl.
  intros Hnil. apply (f_equal (@length _)) in Hnil.
  rewrite length_app, Hlen in Hnil. simpl in Hnil. lia.
Qed.

Lemma push_below metrics st s :
  Z.of_nat (length (MetricsStream.buffer s) + length metrics)
    < Config.metricsBufferSize (MetricsStream.config s) ->
  MetricsStream.push metrics st s
  = (fst (MetricsStream.immutable_copies metrics st),
     MetricsStream.mk (MetricsStream.config s)
       (MetricsStream.buffer s
        ++ snd (MetricsStream.immutable_copies metrics st))
       (MetricsStream.emitted s)).
Proof.
  intros Hbelow. unfold MetricsStream.push.
  pose proof (immutable_copies_length metrics st) as Hlen.
  destruct (MetricsStream.immutable_copies metrics st) as [st' copies].
  simpl in *. rewrite length_app, Hlen.
  destruct (Z.geb_spec
              (Z.of_nat (length (MetricsStream.buffer s) + length metrics))
              (Config.metricsBufferSize (MetricsStream.config s))); [lia|].
  reflexivity.
Qed.

Lemma push_config metrics st s :
  MetricsStream.config (snd (MetricsStream.push metrics st s))
  = MetricsStream.config s.
Proof.
  unfold MetricsStream.push, MetricsStream.flush.
  destruct (MetricsStream.immutable_copies metrics st) as [st' copies]; simpl.
  destruct (_ >=? _); simpl; [|reflexivity].
  destruct (0 <? _)%nat; reflexivity.
Qed.

Lemma push_length metrics st s :
  0 < Config.metricsBufferSize (MetricsStream.config s) ->
  Z.of_nat (length (MetricsStream.buffer (snd (MetricsStream.push metrics st s))))
  < Config.metricsBufferSize (MetricsStream.config s).
Proof.
  intros Hpos.
  destruct (Z_lt_le_dec
              (Z.of_nat (length (MetricsStream.buffer s) + length metrics))
              (Config.metricsBufferSize (MetricsStream.config s)))
    as [Hbelow|Hreach].
  - rewrite push_below by assumption. simpl.
    now rewrite length_app, immutable_copies_length.
  - rewrite push_reaching by assumption. simpl. exact Hpos.
Qed.

Lemma push_all_length batches st s :
  0 < Config.metricsBufferSize (MetricsStream.config s) ->
  batches <> [] ->
  Z.of_nat
    (length (MetricsStream.buffer (snd (MetricsStream.push_all batches st s))))
  < Config.metricsBufferSize (MetricsStream.config s).
Proof.
  revert st s. induction batches as [|metrics rest IH]; intros st s Hpos Hne;
    [congruence|].
  simpl.
  pose proof (push_length metrics st s Hpos) as Hlen.
  pose proof (push_config metrics st s) as Hcfg.
  destruct (MetricsStream.push metrics st s) as [st' s']; simpl in *.
  destruct rest as [|next rest'].
  - simpl. exact Hlen.
  - rewrite <- Hcfg. apply IH; [rewrite Hcfg; exact Hpos | discriminate].
Qed.

(** Events already emitted stay as they are: every operation only appends
    to the events. *)
Lemma emitted_append_only metrics st s :
  (exists more,
      MetricsStream.emitted (snd (MetricsStream.push metrics st s))
      = MetricsStream.emitted s ++ more) /\
  (exists more,
      MetricsStream.emitted (MetricsStream.flush s)
      = MetricsStream.emitted s ++ more) /\
  MetricsStream.emitted (MetricsStream.clear s) = MetricsStream.emitted s.
Proof.
  repeat apply conj.
  - unfold MetricsStream.push, MetricsStream.flush.
    destruct (MetricsStream.immutable_copies metrics st) as [st' copies].
    repeat case_if; simpl;
      solve [eauto | exists []; now rewrite app_nil_r].
  - unfold MetricsStream.flush.
    case_if; simpl; solve [eauto | exists []; now rewrite app_nil_r].
  - reflexivity.
Qed.

(** C4. Buffer capacity with auto-flush: on a stream of capacity C > 0,
    after a [push] call the buffer is shorter than C, and so it is after
    every non-empty sequence of [push] calls; a [push] during which the
    buffer reaches or exceeds C emits exactly one ['data'] event, carrying
    the whole buffer in insertion order, and leaves the buffer empty; a
    [push] that stays below C emits nothing and appends the copies. *)
Theorem push_capacity_invariant metrics st s :
  0 < Config.metricsBufferSize (MetricsStream.config s) ->
  Z.of_nat (length (MetricsStream.buffer (snd (MetricsStream.push metrics st s))))
    < Config.metricsBufferSize (MetricsStream.config s) /\
  (forall batches, batches <> [] ->
     Z.of_nat
       (length (MetricsStream.buffer
                  (snd (MetricsStream.push_all batches st s))))
     < Config.metricsBufferSize (MetricsStream.config s)) /\
  (Config.metricsBufferSize (MetricsStream.config s)
     <= Z.of_nat (length (MetricsStream.buffer s) + length metrics) ->
   MetricsStream.emitted (snd (MetricsStream.push metrics st s))
   = MetricsStream.emitted s
     ++ [MetricsStream.buffer s
         ++ snd (MetricsStream.immutable_copies metrics st)] /\
   MetricsStream.buffer (snd (MetricsStream.push metrics st s)) = []) /\
  (Z.of_nat (length (MetricsStream.buffer s) + length metrics)
     < Config.metricsBufferSize (MetricsStream.config s) ->
   MetricsStream.emitted (snd (MetricsStream.push metrics st s))
   = MetricsStream.emitted s /\
   MetricsStream.buffer (snd (MetricsStream.push metrics st s))
   = MetricsStream.buffer s
     ++ snd (MetricsStream.immutable_copies metrics st)).
Proof.
  intros Hpos. repeat apply conj.
  - now apply push_length.
  - intros batches Hne. now apply push_all_length.
  - intros Hreach. rewrite push_reaching by assumption. now split.
  - intros Hbelow. rewrite push_below by assumption. now split.
Qed.

(** [push] only appends frozen objects to the store, one per metric, and
    the copies are the references of these objects, in order. *)
Lemma immutable_copies_spec metrics st :
  exists objs,
    fst (MetricsStream.immutable_copies metrics st) = st ++ objs /\
    length objs = length metrics /\
    Forall (fun o => Store.frozen o = true) objs /\
    snd (MetricsStream.immutable_copies metrics st)
    = seq (length st) (length metrics).
Proof.
  revert st. induction metrics as [|metric rest IH]; intros st; simpl.
  - exists []. now rewrite app_nil_r.
  - set (copy := Store.mkObj (Store.fields (Store.get st metric)) true).
    destruct (IH (st ++ [copy])) as (objs & Hst & Hlen & Hfrozen & Hrefs).
    destruct (MetricsStream.immutable_copies rest (st ++ [copy]))
      as [st2 copies].
    simpl in *. exists (copy :: objs). repeat split.
    + now rewrite Hst, <- app_assoc.
    + simpl. now rewrite Hlen.
    + now constructor.
    + rewrite Hrefs, length_app. simpl.
      now replace (length st + 1)%nat with (S (length st)) by lia.
Qed.

Lemma immutable_copy_one metric st :
  MetricsStream.immutable_copies [metric] st
  = (st ++ [Store.mkObj (Store.fields (Store.get st metric)) true],
     [length st]).
Proof. reflexivity. Qed.

Lemma get_alloc o st : Store.get (st ++ [o]) (length st) = o.
Proof.
  unfold Store.get.
  now rewrite lookup_app_r, Nat.sub_diag by reflexivity.
Qed.

Lemma frozen_refs_extend st objs refs :
  MetricsStream.frozen_refs st refs ->
  MetricsStream.frozen_refs (st ++ objs) refs.
Proof.
  unfold MetricsStream.frozen_refs. apply List.Forall_impl.
  intros r (o & Hr & Hf). exists o. split; [|exact Hf].
  rewrite lookup_app_l; [exact Hr|]. now apply lookup_lt_Some in Hr.
Qed.

Lemma frozen_refs_new st objs :
  Forall (fun o => Store.frozen o = true) objs ->
  MetricsStream.frozen_refs (st ++ objs) (seq (length st) (length objs)).
Proof.
  intros Hfrozen. unfold MetricsStream.frozen_refs.
  apply List.Forall_forall. intros r Hin. apply in_seq in Hin.
  destruct (objs !! (r - length st)%nat) as [o|] eqn:Ho.
  - exists o. split.
    + rewrite lookup_app_r by lia. exact Ho.
    + rewrite List.Forall_forall in Hfrozen. apply Hfrozen.
      apply list_elem_of_In. eapply list_elem_of_lookup_2. exact Ho.
  - apply lookup_ge_None in Ho. lia.
Qed.

(** The buffer holds frozen copies only: kept by every operation. *)
Lemma frozen_refs_push metrics st s :
  MetricsStream.frozen_refs st (MetricsStream.buffer s) ->
  MetricsStream.frozen_refs (fst (MetricsStream.push metrics st s))
    (MetricsStream.buffer s
     ++ snd (MetricsStream.immutable_copies metrics st)) /\
  MetricsStream.frozen_refs (fst (MetricsStream.push metrics st s))
    (MetricsStream.buffer (snd (MetricsStream.push metrics st s))).
Proof.
  intros Hbuf.
  destruct (immutable_copies_spec metrics st)
    as (objs & Hst & Hlen & Hfrozen & Hrefs).
  assert (Hall : MetricsStream.frozen_refs (st ++ objs)
                   (MetricsStream.buffer s ++ seq (length st) (length objs))).
  { apply Forall_app. split.
    - now apply frozen_refs_extend.
    - now apply frozen_refs_new. }
  unfold MetricsStream.push, MetricsStream.flush.
  destruct (MetricsStream.immutable_copies metrics st) as [st' copies].
  simpl in *. subst st' copies. rewrite <- Hlen.
  repeat case_if; simpl; (split; [exact Hall|]);
    solve [exact Hall | constructor].
Qed.

(** A write to a frozen object is rejected and changes nothing. *)
Lemma assign_frozen st r o k v :
  st !! r = Some o -> Store.frozen o = true ->
  Store.assign r k v st = (st, Throw (mkError "TypeError")).
Proof. intros Hr Hf. unfold Store.assign. now rewrite Hr, Hf. Qed.

(** A write to the properties of an object changes no other object. *)
Lemma assign_other st r k v r' :
  r' <> r -> Store.get (fst (Store.assign r k v st)) r' = Store.get st r'.
Proof.
  intros Hne. unfold Store.assign.
  destruct (st !! r) as [o|] eqn:Hr; [|reflexivity].
  destruct (Store.frozen o); [reflexivity|]. simpl.
  unfold Store.get. rewrite list_lookup_insert_ne by congruence. reflexivity.
Qed.

Lemma push_store metrics st s :
  fst (MetricsStream.push metrics st s)
  = fst (MetricsStream.immutable_copies metrics st).
Proof.
  unfold MetricsStream.push.
  destruct (MetricsStream.immutable_copies metrics st) as [st' copies].
  now case_if.
Qed.

(** The copy made by [push] is a frozen object with the properties the
    metric has at the call, and a later write to a property of the metric
    does not change the copy. *)
Lemma push_copy_own_properties st s metric k v :
  (metric < length st)%nat ->
  Store.get (fst (MetricsStream.push [metric] st s)) (length st)
  = Store.mkObj (Store.fields (Store.get st metric)) true /\
  Store.get
    (fst (Store.assign metric k v (fst (MetricsStream.push [metric] st s))))
    (length st)
  = Store.get (fst (MetricsStream.push [metric] st s)) (length st).
Proof.
  intros Hvalid. rewrite push_store, immutable_copy_one; simpl. split.
  - apply get_alloc.
  - apply assign_other. lia.
Qed.

(** C5, at the failing input.  A metric [m] with [metadata: { unit:
    'bytes' }] is pushed and flushed on a stream of the default capacity;
    one ['data'] event carries the copy.  Then [m.metadata.unit =
    'kilobytes'] is executed: the write succeeds, and the metadata read
    through the metric of the emitted event changes from 'bytes' to
    'kilobytes', since [{ ...metric }] copies the reference to the
    metadata object and [Object.freeze] freezes the copy only. *)
Theorem push_copy_shares_metadata :
  let s0 := MetricsStream.new Fixtures.config1000 in
  let st1 := fst (MetricsStream.push [Fixtures.m] Fixtures.store1 s0) in
  let s2 :=
    MetricsStream.flush
      (snd (MetricsStream.push [Fixtures.m] Fixtures.store1 s0)) in
  let write :=
    Store.assign_nested Fixtures.m "metadata" "unit"
      (Store.VStr "kilobytes") st1 in
  let seen_with (unit : string) :=
    [[ ("name", Store.SeenVal (Store.VStr "test.metric"));
       ("value", Store.SeenVal (Store.VNum (inject_Z 100)));
       ("timestamp",
        Store.SeenVal (Store.VNum (inject_Z (now Fixtures.env0))));
       ("type", Store.SeenVal (Store.VStr "memory"));
       ("metadata", Store.SeenObj [("unit", Store.VStr unit)]) ]] in
  MetricsStream.emitted s2 = [[2%nat]] /\
  snd write = Ok tt /\
  MetricsStream.seen st1 [2%nat] = seen_with "bytes" /\
  MetricsStream.seen (fst write) [2%nat] = seen_with "kilobytes".
Proof. cbv zeta. repeat apply conj; reflexivity. Qed.

(** Every call on a stream appends to the store and to the events
    emitted, whatever the state of the stream. *)
Lemma stream_step_grows op st s :
  (exists objs, fst (Runs.stream_step op st s) = st ++ objs) /\
  (exists payloads,
      MetricsStream.emitted (snd (Runs.stream_step op st s))
      = MetricsStream.emitted s ++ payloads).
Proof.
  destruct (emitted_append_only [] st s) as (_ & Hflush & Hclear).
  destruct op as [metrics| |]; simpl.
  - split.
    + rewrite push_store.
      destruct (immutable_copies_spec metrics st) as (objs & Hst & _).
      now exists objs.
    + apply (emitted_append_only metrics st s).
  - split; [exists []; now rewrite app_nil_r | exact Hflush].
  - split; [exists []; now rewrite app_nil_r|].
    exists []. now rewrite app_nil_r.
Qed.

Lemma stream_run_grows ops st s :
  (exists objs, fst (Runs.stream_run ops st s) = st ++ objs) /\
  (exists payloads,
      MetricsStream.emitted (snd (Runs.stream_run ops st s))
      = MetricsStream.emitted s ++ payloads).
Proof.
  revert st s. induction ops as [|op rest IH]; intros st s; simpl.
  - split; exists []; now rewrite app_nil_r.
  - destruct (stream_step_grows op st s) as ((objs1 & Hst1) & (evs1 & Hev1)).
    destruct (Runs.stream_step op st s) as [st1 s1]. simpl in *.
    destruct (IH st1 s1) as ((objs2 & Hst2) & (evs2 & Hev2)).
    split.
    + exists (objs1 ++ objs2). now rewrite Hst2, Hst1, <- app_assoc.
    + exists (evs1 ++ evs2). now rewrite Hev2, Hev1, <- app_assoc.
Qed.

(** The buffer of a stream holds frozen objects only, from the constructor
    on: [push] is the only method that adds to it. *)
Lemma stream_step_frozen op st s :
  MetricsStream.frozen_refs st (MetricsStream.buffer s) ->
  MetricsStream.frozen_refs (fst (Runs.stream_step op st s))
    (MetricsStream.buffer (snd (Runs.stream_step op st s))).
Proof.
  intros Hbuf. destruct op as [metrics| |]; simpl.
  - apply (frozen_refs_push metrics st s Hbuf).
  - unfold MetricsStream.flush. case_if; [constructor | exact Hbuf].
  - constructor.
Qed.

Lemma stream_run_frozen ops st s :
  MetricsStream.frozen_refs st (MetricsStream.buffer s) ->
  MetricsStream.frozen_refs (fst (Runs.stream_run ops st s))
    (MetricsStream.buffer (snd (Runs.stream_run ops st s))).
Proof.
  revert st s. induction ops as [|op rest IH]; intros st s Hbuf; simpl.
  - exact Hbuf.
  - pose proof (stream_step_frozen op st s Hbuf) as Hstep.
    destruct (Runs.stream_step op st s) as [st1 s1]. now apply IH.
Qed.

(** Pushing one metric and then flushing has emitted one ['data'] event with
    the buffer and the copy of the metric, whether the push or the flush
    emitted it. *)
Lemma push_one_then_flush metric st s :
  MetricsStream.emitted
    (MetricsStream.flush (snd (MetricsStream.push [metric] st s)))
  = MetricsStream.emitted s ++ [MetricsStream.buffer s ++ [length st]].
Proof.
  unfold MetricsStream.push. rewrite immutable_copy_one.
  assert (Hne : (0 <? length (MetricsStream.buffer s ++ [length st]))%nat
                = true).
  { apply Nat.ltb_lt. rewrite length_app. simpl. lia. }
  case_if; unfold MetricsStream.flush; simpl; rewrite Hne; reflexivity.
Qed.

(** C7, as the code has it.  Flush versus clear: [flush()] on a non-empty
    buffer emits exactly one ['data'] event carrying the whole buffer in
    insertion order and empties the buffer.  The payload is a snapshot:
    on a stream as its constructor and its methods leave it, whatever
    calls follow the [flush()], the event stays in the log as it was
    emitted, and every metric of the payload is a frozen object, a write to
    one of its own properties is rejected and changes nothing (what a
    metric refers to is not part of this statement).  [flush()] on an
    empty buffer does nothing.  [clear()] empties the buffer and emits
    nothing, and a [flush()] after it emits nothing.  Pushing one metric
    and then [flush()] has emitted one ['data'] event, which carries the
    buffer with the copy of that metric last (the copy alone on an empty
    buffer), at every capacity.  Pushing one metric, then [clear()], then
    [flush()] emits nothing when the push leaves the buffer below the
    capacity; when the push reaches the capacity, the push itself emits
    that event and [clear()] and [flush()] add none. *)
Theorem flush_versus_clear st s metric :
  (MetricsStream.buffer s <> [] ->
     MetricsStream.emitted (MetricsStream.flush s)
     = MetricsStream.emitted s ++ [MetricsStream.buffer s] /\
     MetricsStream.buffer (MetricsStream.flush s) = []) /\
  (forall ops cfg st0,
     Runs.stream_run ops st0 (MetricsStream.new cfg) = (st, s) ->
     forall later,
       (exists payloads,
           MetricsStream.emitted
             (snd (Runs.stream_run later st (MetricsStream.flush s)))
           = MetricsStream.emitted (MetricsStream.flush s) ++ payloads) /\
       forall r k v, In r (MetricsStream.buffer s) ->
         Store.assign r k v
           (fst (Runs.stream_run later st (MetricsStream.flush s)))
         = (fst (Runs.stream_run later st (MetricsStream.flush s)),
            Throw (mkError "TypeError"))) /\
  (MetricsStream.buffer s = [] -> MetricsStream.flush s = s) /\
  MetricsStream.emitted (MetricsStream.clear s) = MetricsStream.emitted s /\
  MetricsStream.buffer (MetricsStream.clear s) = [] /\
  MetricsStream.flush (MetricsStream.clear s) = MetricsStream.clear s /\
  MetricsStream.emitted
    (MetricsStream.flush (snd (MetricsStream.push [metric] st s)))
  = MetricsStream.emitted s ++ [MetricsStream.buffer s ++ [length st]] /\
  Store.get (fst (MetricsStream.push [metric] st s)) (length st)
  = Store.mkObj (Store.fields (Store.get st metric)) true /\
  (Z.of_nat (length (MetricsStream.buffer s)) + 1
     < Config.metricsBufferSize (MetricsStream.config s) ->
     MetricsStream.emitted (snd (MetricsStream.push [metric] st s))
     = MetricsStream.emitted s /\
     MetricsStream.emitted
       (MetricsStream.flush
          (MetricsStream.clear (snd (MetricsStream.push [metric] st s))))
     = MetricsStream.emitted s) /\
  (Config.metricsBufferSize (MetricsStream.config s)
     <= Z.of_nat (length (MetricsStream.buffer s)) + 1 ->
     MetricsStream.emitted (snd (MetricsStream.push [metric] st s))
     = MetricsStream.emitted s ++ [MetricsStream.buffer s ++ [length st]] /\
     MetricsStream.emitted
       (MetricsStream.flush
          (MetricsStream.clear (snd (MetricsStream.push [metric] st s))))
     = MetricsStream.emitted s ++ [MetricsStream.buffer s ++ [length st]]).
Proof.
  repeat apply conj; try reflexivity.
  - intros Hne. now rewrite flush_nonempty.
  - intros ops cfg st0 Hrun later.
    assert (Hfrozen : MetricsStream.frozen_refs st (MetricsStream.buffer s)).
    { pose proof (stream_run_frozen ops st0 (MetricsStream.new cfg)) as Hf.
      rewrite Hrun in Hf. apply Hf. constructor. }
    destruct (stream_run_grows later st (MetricsStream.flush s))
      as ((objs & Hst) & Hev).
    split; [exact Hev|].
    intros r k v Hin. rewrite Hst.
    apply (frozen_refs_extend st objs) in Hfrozen.
    unfold MetricsStream.frozen_refs in Hfrozen.
    rewrite List.Forall_forall in Hfrozen.
    destruct (Hfrozen r Hin) as (o & Hr & Hf).
    now apply (assign_frozen _ r o).
  - apply flush_empty.
  - apply push_one_then_flush.
  - rewrite push_store, immutable_copy_one. apply get_alloc.
  - intros Hcap.
    rewrite push_below by (simpl; lia).
    rewrite immutable_copy_one. simpl. split; reflexivity.
  - intros Hcap. pose proof (push_one_then_flush metric st s) as Hflush.
    revert Hflush. unfold MetricsStream.push. rewrite immutable_copy_one.
    assert (Hge : (Z.of_nat (length (MetricsStream.buffer s ++ [length st]))
                   >=? Config.metricsBufferSize (MetricsStream.config s))
                  = true).
    { rewrite length_app. simpl. apply Z.geb_le. lia. }
    cbn [MetricsStream.buffer MetricsStream.config]. rewrite Hge.
    assert (Hne : (0 <? length (MetricsStream.buffer s ++ [length st]))%nat
                  = true).
    { apply Nat.ltb_lt. rewrite length_app. simpl. lia. }
    unfold MetricsStream.flush. simpl. rewrite Hne. simpl.
    intros _. split; reflexivity.
Qed.

(** C7 as stated fails in two places.  On a stream of capacity one the push
    of one metric reaches the capacity and emits the ['data'] event itself:
    push, then [clear()], then [flush()] have emitted one event, not none,
    and after the push a [flush()] emits nothing.  And the payload of a
    [flush()] is not immutable throughout: after [m] was pushed and
    flushed on a stream of the default capacity, [m.metadata.unit =
    'kilobytes'] succeeds and the metric of the payload reads differently
    from before. *)
Lemma clear_after_auto_flush :
  let s1 :=
    snd (MetricsStream.push [Fixtures.m] Fixtures.store1
           (MetricsStream.new Fixtures.config1)) in
  let pushed :=
    MetricsStream.push [Fixtures.m] Fixtures.store1
      (MetricsStream.new Fixtures.config1000) in
  let write :=
    Store.assign_nested Fixtures.m "metadata" "unit"
      (Store.VStr "kilobytes") (fst pushed) in
  MetricsStream.emitted s1 = [[2%nat]] /\
  MetricsStream.emitted (MetricsStream.flush (MetricsStream.clear s1))
  = [[2%nat]] /\
  MetricsStream.emitted (MetricsStream.flush (MetricsStream.clear s1))
  <> MetricsStream.emitted (MetricsStream.new Fixtures.config1) /\
  MetricsStream.emitted (MetricsStream.flush s1) = MetricsStream.emitted s1 /\
  MetricsStream.emitted (MetricsStream.flush (snd pushed)) = [[2%nat]] /\
  snd write = Ok tt /\
  MetricsStream.seen (fst write) [2%nat]
  <> MetricsStream.seen (fst pushed) [2%nat].
Proof. cbv zeta. repeat apply conj; try reflexivity; discriminate. Qed.

(** C6 as stated fails: the collector throws "boom", the caller of
    [Agent.start()] receives "Start failed". *)
Lemma start_error_not_propagated :
  snd (Collector.start Fixtures.env0 Fixtures.failingStart)
  = Throw Fixtures.boom /\
  snd (Agent.start Fixtures.env0 Timers.empty
         (Fixtures.agent_of false [("failing", Fixtures.failingStart)]))
  = Throw (mkError "Start failed") /\
  snd (Agent.start Fixtures.env0 Timers.empty
         (Fixtures.agent_of false [("failing", Fixtures.failingStart)]))
  <> Throw Fixtures.boom.
Proof. repeat split; try reflexivity. discriminate. Qed.

(** ** The scenarios of the test suites, run on the definitions *)

(** P3: A, B, C return [a1,a2], [b1], [c1,c2,c3]. *)
Example batch_of_abc :
  Agent.emitted
    (Agent.collect Fixtures.env0 (Fixtures.running_agent Fixtures.abc))
  = [Agent.EvMetrics [Fixtures.a1; Fixtures.a2; Fixtures.b1;
                      Fixtures.c1; Fixtures.c2; Fixtures.c3]].
Proof. reflexivity. Qed.

(** P4: B fails; the next cycle, under the same timer, fails again in the
    same way: two ['error'] events, no ['metrics'] event. *)
Example two_failing_cycles :
  Agent.emitted
    (Agent.fire Fixtures.env0 0%nat Fixtures.running_timers
       (Agent.fire Fixtures.env0 0%nat Fixtures.running_timers
          (Fixtures.running_agent (Fixtures.around Fixtures.failingCollect))))
  = [Agent.EvError Fixtures.boom; Agent.EvError Fixtures.boom].
Proof. reflexivity. Qed.

(** P4: only [collect()] was called, on A and on B; C was not called. *)
Example calls_of_failing_cycle :
  map (fun nc => Stub.calls (snd nc))
    (Agent.collectors
       (Agent.collect Fixtures.env0
          (Fixtures.running_agent (Fixtures.around Fixtures.failingCollect))))
  = [[Stub.CCollect]; [Stub.CCollect]; []].
Proof. reflexivity. Qed.

(** P5: capacity 3, three pushes of one metric each. *)
Example auto_flush_at_three :
  let s0 := MetricsStream.new Fixtures.config3 in
  let r1 := MetricsStream.push [1%nat] Fixtures.store3 s0 in
  let r2 := MetricsStream.push [3%nat] (fst r1) (snd r1) in
  let r3 := MetricsStream.push [5%nat] (fst r2) (snd r2) in
  MetricsStream.emitted (snd r1) = [] /\
  MetricsStream.emitted (snd r2) = [] /\
  MetricsStream.emitted (snd r3) = [[6%nat; 7%nat; 8%nat]] /\
  MetricsStream.buffer (snd r3) = [] /\
  MetricsStream.seen (fst r3) [6%nat; 7%nat; 8%nat]
  = MetricsStream.seen Fixtures.store3 [1%nat; 3%nat; 5%nat].
Proof. cbv zeta. repeat apply conj; reflexivity. Qed.

(** MetricsStream.spec, "should emit immutable metric copies":
    [metric.value = 200] after the flush leaves the emitted value 100. *)
Example emitted_value_kept :
  let r := MetricsStream.push [Fixtures.m] Fixtures.store1
             (MetricsStream.new Fixtures.config1000) in
  let w := Store.assign Fixtures.m "value" (Store.VNum (inject_Z 200))
             (fst r) in
  snd w = Ok tt /\
  Store.read "value" (Store.fields (Store.get (fst w) Fixtures.m))
  = Store.VNum (inject_Z 200) /\
  Store.read "value" (Store.fields (Store.get (fst w) 2%nat))
  = Store.VNum (inject_Z 100).
Proof. cbv zeta. repeat apply conj; reflexivity. Qed.

(** Agent.spec, "should handle collector start failure": the collector
    throws "Start failed" and so does the Agent. *)
Example start_failure_of_the_tests :
  let failing := Stub.mk (Throw (mkError "Start failed")) (Ok tt) (Ok []) [] in
  let r := Agent.start Fixtures.env0 Timers.empty
             (Fixtures.agent_of false [("failing", failing)]) in
  snd r = Throw (mkError "Start failed") /\
  Agent.isRunning (snd (fst r)) = false.
Proof. cbv zeta. split; reflexivity. Qed.

(** A stop that fails at B, then a second [stop()]: A and B are asked
    again, B fails again and C has still not been asked. *)
Example calls_of_retried_stop :
  let r1 := Agent.stop Fixtures.env0 Fixtures.running_timers
              (Fixtures.running_agent (Fixtures.around Fixtures.failingStop)) in
  let r2 := Agent.stop Fixtures.env0 (fst (fst r1)) (snd (fst r1)) in
  map (fun nc => Stub.calls (snd nc)) (Agent.collectors (snd (fst r1)))
  = [[Stub.CStop]; [Stub.CStop]; []] /\
  map (fun nc => Stub.calls (snd nc)) (Agent.collectors (snd (fst r2)))
  = [[Stub.CStop; Stub.CStop]; [Stub.CStop; Stub.CStop]; []] /\
  Timers.armed (fst (fst r1)) = [] /\
  snd r2 = Throw (mkError "Stop failed").
Proof. cbv zeta. repeat apply conj; reflexivity. Qed.

(** Config: [new Config({ sampleInterval: -1 })]. *)
Example config_rejects_negative_interval :
  Config.new (Config.mkSparkConfig (Some (-1)) None None None None None None)
  = Throw (mkError "sampleInterval must be greater than 0").
Proof. reflexivity. Qed.

(** Agent.spec: registering "x" twice. *)
Example duplicate_registration :
  snd (Agent.registerCollector "x" (Stub.returning [])
         (fst (Agent.registerCollector "x" (Stub.returning [])
                 (Fixtures.agent_of false []))))
  = Throw (mkError "Collector already exists").
Proof. reflexivity. Qed.

(** ** The theorems at concrete inputs *)

(** The Agents of the fixtures are reachable: constructed with
    [{ sampleInterval: 100 }], three collectors registered, then started. *)
Lemma around_reachable middle :
  Agent.reachable Timers.empty
    (Fixtures.agent_of false (Fixtures.around middle)).
Proof.
  change (Agent.reachable Timers.empty
            (fst (Agent.registerCollector "C"
                    (Stub.returning [Fixtures.c1; Fixtures.c2; Fixtures.c3])
               (fst (Agent.registerCollector "B" middle
                  (fst (Agent.registerCollector "A"
                          (Stub.returning [Fixtures.a1; Fixtures.a2])
                          (Fixtures.agent_of false [])))))))).
  repeat apply Agent.reach_registerCollector.
  apply (Agent.reach_new
           (Config.mkSparkConfig (Some 100) None None None None None None)).
  reflexivity.
Defined.

Lemma started_reachable middle :
  Agent.reachable
    (fst (fst (Agent.start Fixtures.env0 Timers.empty
                 (Fixtures.agent_of false (Fixtures.around middle)))))
    (Fixtures.started (Fixtures.around middle)).
Proof. apply Agent.reach_start, around_reachable. Defined.

Lemma start_all_or_nothing_witness :
  exists a' e,
    Agent.start Fixtures.env0 Timers.empty
      (Fixtures.agent_of false (Fixtures.around Fixtures.failingStart))
    = (Timers.empty, a', Throw e) /\
    Agent.isRunning a' = false /\
    Timers.agent_timers Timers.empty = [] /\
    forall env' h, Agent.fire env' h Timers.empty a' = a'.
Proof.
  apply (start_all_or_nothing Fixtures.env0 Timers.empty
           (Fixtures.agent_of false (Fixtures.around Fixtures.failingStart))).
  - apply around_reachable.
  - reflexivity.
  - apply Exists_cons_tl, Exists_cons_hd. reflexivity.
Defined.

Lemma start_error_is_start_failed_witness :
  snd (Agent.start Fixtures.env0 Timers.empty
         (Fixtures.agent_of false (Fixtures.around Fixtures.failingStart)))
  = Throw (mkError "Start failed") /\
  Agent.emitted
    (snd (fst (Agent.start Fixtures.env0 Timers.empty
                 (Fixtures.agent_of false
                    (Fixtures.around Fixtures.failingStart)))))
  = [].
Proof.
  apply (start_error_is_start_failed Fixtures.env0 Timers.empty
           (Fixtures.agent_of false (Fixtures.around Fixtures.failingStart))
           [("A", Stub.returning [Fixtures.a1; Fixtures.a2])]
           "B" Fixtures.failingStart
           [("C", Stub.returning [Fixtures.c1; Fixtures.c2; Fixtures.c3])]
           Fixtures.boom).
  - reflexivity.
  - reflexivity.
  - repeat constructor.
  - reflexivity.
Defined.

Lemma cycle_failure_isolation_witness :
  let p := Fixtures.heard (Fixtures.around Fixtures.failingCollect) in
  let p' := Process.tick Fixtures.env0 0%nat p in
  Agent.emitted (Process.agent p') = [Agent.EvError Fixtures.boom] /\
  Agent.isRunning (Process.agent p') = true /\
  Agent.collectors (Process.agent p')
    = Agent.collected_on Fixtures.env0
        [("A", Stub.returning [Fixtures.a1; Fixtures.a2]);
         ("B", Fixtures.failingCollect)]
      ++ [("C", Stub.returning [Fixtures.c1; Fixtures.c2; Fixtures.c3])] /\
  Process.uncaught p' = None /\
  exists ev,
    Agent.emitted (Process.agent (Process.tick Fixtures.env0 0%nat p'))
    = Agent.emitted (Process.agent p') ++ [ev].
Proof.
  cbv zeta.
  destruct (cycle_failure_isolation Fixtures.env0 0%nat
              (Timers.mkEntry 0%nat Timers.CbAgentCollect 100)
              (Fixtures.heard (Fixtures.around Fixtures.failingCollect))
              [("A", Stub.returning [Fixtures.a1; Fixtures.a2])]
              "B" Fixtures.failingCollect
              [("C", Stub.returning [Fixtures.c1; Fixtures.c2; Fixtures.c3])]
              Fixtures.boom)
    as (Hev & Hrun & _ & Hcs & _ & _ & Hheard & _).
  - reflexivity.
  - reflexivity.
  - reflexivity.
  - reflexivity.
  - constructor; [|constructor].
    exists [Fixtures.a1; Fixtures.a2]. reflexivity.
  - reflexivity.
  - destruct Hheard as (Hgoes & Hnext); [simpl; lia|].
    destruct (Hnext Fixtures.env0) as (ev & Hnext_ev & _).
    repeat apply conj.
    + exact Hev.
    + exact Hrun.
    + exact Hcs.
    + exact Hgoes.
    + exists ev. exact Hnext_ev.
Defined.

Lemma batch_ordering_witness :
  Agent.emitted
    (Agent.collect Fixtures.env0 (Fixtures.running_agent Fixtures.abc))
  = [Agent.EvMetrics [Fixtures.a1; Fixtures.a2; Fixtures.b1;
                      Fixtures.c1; Fixtures.c2; Fixtures.c3]] /\
  Agent.emitted (Agent.collect Fixtures.env0 (Fixtures.running_agent []))
  = [Agent.EvMetrics []] /\
  Agent.emitted
    (Agent.collect Fixtures.env0
       (Fixtures.running_agent
          [("A", Stub.returning []); ("B", Stub.returning [])]))
  = [Agent.EvMetrics []].
Proof.
  repeat apply conj.
  - apply (proj1 (batch_ordering Fixtures.env0
                    (Fixtures.running_agent Fixtures.abc))
             [[Fixtures.a1; Fixtures.a2]; [Fixtures.b1];
              [Fixtures.c1; Fixtures.c2; Fixtures.c3]]).
    repeat constructor.
  - apply (proj1 (proj2 (batch_ordering Fixtures.env0
                           (Fixtures.running_agent [])))).
    reflexivity.
  - apply (proj2 (proj2 (batch_ordering Fixtures.env0
                           (Fixtures.running_agent
                              [("A", Stub.returning []);
                               ("B", Stub.returning [])])))).
    repeat constructor.
Defined.

Lemma push_capacity_invariant_witness :
  let r2 := MetricsStream.push_all [[1%nat]; [3%nat]] Fixtures.store3
              (MetricsStream.new Fixtures.config3) in
  Z.of_nat (length (MetricsStream.buffer
                      (snd (MetricsStream.push [5%nat] (fst r2) (snd r2)))))
  < 3 /\
  MetricsStream.emitted (snd (MetricsStream.push [5%nat] (fst r2) (snd r2)))
  = [[6%nat; 7%nat; 8%nat]] /\
  MetricsStream.buffer (snd (MetricsStream.push [5%nat] (fst r2) (snd r2)))
  = [].
Proof.
  cbv zeta.
  pose proof
    (push_capacity_invariant [5%nat]
       (fst (MetricsStream.push_all [[1%nat]; [3%nat]] Fixtures.store3
               (MetricsStream.new Fixtures.config3)))
       (snd (MetricsStream.push_all [[1%nat]; [3%nat]] Fixtures.store3
               (MetricsStream.new Fixtures.config3)))) as Hpush.
  destruct Hpush as (Hlen & _ & Hreach & _); [simpl; lia|].
  destruct Hreach as [Hemitted Hbuffer]; [simpl; lia|].
  repeat apply conj.
  - exact Hlen.
  - exact Hemitted.
  - exact Hbuffer.
Defined.

Lemma flush_versus_clear_witness :
  let s0 := MetricsStream.new Fixtures.config3 in
  MetricsStream.emitted
    (MetricsStream.flush
       (snd (MetricsStream.push [Fixtures.m] Fixtures.store1 s0)))
  = [[2%nat]] /\
  MetricsStream.emitted
    (MetricsStream.flush
       (MetricsStream.clear
          (snd (MetricsStream.push [Fixtures.m] Fixtures.store1 s0))))
  = [] /\
  (let pushed :=
     MetricsStream.push [Fixtures.m] Fixtures.store1
       (MetricsStream.new Fixtures.config3) in
   forall later k v,
     Store.assign 2%nat k v
       (fst (Runs.stream_run later (fst pushed)
               (MetricsStream.flush (snd pushed))))
     = (fst (Runs.stream_run later (fst pushed)
               (MetricsStream.flush (snd pushed))),
        Throw (mkError "TypeError"))).
Proof.
  cbv zeta. repeat apply conj.
  - destruct (flush_versus_clear Fixtures.store1
                (MetricsStream.new Fixtures.config3) Fixtures.m)
      as (_ & _ & _ & _ & _ & _ & Hflush & _).
    exact Hflush.
  - destruct (flush_versus_clear Fixtures.store1
                (MetricsStream.new Fixtures.config3) Fixtures.m)
      as (_ & _ & _ & _ & _ & _ & _ & _ & Hbelow & _).
    destruct Hbelow as (_ & Hclear); [simpl; lia|]. exact Hclear.
  - intros later k v.
    destruct (flush_versus_clear
                (fst (MetricsStream.push [Fixtures.m] Fixtures.store1
                        (MetricsStream.new Fixtures.config3)))
                (snd (MetricsStream.push [Fixtures.m] Fixtures.store1
                        (MetricsStream.new Fixtures.config3)))
                Fixtures.m)
      as (_ & Hsnapshot & _).
    destruct (Hsnapshot [Runs.Push [Fixtures.m]] Fixtures.config3
                Fixtures.store1 eq_refl later) as (_ & Hfrozen).
    apply Hfrozen. simpl. now left.
Defined.

Lemma lifecycle_idempotence_witness :
  let a := Fixtures.agent_of false Fixtures.abc in
  let started := Agent.start Fixtures.env0 Timers.empty a in
  Agent.start Fixtures.env0 (fst (fst started)) (snd (fst started))
  = (fst (fst started), snd (fst started), Ok tt) /\
  MemoryCollector.start Fixtures.env0
    (MemoryCollector.mk Fixtures.config100 [5; 7] true)
  = (MemoryCollector.mk Fixtures.config100 [5; 7] true, Ok tt) /\
  EventLoopCollector.stop Fixtures.env0 Fixtures.running_timers
    (EventLoopCollector.new Fixtures.env0 Fixtures.config100)
  = (Fixtures.running_timers,
     EventLoopCollector.new Fixtures.env0 Fixtures.config100, Ok tt).
Proof.
  cbv zeta.
  destruct lifecycle_idempotence as (Hagent & Hmemory & _ & Heventloop).
  repeat apply conj.
  - destruct (Hagent Stub.t _ Fixtures.env0 Fixtures.env0 Timers.empty
                (Fixtures.agent_of false Fixtures.abc))
      as (_ & _ & Hstart & _).
    apply Hstart. reflexivity.
  - destruct (Hmemory Fixtures.env0 Fixtures.env0
                (MemoryCollector.mk Fixtures.config100 [5; 7] true))
      as (Hstart & _).
    apply Hstart. reflexivity.
  - destruct (Heventloop Fixtures.env0 Fixtures.env0 Fixtures.running_timers
                (EventLoopCollector.new Fixtures.env0 Fixtures.config100))
      as (_ & Hstop & _).
    apply Hstop. reflexivity.
Defined.

Lemma stop_not_atomic_witness :
  exists tm' a',
    Agent.stop Fixtures.env0 Fixtures.running_timers
      (Fixtures.started (Fixtures.around Fixtures.failingStop))
    = (tm', a', Throw (mkError "Stop failed")) /\
    Timers.find 0%nat tm' = None /\
    Timers.agent_timers tm' = [] /\
    map (fun nc => Stub.calls (snd nc)) (Agent.collectors a')
    = [[Stub.CStart; Stub.CStop]; [Stub.CStart; Stub.CStop]; [Stub.CStart]] /\
    Agent.isRunning a' = true.
Proof.
  destruct (stop_not_atomic Fixtures.env0 Fixtures.running_timers
              (Fixtures.started (Fixtures.around Fixtures.failingStop))
              [("A", Stub.called Stub.CStart
                       (Stub.returning [Fixtures.a1; Fixtures.a2]))]
              "B" (Stub.called Stub.CStart Fixtures.failingStop)
              [("C", Stub.called Stub.CStart
                       (Stub.returning
                          [Fixtures.c1; Fixtures.c2; Fixtures.c3]))]
              Fixtures.boom)
    as (tm' & a' & Hstop & Hhandle & Htimers & Hcollectors & Hrunning & _ & _).
  - apply (started_reachable Fixtures.failingStop).
  - reflexivity.
  - reflexivity.
  - repeat constructor.
  - reflexivity.
  - exists tm', a'. repeat apply conj; auto.
    rewrite Hcollectors. reflexivity.
Defined.

Lemma enabled_ignored_witness :
  let disabled :=
    Agent.with_enabled false (Fixtures.agent_of false Fixtures.abc) in
  exists tm' a',
    Agent.start Fixtures.env0 Timers.empty disabled = (tm', a', Ok tt) /\
    Agent.isRunning a' = true /\
    In (Timers.mkEntry 0%nat Timers.CbAgentCollect 100)
       (Timers.agent_timers tm') /\
    Agent.emitted (Agent.fire Fixtures.env0 0%nat tm' a')
    = Agent.emitted (Agent.collect Fixtures.env0 a').
Proof.
  cbv zeta.
  destruct (enabled_ignored false Fixtures.env0 Timers.empty
              (Agent.with_enabled false
                 (Fixtures.agent_of false Fixtures.abc))
              "D" (Stub.returning []))
    as (_ & _ & _ & _ & _ & Hstart).
  destruct Hstart as (tm' & a' & Hok & _ & Hrunning & _ & Harmed & Hfire).
  - reflexivity.
  - reflexivity.
  - repeat constructor.
  - exists tm', a'. repeat apply conj; auto.
    exact (f_equal Agent.emitted (Hfire wf_empty Fixtures.env0)).
Defined.

(** * Further facts *)

(** ** Config: construction and validation *)

Lemma validate_ok_iff c :
  Config.validateConfig c = Ok tt <->
  0 < Config.sampleInterval c /\
  0 < Config.maxMemorySnapshots c /\
  0 < Config.cpuProfilingDuration c /\
  0 < Config.eventLoopThreshold c /\
  0 < Config.metricsBufferSize c.
Proof.
  unfold Config.validateConfig.
  destruct (Z.leb_spec (Config.sampleInterval c) 0);
    [split; [discriminate | lia]|].
  destruct (Z.leb_spec (Config.maxMemorySnapshots c) 0);
    [split; [discriminate | lia]|].
  destruct (Z.leb_spec (Config.cpuProfilingDuration c) 0);
    [split; [discriminate | lia]|].
  destruct (Z.leb_spec (Config.eventLoopThreshold c) 0);
    [split; [discriminate | lia]|].
  destruct (Z.leb_spec (Config.metricsBufferSize c) 0);
    [split; [discriminate | lia]|].
  split; [intros _; lia | reflexivity].
Qed.

Lemma config_new_validated options c :
  Config.new options = Ok c -> Config.validateConfig c = Ok tt.
Proof.
  unfold Config.new.
  set (built := Config.mk _ _ _ _ _ _ _).
  destruct (Config.validateConfig built) as [[]|e] eqn:Hv; [|discriminate].
  now intros [= <-].
Qed.

(** X1. The constructor of Config succeeds exactly when each of the five
    numeric settings, as given or else at its default (5000, 10, 500, 100,
    1000), is greater than 0; the configuration then holds every setting as
    given, or its default ([enabled] true, [debugMode] false). *)
Theorem config_new_ok_iff options c :
  Config.new options = Ok c <->
  c = Config.mk
        (Config.nullish (Config.o_sampleInterval options) 5000)
        (Config.nullish (Config.o_enabled options) true)
        (Config.nullish (Config.o_maxMemorySnapshots options) 10)
        (Config.nullish (Config.o_cpuProfilingDuration options) 500)
        (Config.nullish (Config.o_eventLoopThreshold options) 100)
        (Config.nullish (Config.o_metricsBufferSize options) 1000)
        (Config.nullish (Config.o_debugMode options) false) /\
  0 < Config.nullish (Config.o_sampleInterval options) 5000 /\
  0 < Config.nullish (Config.o_maxMemorySnapshots options) 10 /\
  0 < Config.nullish (Config.o_cpuProfilingDuration options) 500 /\
  0 < Config.nullish (Config.o_eventLoopThreshold options) 100 /\
  0 < Config.nullish (Config.o_metricsBufferSize options) 1000.
Proof.
  unfold Config.new.
  set (built := Config.mk _ _ _ _ _ _ _).
  pose proof (validate_ok_iff built) as Hv. simpl in Hv.
  destruct (Config.validateConfig built) as [[]|e].
  - split.
    + intros [= <-]. split; [reflexivity | now apply Hv].
    + intros [-> _]. reflexivity.
  - split; [discriminate|].
    intros [_ Hpos]. apply Hv in Hpos. discriminate.
Qed.

Lemma config_new_ok_iff_witness :
  Config.new
    (Config.mkSparkConfig (Some 1000) None (Some 20) None None None
       (Some true))
  = Ok (Config.mk 1000 true 20 500 100 1000 true).
Proof.
  apply (proj2 (config_new_ok_iff
                  (Config.mkSparkConfig (Some 1000) None (Some 20) None None
                     None (Some true))
                  (Config.mk 1000 true 20 500 100 1000 true))).
  simpl. repeat split; lia.
Defined.

(** X2. When a numeric setting is not greater than 0 the constructor of
    Config throws, and the error names the first such setting in the order
    sampleInterval, maxMemorySnapshots, cpuProfilingDuration,
    eventLoopThreshold, metricsBufferSize. *)
Theorem config_new_first_error options :
  let si := Config.nullish (Config.o_sampleInterval options) 5000 in
  let ms := Config.nullish (Config.o_maxMemorySnapshots options) 10 in
  let cd := Config.nullish (Config.o_cpuProfilingDuration options) 500 in
  let et := Config.nullish (Config.o_eventLoopThreshold options) 100 in
  let bs := Config.nullish (Config.o_metricsBufferSize options) 1000 in
  (si <= 0 ->
   Config.new options
   = Throw (mkError "sampleInterval must be greater than 0")) /\
  (0 < si -> ms <= 0 ->
   Config.new options
   = Throw (mkError "maxMemorySnapshots must be greater than 0")) /\
  (0 < si -> 0 < ms -> cd <= 0 ->
   Config.new options
   = Throw (mkError "cpuProfilingDuration must be greater than 0")) /\
  (0 < si -> 0 < ms -> 0 < cd -> et <= 0 ->
   Config.new options
   = Throw (mkError "eventLoopThreshold must be greater than 0")) /\
  (0 < si -> 0 < ms -> 0 < cd -> 0 < et -> bs <= 0 ->
   Config.new options
   = Throw (mkError "metricsBufferSize must be greater than 0")).
Proof.
  cbv zeta. unfold Config.new, Config.validateConfig; simpl.
  repeat apply conj; intros;
    repeat match goal with
           | |- context [?x <=? 0] => destruct (Z.leb_spec x 0); try lia
           end; reflexivity.
Qed.

Lemma config_new_first_error_witness :
  Config.new
    (Config.mkSparkConfig (Some 1000) None (Some 0) None None (Some (-1))
       None)
  = Throw (mkError "maxMemorySnapshots must be greater than 0").
Proof.
  apply (proj1 (proj2 (config_new_first_error
                         (Config.mkSparkConfig (Some 1000) None (Some 0) None
                            None (Some (-1)) None)))); simpl; lia.
Defined.

(** A validated configuration is rebuilt from its own fields as itself. *)
Lemma config_rebuilt c :
  Config.validateConfig c = Ok tt -> Config.new (Config.to_spark c) = Ok c.
Proof.
  intros Hv. unfold Config.new; simpl.
  destruct c; simpl in *. now rewrite Hv.
Qed.

(** ** Agent: configuration, registry, timers and events over whole runs *)

Lemma clear_fresh_handle tm :
  Timers.wf tm ->
  List.filter (fun e => negb (Nat.eqb (Timers.e_handle e)
                                      (Timers.next_handle tm)))
              (Timers.armed tm)
  = Timers.armed tm.
Proof.
  unfold Timers.wf.
  induction (Timers.armed tm) as [|e l IH]; simpl; intros Hwf;
    [reflexivity|].
  inversion Hwf as [|? ? He Hl]; subst.
  destruct (Nat.eqb_spec (Timers.e_handle e) (Timers.next_handle tm));
    [lia|]. simpl. now rewrite IH.
Qed.

Section AgentRuns.
Context {C : Type} `{Collector.Impl C}.

Implicit Types (a : Agent.t C) (tm : Timers.t) (env : Platform).

Lemma start_config env tm a :
  Agent.config (snd (fst (Agent.start env tm a))) = Agent.config a.
Proof.
  unfold Agent.start. destruct (Agent.isRunning a); [reflexivity|].
  destruct (Agent.for_each _ _) as [cs [u|e0]]; reflexivity.
Qed.

Lemma stop_config env tm a :
  Agent.config (snd (fst (Agent.stop env tm a))) = Agent.config a.
Proof.
  unfold Agent.stop. destruct (negb (Agent.isRunning a)); [reflexivity|].
  destruct (Agent.for_each _ _) as [cs [u|e0]]; reflexivity.
Qed.

Lemma collect_config env a :
  Agent.config (Agent.collect env a) = Agent.config a.
Proof.
  unfold Agent.collect.
  destruct (Agent.gather _ _ _) as [cs [ms|e0]]; reflexivity.
Qed.

Lemma fire_config env h tm a :
  Agent.config (Agent.fire env h tm a) = Agent.config a.
Proof.
  unfold Agent.fire. destruct (Timers.find h tm) as [e|]; [|reflexivity].
  destruct (Timers.is_agent_timer e); [apply collect_config | reflexivity].
Qed.

Lemma register_config name c a :
  Agent.config (fst (Agent.registerCollector name c a)) = Agent.config a.
Proof.
  unfold Agent.registerCollector. now destruct (Agent.has _ _).
Qed.

Lemma reachable_config_validated tm a :
  Agent.reachable tm a -> Config.validateConfig (Agent.config a) = Ok tt.
Proof.
  induction 1 as [cfg a Hnew| | | | | |]; auto.
  - unfold Agent.new in Hnew.
    destruct (Config.new cfg) as [c|e] eqn:Hc; [|discriminate].
    injection Hnew as <-. simpl. eapply config_new_validated; eassumption.
  - now rewrite register_config.
  - now rewrite start_config.
  - now rewrite stop_config.
  - now rewrite fire_config.
Qed.

(** X3. In every reachable state [getConfig()] returns a configuration
    equal to the Agent's own: the copy it constructs from the fields passes
    validation again and no operation of the Agent changes the
    configuration. *)
Theorem getConfig_returns_config tm a :
  Agent.reachable tm a -> Agent.getConfig a = Ok (Agent.config a).
Proof.
  intros Hreach. unfold Agent.getConfig.
  now apply config_rebuilt, (reachable_config_validated tm).
Qed.

(** *** The registry *)

Lemma has_iff_In name (cs : list (string * C)) :
  Agent.has name cs = true <-> In name (map fst cs).
Proof.
  unfold Agent.has. rewrite existsb_exists. split.
  - intros ([n c] & Hin & Heq). apply String.eqb_eq in Heq. simpl in Heq.
    subst. now apply (in_map fst) in Hin.
  - intros Hin. apply in_map_iff in Hin as ([n c] & <- & Hin).
    exists (n, c). split; [assumption | apply String.eqb_refl].
Qed.

Lemma gather_names env (cs : list (string * C)) acc :
  map fst (fst (Agent.gather env cs acc)) = map fst cs.
Proof.
  revert acc. induction cs as [|[n0 c0] rest IH]; intros acc; simpl;
    [reflexivity|].
  destruct (Collector.collect env c0) as [c0' [ms|e0]]; simpl.
  - specialize (IH (acc ++ ms)).
    destruct (Agent.gather env rest (acc ++ ms)); simpl in *.
    now rewrite IH.
  - reflexivity.
Qed.

Lemma start_names env tm a :
  map fst (Agent.collectors (snd (fst (Agent.start env tm a))))
  = map fst (Agent.collectors a).
Proof.
  unfold Agent.start. destruct (Agent.isRunning a); [reflexivity|].
  pose proof (for_each_names (Collector.start env) (Agent.collectors a)) as Hn.
  destruct (Agent.for_each _ _) as [cs [u|e0]]; exact Hn.
Qed.

Lemma stop_names env tm a :
  map fst (Agent.collectors (snd (fst (Agent.stop env tm a))))
  = map fst (Agent.collectors a).
Proof.
  unfold Agent.stop. destruct (negb (Agent.isRunning a)); [reflexivity|].
  pose proof (for_each_names (Collector.stop env) (Agent.collectors a)) as Hn.
  destruct (Agent.for_each _ _) as [cs [u|e0]]; exact Hn.
Qed.

Lemma collect_names env a :
  map fst (Agent.collectors (Agent.collect env a))
  = map fst (Agent.collectors a).
Proof.
  unfold Agent.collect.
  pose proof (gather_names env (Agent.collectors a) []) as Hn.
  destruct (Agent.gather _ _ _) as [cs [ms|e0]]; exact Hn.
Qed.

Lemma fire_names env h tm a :
  map fst (Agent.collectors (Agent.fire env h tm a))
  = map fst (Agent.collectors a).
Proof.
  unfold Agent.fire. destruct (Timers.find h tm) as [e|]; [|reflexivity].
  destruct (Timers.is_agent_timer e); [apply collect_names | reflexivity].
Qed.

Lemma register_fresh name c a :
  ~ In name (map fst (Agent.collectors a)) ->
  Agent.registerCollector name c a
  = (Agent.mk (Agent.config a) (Agent.collectors a ++ [(name, c)])
       (Agent.isRunning a) (Agent.collectionInterval a) (Agent.emitted a),
     Ok tt).
Proof.
  intros Hfresh. unfold Agent.registerCollector.
  destruct (Agent.has name (Agent.collectors a)) eqn:Hhas; [|reflexivity].
  apply has_iff_In in Hhas. contradiction.
Qed.

Lemma register_taken name c a :
  In name (map fst (Agent.collectors a)) ->
  Agent.registerCollector name c a
  = (a, Throw (mkError "Collector already exists")).
Proof.
  intros Htaken. unfold Agent.registerCollector.
  apply has_iff_In in Htaken. now rewrite Htaken.
Qed.

(** X4. In every reachable state the names of the registered collectors
    are pairwise different: a registration under a taken name is rejected
    and [start], [stop] and the collection cycle keep the names and their
    order. *)
Theorem registered_names_unique tm a :
  Agent.reachable tm a -> List.NoDup (map fst (Agent.collectors a)).
Proof.
  induction 1 as [cfg a Hnew|tm a name c _ IH| | | | |]; auto.
  - unfold Agent.new in Hnew.
    destruct (Config.new cfg); [|discriminate].
    injection Hnew as <-. constructor.
  - destruct (in_dec string_dec name (map fst (Agent.collectors a)))
      as [Htaken|Hfresh].
    + now rewrite register_taken.
    + rewrite register_fresh by assumption. simpl.
      rewrite map_app. simpl.
      apply List.NoDup_app; [assumption | repeat constructor; intros [] |].
      intros x Hx [<-|[]]. contradiction.
  - now rewrite start_names.
  - now rewrite stop_names.
  - now rewrite fire_names.
Qed.

(** X5. Registration order is iteration order: registering entries whose
    names are pairwise different and not yet taken, one call after the
    other, succeeds and leaves the registry as the old entries followed by
    the new ones in the order of the calls; nothing else of the Agent
    changes.  A run in which a name comes twice throws "Collector already
    exists" at the second and keeps what was registered before it. *)
Theorem register_all_in_order entries a :
  (List.NoDup (map fst (Agent.collectors a ++ entries)) ->
   Runs.register_all entries a
   = (Agent.mk (Agent.config a) (Agent.collectors a ++ entries)
        (Agent.isRunning a) (Agent.collectionInterval a) (Agent.emitted a),
      Ok tt)) /\
  (forall before name c1 c2 between rest,
      entries = before ++ (name, c1) :: between ++ (name, c2) :: rest ->
      List.NoDup (map fst (Agent.collectors a
                             ++ before ++ (name, c1) :: between)) ->
      Runs.register_all entries a
      = (Agent.mk (Agent.config a)
           (Agent.collectors a ++ before ++ (name, c1) :: between)
           (Agent.isRunning a) (Agent.collectionInterval a)
           (Agent.emitted a),
         Throw (mkError "Collector already exists"))).
Proof.
  assert (Hok : forall entries a,
             List.NoDup (map fst (Agent.collectors a ++ entries)) ->
             Runs.register_all entries a
             = (Agent.mk (Agent.config a) (Agent.collectors a ++ entries)
                  (Agent.isRunning a) (Agent.collectionInterval a)
                  (Agent.emitted a), Ok tt)).
  { clear. intros entries.
    induction entries as [|[name c] rest IH]; intros a Hnodup; simpl.
    - rewrite app_nil_r. now destruct a.
    - assert (Hfresh : ~ In name (map fst (Agent.collectors a))).
      { rewrite map_app in Hnodup. simpl in Hnodup.
        apply List.NoDup_remove_2 in Hnodup.
        intros Hin. apply Hnodup. apply in_or_app. now left. }
      rewrite register_fresh by assumption.
      rewrite IH; simpl.
      + now rewrite <- app_assoc.
      + now rewrite <- app_assoc. }
  split; [apply Hok|].
  intros before name c1 c2 between rest -> Hnodup.
  assert (Hsplit : forall (l1 l2 : list (string * C)) a0,
             Runs.register_all l1 a0 = (fst (Runs.register_all l1 a0), Ok tt) ->
             Runs.register_all (l1 ++ l2) a0
             = Runs.register_all l2 (fst (Runs.register_all l1 a0))).
  { clear. induction l1 as [|[n c] l1 IH]; intros l2 a0 Hl1; simpl in *;
      [reflexivity|].
    destruct (Agent.registerCollector n c a0) as [a1 [u|e]];
      [now apply IH | discriminate]. }
  replace (before ++ (name, c1) :: between ++ (name, c2) :: rest)
    with ((before ++ (name, c1) :: between) ++ (name, c2) :: rest)
    by (rewrite <- app_assoc; reflexivity).
  rewrite Hsplit; rewrite (Hok _ _ Hnodup); [|reflexivity].
  simpl. rewrite register_taken; [reflexivity|].
  simpl. rewrite !map_app. simpl.
  apply in_or_app. right. apply in_or_app. right. now left.
Qed.

End AgentRuns.

Lemma getConfig_returns_config_witness :
  Agent.getConfig (Fixtures.started (Fixtures.around Fixtures.failingStop))
  = Ok Fixtures.config100.
Proof.
  apply (getConfig_returns_config _ _
           (started_reachable Fixtures.failingStop)).
Defined.

Lemma registered_names_unique_witness :
  List.NoDup
    (map fst (Agent.collectors
                (Fixtures.started (Fixtures.around Fixtures.failingStop)))).
Proof.
  apply (registered_names_unique _ _
           (started_reachable Fixtures.failingStop)).
Defined.

Lemma register_all_in_order_witness :
  Runs.register_all Fixtures.abc (Fixtures.agent_of false [])
  = (Fixtures.agent_of false Fixtures.abc, Ok tt) /\
  Runs.register_all
    [("x", Stub.returning []); ("y", Stub.returning []);
     ("x", Fixtures.failingStart)]
    (Fixtures.agent_of false [])
  = (Fixtures.agent_of false
       [("x", Stub.returning []); ("y", Stub.returning [])],
     Throw (mkError "Collector already exists")).
Proof.
  split.
  - apply (proj1 (register_all_in_order Fixtures.abc
                    (Fixtures.agent_of false []))).
    simpl. repeat constructor; simpl; intuition discriminate.
  - apply (proj2 (register_all_in_order
                    [("x", Stub.returning []); ("y", Stub.returning []);
                     ("x", Fixtures.failingStart)]
                    (Fixtures.agent_of false []))
             [] "x" (Stub.returning []) Fixtures.failingStart
             [("y", Stub.returning [])] []).
    + reflexivity.
    + simpl. repeat constructor; simpl; intuition discriminate.
Defined.

(** ** Agent: timers and events *)

Section AgentTimersEvents.
Context {C : Type} `{Collector.Impl C}.

Implicit Types (a : Agent.t C) (tm : Timers.t) (env : Platform).

Lemma filter_length_le {A} (f : A -> bool) (l : list A) :
  (length (List.filter f l) <= length l)%nat.
Proof.
  induction l as [|x l IH]; simpl; [lia|]. destruct (f x); simpl; lia.
Qed.

Lemma agent_timers_clear_length h tm :
  (length (Timers.agent_timers (Timers.clearInterval h tm))
   <= length (Timers.agent_timers tm))%nat.
Proof.
  unfold Timers.agent_timers, Timers.clearInterval; simpl.
  induction (Timers.armed tm) as [|e l IH]; simpl; [lia|].
  destruct (negb (Nat.eqb (Timers.e_handle e) h)); simpl;
    destruct (Timers.is_agent_timer e); simpl; lia.
Qed.

(** X6. One timer while calls are awaited: in every state reached from
    the constructor by [registerCollector], [start()], [stop()] and timer
    firings in which every [start()] and [stop()] is awaited to its end
    before the next step (the states of [Agent.reachable]), at most one
    timer of the collection cycle is armed, however many such calls were
    made and whether they failed or not.  Calls of [start()] that overlap
    are not among these steps: they arm a timer each, see
    [overlapping_starts]. *)
Theorem at_most_one_cycle_timer tm a :
  Agent.reachable tm a -> (length (Timers.agent_timers tm) <= 1)%nat.
Proof.
  induction 1 as [| |tm a env Hreach IH|tm a env Hreach IH| |
                  tm a ms _ IH|tm a h _ IH]; auto.
  - pose proof (reachable_timer_inv _ _ Hreach) as Hinv.
    unfold Agent.start. destruct (Agent.isRunning a) eqn:Hrun; simpl; auto.
    pose proof (timer_inv_not_running _ _ Hinv Hrun) as Hnone.
    destruct (Agent.for_each _ _) as [cs [u|e0]]; simpl; [|assumption].
    change (Timers.agent_timers _) with
      (Timers.agent_timers
         (fst (Timers.setInterval Timers.CbAgentCollect
                 (Config.sampleInterval (Agent.config a)) tm))).
    rewrite agent_timers_setInterval_agent, Hnone. simpl. lia.
  - pose proof (reachable_timer_inv _ _ Hreach) as Hinv.
    unfold Agent.stop. destruct (Agent.isRunning a) eqn:Hrun; simpl; auto.
    pose proof (agent_timers_after_clear _ _ Hinv) as Hnone.
    destruct (Agent.for_each _ _) as [cs [u|e0]]; simpl;
      rewrite Hnone; simpl; lia.
  - now rewrite agent_timers_setInterval_other.
  - pose proof (agent_timers_clear_length h tm). lia.
Qed.

(** X7. Stop cancels the cycle while calls are awaited: in every state
    reached by steps in which every [start()] and [stop()] is awaited to
    its end before the next step (the states of [Agent.reachable]), an
    awaited [stop()] of a running Agent during which every collector's
    [stop()] returns returns itself, has called [stop()] on every
    collector, leaves the running flag false and no timer of the
    collection cycle armed; whichever timer fires afterwards, no
    collection cycle runs and nothing is emitted.  After calls of
    [start()] that overlapped this fails, see [overlapping_starts]. *)
Theorem stop_cancels_cycle env tm a :
  Agent.reachable tm a ->
  Agent.isRunning a = true ->
  Forall (Agent.succeeds (Collector.stop env)) (Agent.collectors a) ->
  exists tm' a',
    Agent.stop env tm a = (tm', a', Ok tt) /\
    Agent.isRunning a' = false /\
    Agent.collectors a'
    = Agent.called_on (Collector.stop env) (Agent.collectors a) /\
    Agent.emitted a' = Agent.emitted a /\
    Timers.agent_timers tm' = [] /\
    forall env' h, Agent.fire env' h tm' a' = a'.
Proof.
  intros Hreach Hrun Hall.
  pose proof (reachable_timer_inv _ _ Hreach) as Hinv.
  pose proof (agent_timers_after_clear _ _ Hinv) as Hnone.
  eexists _, _. split; [now apply stop_succeeds|].
  repeat apply conj; try reflexivity; [exact Hnone|].
  intros env' h. now apply fire_without_timer.
Qed.

(** X8. A failed start is not rolled back: when the [start()] of a
    registered collector throws during [Agent.start()], the collectors
    registered before it keep the state their [start()] left, the failing
    one keeps the state its [start()] left, the ones after it are
    untouched and no collector has been stopped; the Agent stays not
    running, so that a later [start()] calls [start()] on every collector
    again, from the first. *)
Theorem failed_start_not_rolled_back env tm a pre name c post e0 :
  Agent.isRunning a = false ->
  Agent.collectors a = pre ++ (name, c) :: post ->
  Forall (Agent.succeeds (Collector.start env)) pre ->
  snd (Collector.start env c) = Throw e0 ->
  Agent.collectors (snd (fst (Agent.start env tm a)))
  = Agent.called_on (Collector.start env) (pre ++ [(name, c)]) ++ post /\
  forall env2,
    Agent.collectors
      (snd (fst (Agent.start env2 tm (snd (fst (Agent.start env tm a))))))
    = fst (Agent.for_each (Collector.start env2)
             (Agent.called_on (Collector.start env) (pre ++ [(name, c)])
              ++ post)).
Proof.
  intros Hrun Hcs Hpre Hc.
  rewrite (start_throws env tm a pre name c post e0) by assumption.
  simpl. split; [reflexivity|].
  intros env2. unfold Agent.start; simpl.
  destruct (Agent.for_each _ _) as [cs [u|e]]; reflexivity.
Qed.

Lemma collect_emits_one env a :
  exists ev, Agent.emitted (Agent.collect env a) = Agent.emitted a ++ [ev].
Proof.
  unfold Agent.collect.
  destruct (Agent.gather _ _ _) as [cs [ms|e0]]; simpl; eauto.
Qed.

Lemma cycles_emit envs a :
  exists evs,
    length evs = length envs /\
    Agent.emitted (Runs.cycles envs a) = Agent.emitted a ++ evs.
Proof.
  revert a. induction envs as [|env rest IH]; intros a; simpl.
  - exists []. now rewrite app_nil_r.
  - destruct (collect_emits_one env a) as [ev Hev].
    destruct (IH (Agent.collect env a)) as (evs & Hlen & Hevs).
    exists (ev :: evs). split; [simpl; now rewrite Hlen|].
    now rewrite Hevs, Hev, <- app_assoc.
Qed.

(** X9. Events come from cycles only, one per cycle: [start()], [stop()]
    and [registerCollector] emit nothing, whatever their outcome; every
    collection cycle emits exactly one event after the ones emitted
    before, so that n cycles in a row add n events; a cycle changes
    neither the configuration, the running flag, the interval handle nor
    the names of the collectors. *)
Theorem events_come_from_cycles env tm a name c envs :
  Agent.emitted (snd (fst (Agent.start env tm a))) = Agent.emitted a /\
  Agent.emitted (snd (fst (Agent.stop env tm a))) = Agent.emitted a /\
  Agent.emitted (fst (Agent.registerCollector name c a)) = Agent.emitted a /\
  (exists evs,
      length evs = length envs /\
      Agent.emitted (Runs.cycles envs a) = Agent.emitted a ++ evs) /\
  Agent.config (Agent.collect env a) = Agent.config a /\
  Agent.isRunning (Agent.collect env a) = Agent.isRunning a /\
  Agent.collectionInterval (Agent.collect env a)
  = Agent.collectionInterval a /\
  map fst (Agent.collectors (Agent.collect env a))
  = map fst (Agent.collectors a).
Proof.
  repeat apply conj.
  - unfold Agent.start. destruct (Agent.isRunning a); [reflexivity|].
    destruct (Agent.for_each _ _) as [cs [u|e0]]; reflexivity.
  - unfold Agent.stop. destruct (negb (Agent.isRunning a)); [reflexivity|].
    destruct (Agent.for_each _ _) as [cs [u|e0]]; reflexivity.
  - unfold Agent.registerCollector. now destruct (Agent.has _ _).
  - apply cycles_emit.
  - apply collect_config.
  - unfold Agent.collect.
    destruct (Agent.gather _ _ _) as [cs [ms|e0]]; reflexivity.
  - unfold Agent.collect.
    destruct (Agent.gather _ _ _) as [cs [ms|e0]]; reflexivity.
  - apply collect_names.
Qed.

(** X10. Start then stop gives the timers back: from a state with well
    formed timers and an Agent that is not running, a [start()] during
    which every collector starts followed by a [stop()] during which every
    collector stops returns, leaves the Agent not running with every
    collector started and then stopped, has emitted nothing, and the armed
    timers of the runtime are exactly the ones armed before. *)
Theorem start_then_stop env1 env2 tm a :
  Timers.wf tm ->
  Agent.isRunning a = false ->
  Forall (Agent.succeeds (Collector.start env1)) (Agent.collectors a) ->
  Forall (Agent.succeeds (Collector.stop env2))
         (Agent.called_on (Collector.start env1) (Agent.collectors a)) ->
  exists tm2 a2,
    and_then (Agent.call (Agent.start env1)) (Agent.call (Agent.stop env2))
             (tm, a) = (tm2, a2, Ok tt) /\
    Timers.armed tm2 = Timers.armed tm /\
    Agent.isRunning a2 = false /\
    Agent.collectors a2
    = Agent.called_on (Collector.stop env2)
        (Agent.called_on (Collector.start env1) (Agent.collectors a)) /\
    Agent.emitted a2 = Agent.emitted a.
Proof.
  intros Hwf Hrun Hstart Hstop.
  unfold and_then, Agent.call; simpl.
  rewrite start_succeeds by assumption. simpl.
  rewrite stop_succeeds by (simpl; auto). simpl.
  eexists _, _. split; [reflexivity|].
  repeat apply conj; try reflexivity.
  unfold Timers.clearInterval, Timers.setInterval; simpl.
  rewrite List.filter_app. simpl. rewrite Nat.eqb_refl. simpl.
  rewrite app_nil_r. now apply clear_fresh_handle.
Qed.

End AgentTimersEvents.

Lemma at_most_one_cycle_timer_witness :
  (length (Timers.agent_timers
             (fst (fst (Agent.start Fixtures.env0 Timers.empty
                          (Fixtures.agent_of false
                             (Fixtures.around Fixtures.failingStop))))))
   <= 1)%nat.
Proof.
  apply (at_most_one_cycle_timer _ _
           (started_reachable Fixtures.failingStop)).
Defined.

Lemma stop_cancels_cycle_witness :
  exists tm' a',
    Agent.stop Fixtures.env0 Fixtures.running_timers
      (Fixtures.started (Fixtures.around Fixtures.failingCollect))
    = (tm', a', Ok tt) /\
    Agent.isRunning a' = false /\
    Timers.agent_timers tm' = [] /\
    Agent.fire Fixtures.env0 0%nat tm' a' = a'.
Proof.
  destruct (stop_cancels_cycle Fixtures.env0 Fixtures.running_timers
              (Fixtures.started (Fixtures.around Fixtures.failingCollect)))
    as (tm' & a' & Hstop & Hrun & _ & _ & Htimers & Hfire).
  - apply (started_reachable Fixtures.failingCollect).
  - reflexivity.
  - repeat constructor.
  - exists tm', a'. repeat apply conj; auto.
Defined.

Lemma failed_start_not_rolled_back_witness :
  map (fun nc => Stub.calls (snd nc))
    (Agent.collectors
       (snd (fst (Agent.start Fixtures.env0 Timers.empty
                    (Fixtures.agent_of false
                       (Fixtures.around Fixtures.failingStart))))))
  = [[Stub.CStart]; [Stub.CStart]; []].
Proof.
  rewrite (proj1 (failed_start_not_rolled_back Fixtures.env0 Timers.empty
                    (Fixtures.agent_of false
                       (Fixtures.around Fixtures.failingStart))
                    [("A", Stub.returning [Fixtures.a1; Fixtures.a2])]
                    "B" Fixtures.failingStart
                    [("C", Stub.returning
                             [Fixtures.c1; Fixtures.c2; Fixtures.c3])]
                    Fixtures.boom eq_refl eq_refl
                    ltac:(repeat constructor) eq_refl)).
  reflexivity.
Defined.

Lemma start_then_stop_witness :
  exists tm2 a2,
    and_then (Agent.call (Agent.start Fixtures.env0))
             (Agent.call (Agent.stop Fixtures.env0))
             (Timers.empty, Fixtures.agent_of false Fixtures.abc)
    = (tm2, a2, Ok tt) /\
    Timers.armed tm2 = [] /\
    Agent.isRunning a2 = false.
Proof.
  destruct (start_then_stop Fixtures.env0 Fixtures.env0 Timers.empty
              (Fixtures.agent_of false Fixtures.abc))
    as (tm2 & a2 & Hrun & Harmed & Hflag & _).
  - apply wf_empty.
  - reflexivity.
  - repeat constructor.
  - repeat constructor.
  - exists tm2, a2. repeat apply conj; auto.
Defined.

(** ** The provided collectors *)

(** X11. Collect before start: [collect()] of a MemoryCollector, a
    CpuCollector or an EventLoopCollector that is not running throws
    "Collector must be started before collecting metrics" and leaves the
    collector as it is; this is so for a collector just constructed and for
    any collector after [stop()]. *)
Theorem collect_requires_start env env' cfg :
  message not_started
  = "Collector must be started before collecting metrics" /\
  (forall c, MemoryCollector.isRunning c = false ->
             MemoryCollector.collect env c = (c, Throw not_started)) /\
  (forall c, CpuCollector.isRunning c = false ->
             CpuCollector.collect env c = (c, Throw not_started)) /\
  (forall c, EventLoopCollector.isRunning c = false ->
             EventLoopCollector.collect env c = (c, Throw not_started)) /\
  snd (MemoryCollector.collect env (MemoryCollector.new cfg))
  = Throw not_started /\
  snd (CpuCollector.collect env (CpuCollector.new cfg)) = Throw not_started /\
  snd (EventLoopCollector.collect env (EventLoopCollector.new env' cfg))
  = Throw not_started /\
  (forall c, snd (MemoryCollector.collect env
                    (fst (MemoryCollector.stop env' c)))
             = Throw not_started) /\
  (forall c, snd (CpuCollector.collect env (fst (CpuCollector.stop env' c)))
             = Throw not_started) /\
  (forall tm c, snd (EventLoopCollector.collect env
                       (snd (fst (EventLoopCollector.stop env' tm c))))
                = Throw not_started).
Proof.
  repeat apply conj; try reflexivity.
  - intros c Hrun. unfold MemoryCollector.collect. now rewrite Hrun.
  - intros c Hrun. unfold CpuCollector.collect. now rewrite Hrun.
  - intros c Hrun. unfold EventLoopCollector.collect. now rewrite Hrun.
  - intros [cfg0 snaps []]; reflexivity.
  - intros [cfg0 [] usage stamp]; reflexivity.
  - intros tm [cfg0 [] last [h|]]; reflexivity.
Qed.

Lemma collect_requires_start_witness :
  MemoryCollector.collect Fixtures.env0
    (MemoryCollector.mk Samples.config_snapshots3 [1; 2] false)
  = (MemoryCollector.mk Samples.config_snapshots3 [1; 2] false,
     Throw not_started).
Proof.
  apply (proj1 (proj2 (collect_requires_start Fixtures.env0 Fixtures.env0
                         Fixtures.config100))).
  reflexivity.
Defined.

(** *** MemoryCollector: the window of snapshots *)

Lemma lastn_length {A} k (l : list A) :
  (length (Runs.lastn k l) <= k)%nat.
Proof. unfold Runs.lastn. rewrite List.length_skipn. lia. Qed.

Lemma lastn_app_lastn {A} k (l r : list A) :
  Runs.lastn k (Runs.lastn k l ++ r) = Runs.lastn k (l ++ r).
Proof.
  unfold Runs.lastn.
  rewrite !length_app, List.length_skipn.
  replace (skipn (length l - k) l ++ r)
    with (skipn (length l - k) (l ++ r)).
  - rewrite List.skipn_skipn. f_equal. lia.
  - rewrite List.skipn_app.
    replace (length l - k - length l)%nat with 0%nat by lia. reflexivity.
Qed.

Lemma memory_collect_running env c :
  MemoryCollector.isRunning c = true ->
  0 < Config.maxMemorySnapshots (MemoryCollector.config c) ->
  Z.of_nat (length (MemoryCollector.snapshots c))
    <= Config.maxMemorySnapshots (MemoryCollector.config c) ->
  MemoryCollector.isRunning (fst (MemoryCollector.collect env c)) = true /\
  MemoryCollector.config (fst (MemoryCollector.collect env c))
  = MemoryCollector.config c /\
  MemoryCollector.snapshots (fst (MemoryCollector.collect env c))
  = Runs.lastn (Z.to_nat (Config.maxMemorySnapshots (MemoryCollector.config c)))
      (MemoryCollector.snapshots c ++ [heapUsed env]).
Proof.
  intros Hrun Hpos Hlen. unfold MemoryCollector.collect. rewrite Hrun; simpl.
  repeat split. unfold Runs.lastn. rewrite length_app; simpl.
  destruct (Z.gtb_spec
              (Z.of_nat (length (MemoryCollector.snapshots c) + 1))
              (Config.maxMemorySnapshots (MemoryCollector.config c)))
    as [Hgt|Hle].
  - replace (length (MemoryCollector.snapshots c) + 1
             - Z.to_nat (Config.maxMemorySnapshots (MemoryCollector.config c)))%nat
      with 1%nat by lia.
    now destruct (MemoryCollector.snapshots c ++ [heapUsed env]).
  - replace (length (MemoryCollector.snapshots c) + 1
             - Z.to_nat (Config.maxMemorySnapshots (MemoryCollector.config c)))%nat
      with 0%nat by lia.
    reflexivity.
Qed.

Lemma memory_collects_window envs c :
  MemoryCollector.isRunning c = true ->
  0 < Config.maxMemorySnapshots (MemoryCollector.config c) ->
  Z.of_nat (length (MemoryCollector.snapshots c))
    <= Config.maxMemorySnapshots (MemoryCollector.config c) ->
  MemoryCollector.isRunning (Runs.memory_collects envs c) = true /\
  MemoryCollector.config (Runs.memory_collects envs c)
  = MemoryCollector.config c /\
  MemoryCollector.snapshots (Runs.memory_collects envs c)
  = Runs.lastn (Z.to_nat (Config.maxMemorySnapshots (MemoryCollector.config c)))
      (MemoryCollector.snapshots c ++ map heapUsed envs).
Proof.
  revert c. induction envs as [|env rest IH]; intros c Hrun Hpos Hlen; simpl.
  - repeat split; auto. rewrite app_nil_r. unfold Runs.lastn.
    replace (_ - _)%nat with 0%nat by lia. reflexivity.
  - destruct (memory_collect_running env c Hrun Hpos Hlen)
      as (Hrun1 & Hcfg1 & Hsnap1).
    destruct (IH (fst (MemoryCollector.collect env c))) as (Hr & Hc & Hs).
    + assumption.
    + now rewrite Hcfg1.
    + rewrite Hcfg1, Hsnap1.
      pose proof (lastn_length
                    (Z.to_nat (Config.maxMemorySnapshots
                                 (MemoryCollector.config c)))
                    (MemoryCollector.snapshots c ++ [heapUsed env])).
      lia.
    + repeat split; [assumption | congruence |].
      rewrite Hs, Hcfg1, Hsnap1, lastn_app_lastn, <- app_assoc.
      reflexivity.
Qed.

(** X12. The snapshot window of a MemoryCollector: with
    [maxMemorySnapshots] greater than 0, after [start()] and any number of
    [collect()] calls the collector holds exactly the last
    [maxMemorySnapshots] readings of the heap in use (all of them while
    there are fewer), oldest first, so never more than
    [maxMemorySnapshots]; it is still running. *)
Theorem memory_snapshot_window env0 envs c :
  MemoryCollector.isRunning c = false ->
  0 < Config.maxMemorySnapshots (MemoryCollector.config c) ->
  let started := fst (MemoryCollector.start env0 c) in
  let max := Z.to_nat (Config.maxMemorySnapshots (MemoryCollector.config c)) in
  MemoryCollector.snapshots (Runs.memory_collects envs started)
  = Runs.lastn max (map heapUsed envs) /\
  (length (MemoryCollector.snapshots (Runs.memory_collects envs started))
   <= max)%nat /\
  MemoryCollector.isRunning (Runs.memory_collects envs started) = true.
Proof.
  intros Hrun Hpos. cbv zeta.
  unfold MemoryCollector.start. rewrite Hrun. simpl.
  destruct (memory_collects_window envs
              (MemoryCollector.mk (MemoryCollector.config c) [] true))
    as (Hr & _ & Hs); simpl; try lia; auto.
  simpl in Hs. rewrite Hs. repeat split; auto. apply lastn_length.
Qed.

Lemma memory_snapshot_window_witness :
  MemoryCollector.snapshots
    (Runs.memory_collects
       [Samples.reading 1 10; Samples.reading 2 20; Samples.reading 3 30;
        Samples.reading 4 40; Samples.reading 5 50]
       (fst (MemoryCollector.start Fixtures.env0
               (MemoryCollector.new Samples.config_snapshots3))))
  = [30; 40; 50].
Proof.
  apply (proj1 (memory_snapshot_window Fixtures.env0
                  [Samples.reading 1 10; Samples.reading 2 20;
                   Samples.reading 3 30; Samples.reading 4 40;
                   Samples.reading 5 50]
                  (MemoryCollector.new Samples.config_snapshots3)
                  eq_refl ltac:(simpl; lia))).
Defined.

(** *** MemoryCollector: the growth rate *)

Lemma last_cons {A} (l : list A) x d :
  List.last (x :: l) d = List.last l x.
Proof.
  revert x d. induction l as [|z l IH]; intros x d; [reflexivity|].
  change (List.last (x :: z :: l) d) with (List.last (z :: l) d).
  now rewrite !IH.
Qed.

Lemma totalGrowth_telescopes x l :
  MemoryCollector.totalGrowth (x :: l) = List.last l x - x.
Proof.
  revert x. induction l as [|y l IH]; intros x.
  - simpl. lia.
  - change (MemoryCollector.totalGrowth (x :: y :: l))
      with ((y - x) + MemoryCollector.totalGrowth (y :: l)).
    rewrite IH, last_cons. lia.
Qed.

(** X13. The growth of a MemoryCollector: the total growth over a list of
    snapshots is the newest snapshot minus the oldest; with fewer than two
    snapshots the growth rate is 0, so the first [collect()] after
    [start()] returns the four metrics heapUsed, heapTotal, rss and
    growthRate, stamped with the current time, with growth rate 0 over 1
    snapshot and status "normal". *)
Theorem memory_growth env0 env c :
  (forall x l, MemoryCollector.totalGrowth (x :: l) = List.last l x - x) /\
  (forall snaps, (length snaps < 2)%nat ->
                 MemoryCollector.calculateGrowthRate snaps = 0%Q) /\
  (MemoryCollector.isRunning c = false ->
   0 < Config.maxMemorySnapshots (MemoryCollector.config c) ->
   snd (MemoryCollector.collect env (fst (MemoryCollector.start env0 c)))
   = Ok [ mkMetric "memory.heapUsed" (JNum (inject_Z (heapUsed env)))
            (now env) memory
            (Some [("unit", JScalar (JStr "bytes"));
                   ("status", JScalar (JStr "normal"))]);
          mkMetric "memory.heapTotal" (JNum (inject_Z (heapTotal env)))
            (now env) memory (Some [("unit", JScalar (JStr "bytes"))]);
          mkMetric "memory.rss" (JNum (inject_Z (rss env)))
            (now env) memory (Some [("unit", JScalar (JStr "bytes"))]);
          mkMetric "memory.growthRate" (JNum 0%Q) (now env) memory
            (Some [("unit", JScalar (JStr "bytes/snapshot"));
                   ("snapshots", JScalar (JNum (inject_Z 1)))]) ]).
Proof.
  repeat apply conj.
  - apply totalGrowth_telescopes.
  - intros snaps Hlen. unfold MemoryCollector.calculateGrowthRate.
    destruct (Nat.ltb_spec (length snaps) 2); [reflexivity | lia].
  - intros Hrun Hpos.
    unfold MemoryCollector.start. rewrite Hrun.
    unfold MemoryCollector.collect; simpl.
    destruct (Z.gtb_spec (Z.of_nat 1)
                (Config.maxMemorySnapshots (MemoryCollector.config c)));
      [lia | reflexivity].
Qed.

Lemma memory_growth_witness :
  MemoryCollector.totalGrowth [100; 250; 180; 400] = 300 /\
  MemoryCollector.calculateGrowthRate [7] = 0%Q /\
  is_ok (snd (MemoryCollector.collect (Samples.reading 5 50)
                (fst (MemoryCollector.start Fixtures.env0
                        (MemoryCollector.new Samples.config_snapshots3)))))
  = true.
Proof.
  destruct (memory_growth Fixtures.env0 (Samples.reading 5 50)
              (MemoryCollector.new Samples.config_snapshots3))
    as (Htotal & Hrate & Hfirst).
  repeat apply conj.
  - apply (Htotal 100 [250; 180; 400]).
  - apply Hrate. simpl. lia.
  - rewrite Hfirst; [reflexivity | reflexivity | simpl; lia].
Defined.

(** *** CpuCollector *)

(** X14. [collect()] of a CpuCollector that is running with its baselines
    returns two metrics, "cpu.user" then "cpu.system", of type cpu, stamped
    with the current time and carrying the unit and the configured
    profiling duration; it leaves the collector as a [start()] at the same
    moment leaves a new collector: running, the baselines at the current
    readings.  So the next [collect()] returns as well. *)
Theorem cpu_collect_rebaselines env env2 c usage stamp :
  CpuCollector.isRunning c = true ->
  CpuCollector.lastUsage c = Some usage ->
  CpuCollector.lastTimestamp c = Some stamp ->
  fst (CpuCollector.collect env c)
  = fst (CpuCollector.start env (CpuCollector.new (CpuCollector.config c))) /\
  (exists user system,
      snd (CpuCollector.collect env c)
      = Ok [ mkMetric "cpu.user" (JNum user) (now env) cpu
               (Some [("unit", JScalar (JStr "percent"));
                      ("duration",
                       JScalar (JNum (inject_Z
                                        (Config.cpuProfilingDuration
                                           (CpuCollector.config c)))))]);
             mkMetric "cpu.system" (JNum system) (now env) cpu
               (Some [("unit", JScalar (JStr "percent"));
                      ("duration",
                       JScalar (JNum (inject_Z
                                        (Config.cpuProfilingDuration
                                           (CpuCollector.config c)))))]) ]) /\
  is_ok (snd (CpuCollector.collect env2 (fst (CpuCollector.collect env c))))
  = true.
Proof.
  intros Hrun Husage Hstamp.
  unfold CpuCollector.collect. rewrite Hrun, Husage, Hstamp.
  destruct usage as [user0 system0], stamp as [sec0 nano0]. simpl.
  repeat apply conj; [reflexivity | eauto | reflexivity].
Qed.

Lemma cpu_collect_rebaselines_witness :
  fst (CpuCollector.collect (Samples.reading 9 0)
         (fst (CpuCollector.start Fixtures.env0
                 (CpuCollector.new Fixtures.config100))))
  = fst (CpuCollector.start (Samples.reading 9 0)
           (CpuCollector.new Fixtures.config100)).
Proof.
  apply (proj1 (cpu_collect_rebaselines (Samples.reading 9 0)
                  Fixtures.env0
                  (fst (CpuCollector.start Fixtures.env0
                          (CpuCollector.new Fixtures.config100)))
                  (0, 0) (0, 0) eq_refl eq_refl eq_refl)).
Defined.

(** *** EventLoopCollector *)

(** X15. The timer of an EventLoopCollector: on well formed timers,
    [start()] of a collector that is not running arms exactly one timer,
    of period 1, keeps its handle, records the current time and sets the
    collector running; a [stop()] after it disarms that timer, so that the
    armed timers are the ones armed before the [start()], forgets the
    handle and sets the collector not running. *)
Theorem eventloop_timer_lifecycle env1 env2 tm c :
  Timers.wf tm ->
  EventLoopCollector.isRunning c = false ->
  let started := EventLoopCollector.start env1 tm c in
  let stopped :=
    EventLoopCollector.stop env2 (fst (fst started)) (snd (fst started)) in
  Timers.armed (fst (fst started))
  = Timers.armed tm
    ++ [Timers.mkEntry (Timers.next_handle tm) Timers.CbEventLoopCheck 1] /\
  snd (fst started)
  = EventLoopCollector.mk (EventLoopCollector.config c) true (now env1)
      (Some (Timers.next_handle tm)) /\
  snd started = Ok tt /\
  Timers.armed (fst (fst stopped)) = Timers.armed tm /\
  snd (fst stopped)
  = EventLoopCollector.mk (EventLoopCollector.config c) false (now env1)
      None /\
  snd stopped = Ok tt.
Proof.
  intros Hwf Hrun. cbv zeta.
  unfold EventLoopCollector.start. rewrite Hrun. simpl.
  repeat apply conj; try reflexivity.
  unfold Timers.clearInterval; simpl.
  rewrite List.filter_app. simpl. rewrite Nat.eqb_refl. simpl.
  rewrite app_nil_r. now apply clear_fresh_handle.
Qed.

Lemma eventloop_timer_lifecycle_witness :
  Timers.armed
    (fst (fst (EventLoopCollector.stop Fixtures.env0
                 (fst (fst (EventLoopCollector.start Fixtures.env0
                              Fixtures.running_timers
                              (EventLoopCollector.new Fixtures.env0
                                 Fixtures.config100))))
                 (snd (fst (EventLoopCollector.start Fixtures.env0
                              Fixtures.running_timers
                              (EventLoopCollector.new Fixtures.env0
                                 Fixtures.config100)))))))
  = Timers.armed Fixtures.running_timers.
Proof.
  apply (eventloop_timer_lifecycle Fixtures.env0 Fixtures.env0
           Fixtures.running_timers
           (EventLoopCollector.new Fixtures.env0 Fixtures.config100)).
  - apply (wf_setInterval Timers.CbAgentCollect 100 Timers.empty wf_empty).
  - reflexivity.
Defined.

(** X16. The lag an EventLoopCollector reports: a running collector
    returns one metric "eventloop.lag" whose value is the current time
    minus the time of the last tick of its timer or of the last
    [collect()], whichever came later, with status "warning" exactly when
    that lag exceeds the threshold; so with a threshold that is not
    negative, a [collect()] at the very time of a tick or of a previous
    [collect()] reports lag 0 and status "normal". *)
Theorem eventloop_lag env c :
  EventLoopCollector.isRunning c = true ->
  let threshold := Config.eventLoopThreshold (EventLoopCollector.config c) in
  let report (lag : Z) (status : string) :=
    Ok [ mkMetric "eventloop.lag" (JNum (inject_Z lag)) (now env) eventloop
           (Some [("unit", JScalar (JStr "milliseconds"));
                  ("threshold", JScalar (JNum (inject_Z threshold)));
                  ("status", JScalar (JStr status))]) ] in
  (threshold < now env - EventLoopCollector.lastLoopTime c ->
   snd (EventLoopCollector.collect env c)
   = report (now env - EventLoopCollector.lastLoopTime c) "warning") /\
  (now env - EventLoopCollector.lastLoopTime c <= threshold ->
   snd (EventLoopCollector.collect env c)
   = report (now env - EventLoopCollector.lastLoopTime c) "normal") /\
  EventLoopCollector.lastLoopTime (fst (EventLoopCollector.collect env c))
  = now env /\
  (0 <= threshold ->
   snd (EventLoopCollector.collect env (EventLoopCollector.check env c))
   = report 0 "normal" /\
   snd (EventLoopCollector.collect env
          (fst (EventLoopCollector.collect env c)))
   = report 0 "normal").
Proof.
  intros Hrun. cbv zeta.
  unfold EventLoopCollector.collect, EventLoopCollector.check.
  rewrite Hrun. simpl.
  repeat apply conj.
  - intros Hlag.
    destruct (Z.gtb_spec (now env - EventLoopCollector.lastLoopTime c)
                (Config.eventLoopThreshold (EventLoopCollector.config c)));
      [reflexivity | lia].
  - intros Hlag.
    destruct (Z.gtb_spec (now env - EventLoopCollector.lastLoopTime c)
                (Config.eventLoopThreshold (EventLoopCollector.config c)));
      [lia | reflexivity].
  - reflexivity.
  - intros Hth. rewrite ?Hrun. simpl. rewrite ?Z.sub_diag.
    destruct (Z.gtb_spec 0
                (Config.eventLoopThreshold (EventLoopCollector.config c)));
      [lia | split; reflexivity].
Qed.

Lemma eventloop_lag_witness :
  snd (EventLoopCollector.collect (Samples.reading 1250 0)
         (EventLoopCollector.mk Fixtures.config100 true 1000 (Some 0%nat)))
  = Ok [ mkMetric "eventloop.lag" (JNum (inject_Z 250)) 1250 eventloop
           (Some [("unit", JScalar (JStr "milliseconds"));
                  ("threshold", JScalar (JNum (inject_Z 100)));
                  ("status", JScalar (JStr "warning"))]) ].
Proof.
  apply (proj1 (eventloop_lag (Samples.reading 1250 0)
                  (EventLoopCollector.mk Fixtures.config100 true 1000
                     (Some 0%nat)) eq_refl)).
  simpl. lia.
Defined.

(** ** An Agent over the provided collectors *)

Lemma provided_start env p :
  Provided.consistent p ->
  snd (Provided.start env p) = Ok tt /\
  Provided.ready (fst (Provided.start env p)) /\
  Provided.batch_size (fst (Provided.start env p)) = Provided.batch_size p.
Proof.
  unfold Provided.consistent.
  destruct p as [[cfg snaps run]|[cfg run usage stamp]]; simpl;
    unfold MemoryCollector.start, CpuCollector.start; simpl;
    destruct run; simpl; intros Hc; repeat split; auto;
    try discriminate; now apply Hc.
Qed.

Lemma provided_collect env p :
  Provided.ready p ->
  exists ms,
    snd (Provided.collect env p) = Ok ms /\
    length ms = Provided.batch_size p /\
    Provided.ready (fst (Provided.collect env p)) /\
    Provided.batch_size (fst (Provided.collect env p))
    = Provided.batch_size p.
Proof.
  destruct p as [[cfg snaps run]|[cfg run usage stamp]]; simpl.
  - intros ->. unfold MemoryCollector.collect; simpl.
    eexists. repeat split.
  - intros (-> & Hu & Hs).
    destruct usage as [[u0 s0]|]; [|congruence].
    destruct stamp as [[sec0 nano0]|]; [|congruence].
    unfold CpuCollector.collect; simpl.
    eexists. repeat split; discriminate.
Qed.

Lemma provided_not_running env p :
  Provided.isRunning p = false ->
  Provided.collect env p = (p, Throw not_started).
Proof.
  destruct p as [[cfg snaps run]|[cfg run usage stamp]]; simpl; intros ->;
    reflexivity.
Qed.

Lemma provided_start_all env (cs : list (string * Provided.t)) :
  Forall (fun nc => Provided.consistent (snd nc)) cs ->
  Forall (Agent.succeeds (Collector.start env)) cs /\
  Forall (fun nc => Provided.ready (snd nc))
         (Agent.called_on (Collector.start env) cs) /\
  Provided.batch_total (Agent.called_on (Collector.start env) cs)
  = Provided.batch_total cs.
Proof.
  induction 1 as [|[n p] rest Hp _ (IH1 & IH2 & IH3)]; simpl.
  - repeat split; constructor.
  - destruct (provided_start env p Hp) as (Hok & Hready & Hsize).
    repeat split.
    + constructor; assumption.
    + constructor; assumption.
    + simpl in *. now rewrite Hsize, IH3.
Qed.

Lemma provided_gather env (cs : list (string * Provided.t)) acc :
  Forall (fun nc => Provided.ready (snd nc)) cs ->
  exists ms,
    Agent.gather env cs acc = (Agent.collected_on env cs, Ok (acc ++ ms)) /\
    length ms = Provided.batch_total cs /\
    Forall (fun nc => Provided.ready (snd nc)) (Agent.collected_on env cs) /\
    Provided.batch_total (Agent.collected_on env cs)
    = Provided.batch_total cs.
Proof.
  intros Hall. revert acc.
  induction Hall as [|[n p] rest Hp _ IH]; intros acc; simpl.
  - exists []. rewrite app_nil_r. repeat split; constructor.
  - destruct (provided_collect env p Hp) as (ms & Hms & Hlen & Hready & Hsize).
    simpl in *.
    destruct (Provided.collect env p) as [p' r]; simpl in *; subst r.
    destruct (IH (acc ++ ms)) as (ms' & Hg & Hlen' & Hready' & Hsize').
    rewrite Hg. exists (ms ++ ms'). repeat split.
    + now rewrite app_assoc.
    + rewrite length_app. lia.
    + constructor; assumption.
    + now rewrite Hsize, Hsize'.
Qed.

Lemma provided_cycles envs (a : Agent.t Provided.t) :
  Forall (fun nc => Provided.ready (snd nc)) (Agent.collectors a) ->
  exists batches,
    Agent.emitted (Runs.cycles envs a)
    = Agent.emitted a ++ map Agent.EvMetrics batches /\
    length batches = length envs /\
    Forall (fun batch =>
              length batch = Provided.batch_total (Agent.collectors a))
           batches.
Proof.
  revert a. induction envs as [|env rest IH]; intros a Hready; simpl.
  - exists []. rewrite app_nil_r. repeat split. constructor.
  - destruct (provided_gather env (Agent.collectors a) [] Hready)
      as (ms & Hg & Hlen & Hready' & Hsize).
    assert (Hcollect : Agent.collect env a
                       = Agent.emit (Agent.EvMetrics ms)
                           (Agent.collected_on env (Agent.collectors a)) a).
    { unfold Agent.collect. now rewrite Hg. }
    destruct (IH (Agent.collect env a)) as (batches & Hev & Hn & Hall).
    { now rewrite Hcollect. }
    exists (ms :: batches). rewrite Hev, Hcollect. simpl.
    repeat split.
    + now rewrite <- app_assoc.
    + now rewrite Hn.
    + constructor; [assumption|].
      rewrite Hcollect in Hall. simpl in Hall. now rewrite Hsize in Hall.
Qed.

(** X17. An Agent whose collectors are MemoryCollectors and
    CpuCollectors never fails: [start()] of such an Agent that is not
    running returns, and every collection cycle after it, however many,
    emits a ['metrics'] event and never an ['error']; each batch holds four
    metrics for every MemoryCollector and two for every CpuCollector. *)
Theorem provided_agent_never_fails env tm (a : Agent.t Provided.t) envs :
  Forall (fun nc => Provided.consistent (snd nc)) (Agent.collectors a) ->
  Agent.isRunning a = false ->
  exists tm' a' batches,
    Agent.start env tm a = (tm', a', Ok tt) /\
    Agent.emitted (Runs.cycles envs a')
    = Agent.emitted a ++ map Agent.EvMetrics batches /\
    length batches = length envs /\
    Forall (fun batch =>
              length batch = Provided.batch_total (Agent.collectors a))
           batches.
Proof.
  intros Hcons Hrun.
  destruct (provided_start_all env _ Hcons) as (Hok & Hready & Hsize).
  rewrite (start_succeeds env tm a Hrun Hok).
  destruct (provided_cycles envs
              (Agent.mk (Agent.config a)
                 (Agent.called_on (Collector.start env) (Agent.collectors a))
                 true (Some (Timers.next_handle tm)) (Agent.emitted a)))
    as (batches & Hev & Hn & Hall); [exact Hready|].
  eexists _, _, batches. split; [reflexivity|].
  simpl in *. rewrite Hsize in Hall. auto.
Qed.

Lemma provided_agent_never_fails_witness :
  exists tm' a' batches,
    Agent.start Fixtures.env0 Timers.empty Samples.readme_agent
    = (tm', a', Ok tt) /\
    Agent.emitted
      (Runs.cycles [Samples.reading 1 10; Samples.reading 2 20] a')
    = map Agent.EvMetrics batches /\
    length batches = 2%nat /\
    Forall (fun batch => length batch = 6%nat) batches.
Proof.
  apply (provided_agent_never_fails Fixtures.env0 Timers.empty
           Samples.readme_agent
           [Samples.reading 1 10; Samples.reading 2 20]).
  - repeat constructor; discriminate.
  - reflexivity.
Defined.

(** X18. A cycle over collectors that were never started: when a
    MemoryCollector or CpuCollector of the registry is not running and the
    ones before it are, the cycle emits one ['error'] event carrying
    "Collector must be started before collecting metrics" and no
    ['metrics'] event; the collector that is not running and the ones
    after it are left as they are. *)
Theorem cycle_before_start env (a : Agent.t Provided.t) pre name p post :
  Agent.collectors a = pre ++ (name, p) :: post ->
  Forall (fun nc => Provided.ready (snd nc)) pre ->
  Provided.isRunning p = false ->
  Agent.emitted (Agent.collect env a)
  = Agent.emitted a ++ [Agent.EvError not_started] /\
  Agent.collectors (Agent.collect env a)
  = Agent.collected_on env pre ++ (name, p) :: post.
Proof.
  intros Hcs Hpre Hp.
  assert (Hreturns : Forall (fun nc => exists ms, Agent.returns env nc ms) pre).
  { eapply List.Forall_impl; [|exact Hpre]. intros [n q] Hq.
    destruct (provided_collect env q Hq) as (ms & Hms & _).
    exists ms. exact Hms. }
  rewrite (collect_throws env a pre name p post not_started Hcs Hreturns).
  - simpl. split; [reflexivity|].
    unfold Agent.collected_on. rewrite map_app. simpl.
    change (Collector.collect env p) with (Provided.collect env p).
    rewrite provided_not_running by assumption.
    now rewrite <- app_assoc.
  - change (Collector.collect env p) with (Provided.collect env p).
    now rewrite provided_not_running.
Qed.

Lemma cycle_before_start_witness :
  Agent.emitted (Agent.collect Fixtures.env0 Samples.readme_agent)
  = [Agent.EvError not_started] /\
  Agent.collectors (Agent.collect Fixtures.env0 Samples.readme_agent)
  = Samples.readme_collectors.
Proof.
  apply (cycle_before_start Fixtures.env0 Samples.readme_agent []
           "cpu" (Provided.Cpu (CpuCollector.new Fixtures.config100))
           [("memory",
             Provided.Memory (MemoryCollector.new Fixtures.config100))]).
  - reflexivity.
  - constructor.
  - reflexivity.
Defined.

(** ** MetricsStream: delivery, batch sizes and whole runs *)

Lemma get_extend st objs r :
  (r < length st)%nat -> Store.get (st ++ objs) r = Store.get st r.
Proof. intros Hr. unfold Store.get. now rewrite lookup_app_l. Qed.

(** The store after the copies of valid references: the old objects, then
    one frozen object per metric with the properties of that metric. *)
Lemma immutable_copies_store metrics st :
  Forall (fun r => (r < length st)%nat) metrics ->
  fst (MetricsStream.immutable_copies metrics st)
  = st ++ map (fun r => Store.mkObj (Store.fields (Store.get st r)) true)
            metrics.
Proof.
  revert st. induction metrics as [|metric rest IH]; intros st Hvalid; simpl.
  - now rewrite app_nil_r.
  - inversion Hvalid as [|? ? Hm Hrest]; subst.
    set (copy := Store.mkObj (Store.fields (Store.get st metric)) true).
    specialize (IH (st ++ [copy])).
    destruct (MetricsStream.immutable_copies rest (st ++ [copy]))
      as [st2 copies].
    simpl in *. rewrite IH.
    + rewrite <- app_assoc. simpl. do 2 f_equal.
      apply map_ext_in. intros r Hr.
      rewrite List.Forall_forall in Hrest.
      now rewrite get_extend by (apply Hrest; assumption).
    + eapply List.Forall_impl; [|exact Hrest].
      intros r Hr. cbv beta in *. rewrite length_app. simpl. lia.
Qed.

Lemma immutable_copies_refs metrics st :
  snd (MetricsStream.immutable_copies metrics st)
  = seq (length st) (length metrics).
Proof.
  destruct (immutable_copies_spec metrics st) as (objs & _ & _ & _ & Hrefs).
  exact Hrefs.
Qed.

Lemma immutable_copies_store_length metrics st :
  length (fst (MetricsStream.immutable_copies metrics st))
  = (length st + length metrics)%nat.
Proof.
  destruct (immutable_copies_spec metrics st) as (objs & Hst & Hlen & _ & _).
  rewrite Hst, length_app. lia.
Qed.

Lemma push_conserves metrics st s :
  concat (MetricsStream.emitted (snd (MetricsStream.push metrics st s)))
  ++ MetricsStream.buffer (snd (MetricsStream.push metrics st s))
  = concat (MetricsStream.emitted s) ++ MetricsStream.buffer s
    ++ seq (length st) (length metrics).
Proof.
  unfold MetricsStream.push, MetricsStream.flush.
  pose proof (immutable_copies_refs metrics st) as Hrefs.
  destruct (MetricsStream.immutable_copies metrics st) as [st' copies].
  simpl in *. subst copies.
  repeat case_if; simpl; try reflexivity.
  rewrite List.concat_app. simpl. now rewrite !app_nil_r.
Qed.

Lemma flush_conserves s :
  concat (MetricsStream.emitted (MetricsStream.flush s))
  ++ MetricsStream.buffer (MetricsStream.flush s)
  = concat (MetricsStream.emitted s) ++ MetricsStream.buffer s.
Proof.
  unfold MetricsStream.flush. case_if; simpl; [|reflexivity].
  rewrite List.concat_app. simpl. now rewrite !app_nil_r.
Qed.

Lemma push_all_conserves batches st s :
  concat (MetricsStream.emitted (snd (MetricsStream.push_all batches st s)))
  ++ MetricsStream.buffer (snd (MetricsStream.push_all batches st s))
  = concat (MetricsStream.emitted s) ++ MetricsStream.buffer s
    ++ seq (length st) (length (concat batches)) /\
  length (fst (MetricsStream.push_all batches st s))
  = (length st + length (concat batches))%nat.
Proof.
  revert st s. induction batches as [|metrics rest IH]; intros st s; simpl.
  - rewrite !app_nil_r. split; [reflexivity | lia].
  - pose proof (push_conserves metrics st s) as Hpush.
    pose proof (push_store metrics st s) as Hstore.
    pose proof (immutable_copies_store_length metrics st) as Hlen.
    destruct (MetricsStream.push metrics st s) as [st' s']; simpl in *.
    subst st'. destruct (IH (fst (MetricsStream.immutable_copies metrics st)) s')
      as [Hc Hl].
    split.
    + rewrite Hc, app_assoc, Hpush, Hlen, length_app, List.seq_app.
      now rewrite <- !app_assoc.
    + rewrite Hl, Hlen, length_app. lia.
Qed.

Lemma push_all_store batches st s :
  Forall (fun r => (r < length st)%nat) (concat batches) ->
  fst (MetricsStream.push_all batches st s)
  = st ++ map (fun r => Store.mkObj (Store.fields (Store.get st r)) true)
            (concat batches).
Proof.
  revert st s. induction batches as [|metrics rest IH]; intros st s Hvalid;
    simpl.
  - now rewrite app_nil_r.
  - simpl in Hvalid. apply Forall_app in Hvalid as [Hm Hrest].
    pose proof (push_store metrics st s) as Hstore.
    destruct (MetricsStream.push metrics st s) as [st' s']; simpl in *.
    subst st'. rewrite immutable_copies_store by assumption.
    rewrite IH.
    + rewrite <- app_assoc, map_app. do 2 f_equal.
      apply map_ext_in. intros r Hr.
      rewrite List.Forall_forall in Hrest.
      now rewrite get_extend by (apply Hrest; assumption).
    + eapply List.Forall_impl; [|exact Hrest].
      intros r Hr. cbv beta in *. rewrite length_app. lia.
Qed.

(** X19. Nothing is lost, doubled or reordered: after any number of
    [push] calls on a stream and a final [flush()], the payloads of the
    ['data'] events emitted since, taken together in order, are what was
    buffered at the beginning followed by one copy for every metric pushed,
    in the order of the pushes; the buffer is empty; and when the pushed
    references are objects of the store, the copies are frozen objects
    with the properties of the metrics pushed, in that order, behind the
    objects the store held before. *)
Theorem pushed_metrics_delivered_once batches st s :
  let pushed := MetricsStream.push_all batches st s in
  let final := MetricsStream.flush (snd pushed) in
  concat (MetricsStream.emitted final)
  = concat (MetricsStream.emitted s) ++ MetricsStream.buffer s
    ++ seq (length st) (length (concat batches)) /\
  MetricsStream.buffer final = [] /\
  (Forall (fun r => (r < length st)%nat) (concat batches) ->
   fst pushed
   = st ++ map (fun r => Store.mkObj (Store.fields (Store.get st r)) true)
             (concat batches)).
Proof.
  cbv zeta. repeat apply conj.
  - destruct (push_all_conserves batches st s) as [Hc _].
    pose proof (flush_conserves (snd (MetricsStream.push_all batches st s)))
      as Hf.
    rewrite Hc in Hf. rewrite <- Hf.
    unfold MetricsStream.flush. case_if; simpl; [now rewrite app_nil_r|].
    apply Nat.ltb_ge in Heqb.
    destruct (MetricsStream.buffer _); [now rewrite app_nil_r|].
    simpl in Heqb. lia.
  - unfold MetricsStream.flush. case_if; simpl; [reflexivity|].
    apply Nat.ltb_ge in Heqb.
    destruct (MetricsStream.buffer _); [reflexivity | simpl in Heqb; lia].
  - apply push_all_store.
Qed.

Lemma pushed_metrics_delivered_once_witness :
  fst (MetricsStream.push_all [[1%nat; 3%nat]; []; [5%nat]] Fixtures.store3
         (MetricsStream.new Fixtures.config3))
  = Fixtures.store3
    ++ map (fun r =>
              Store.mkObj (Store.fields (Store.get Fixtures.store3 r)) true)
         [1%nat; 3%nat; 5%nat].
Proof.
  apply (proj2 (proj2 (pushed_metrics_delivered_once
                         [[1%nat; 3%nat]; []; [5%nat]] Fixtures.store3
                         (MetricsStream.new Fixtures.config3)))).
  simpl. repeat constructor.
Defined.

Lemma get_new_objects st objs :
  map (Store.get (st ++ objs)) (seq (length st) (length objs)) = objs.
Proof.
  revert st. induction objs as [|o objs IH]; intros st; simpl;
    [reflexivity|].
  f_equal.
  - unfold Store.get. now rewrite lookup_app_r, Nat.sub_diag by reflexivity.
  - specialize (IH (st ++ [o])).
    rewrite <- app_assoc, length_app in IH. simpl in IH.
    now replace (length st + 1)%nat with (S (length st)) in IH by lia.
Qed.

Lemma closed_lookup st r o kv :
  Runs.closed st -> st !! r = Some o -> In kv (Store.fields o) ->
  forall objs, Store.see (st ++ objs) (snd kv) = Store.see st (snd kv).
Proof.
  intros Hclosed Hr Hin objs. unfold Runs.closed in Hclosed.
  rewrite List.Forall_forall in Hclosed.
  assert (Ho : In o st)
    by (apply list_elem_of_In; eapply list_elem_of_lookup_2; exact Hr).
  specialize (Hclosed o Ho). rewrite List.Forall_forall in Hclosed.
  specialize (Hclosed kv Hin).
  destruct (snd kv) as [| | |ref]; simpl in *; try reflexivity.
  now rewrite get_extend.
Qed.

(** X20. What a copy reads as: on a store in which every reference held
    by an object names an object of the store, a [push] of metrics of the
    store leaves every object of the store as it is, and the copies it
    buffers read, in order, exactly as the metrics pushed read at the call,
    nested objects included; the store after the push has the same
    property. *)
Theorem push_copies_read_as_originals metrics st s :
  Runs.closed st ->
  Forall (fun r => (r < length st)%nat) metrics ->
  MetricsStream.seen (fst (MetricsStream.push metrics st s))
    (snd (MetricsStream.immutable_copies metrics st))
  = MetricsStream.seen st metrics /\
  (forall r, (r < length st)%nat ->
             fst (MetricsStream.push metrics st s) !! r = st !! r) /\
  Runs.closed (fst (MetricsStream.push metrics st s)).
Proof.
  intros Hclosed Hvalid.
  rewrite push_store, immutable_copies_store, immutable_copies_refs
    by assumption.
  set (objs := map (fun r => Store.mkObj (Store.fields (Store.get st r)) true)
                   metrics).
  assert (Hlen : length objs = length metrics)
    by (unfold objs; apply length_map).
  repeat apply conj.
  - unfold MetricsStream.seen, Store.view.
    rewrite <- Hlen, <- (map_map (Store.get (st ++ objs))
        (fun o => map (fun kv => (fst kv, Store.see (st ++ objs) (snd kv)))
                      (Store.fields o))).
    rewrite get_new_objects. unfold objs. rewrite map_map. simpl.
    apply map_ext_in. intros r Hr.
    rewrite List.Forall_forall in Hvalid. specialize (Hvalid r Hr).
    destruct (st !! r) as [o|] eqn:Ho;
      [|apply lookup_ge_None in Ho; lia].
    unfold Store.get. rewrite Ho.
    apply map_ext_in. intros kv Hkv. f_equal.
    now apply (closed_lookup st r o).
  - intros r Hr. now apply lookup_app_l.
  - unfold Runs.closed. apply Forall_app. split.
    + eapply List.Forall_impl; [|exact Hclosed]. intros o Ho.
      eapply List.Forall_impl; [|exact Ho]. intros kv. cbv beta.
      destruct (snd kv); auto. rewrite length_app. lia.
    + unfold objs. apply List.Forall_forall. intros o Ho.
      apply in_map_iff in Ho as (r & <- & Hr). simpl.
      rewrite List.Forall_forall in Hvalid. specialize (Hvalid r Hr).
      destruct (st !! r) as [o|] eqn:Ho;
        [|apply lookup_ge_None in Ho; lia].
      unfold Store.get. rewrite Ho.
      unfold Runs.closed in Hclosed. rewrite List.Forall_forall in Hclosed.
      assert (Hin : In o st)
        by (apply list_elem_of_In; eapply list_elem_of_lookup_2; exact Ho).
      specialize (Hclosed o Hin).
      eapply List.Forall_impl; [|exact Hclosed]. intros kv. cbv beta.
      destruct (snd kv); auto. rewrite length_app. lia.
Qed.

Lemma store3_closed : Runs.closed Fixtures.store3.
Proof. unfold Runs.closed. repeat constructor. Defined.

Lemma push_copies_read_as_originals_witness :
  MetricsStream.seen
    (fst (MetricsStream.push [1%nat; 5%nat] Fixtures.store3
            (MetricsStream.new Fixtures.config3)))
    (snd (MetricsStream.immutable_copies [1%nat; 5%nat] Fixtures.store3))
  = MetricsStream.seen Fixtures.store3 [1%nat; 5%nat].
Proof.
  apply (push_copies_read_as_originals [1%nat; 5%nat] Fixtures.store3
           (MetricsStream.new Fixtures.config3)).
  - apply store3_closed.
  - simpl. repeat constructor.
Defined.

(** X21. Batches of exactly the capacity: when metrics are pushed one per
    call on a stream of capacity C > 0 whose buffer holds fewer than C,
    every ['data'] event emitted carries exactly C metrics; with b metrics
    buffered before and n pushed, (b + n) div C events are emitted and
    (b + n) mod C metrics stay buffered. *)
Theorem one_at_a_time_batches ms st s :
  0 < Config.metricsBufferSize (MetricsStream.config s) ->
  Z.of_nat (length (MetricsStream.buffer s))
    < Config.metricsBufferSize (MetricsStream.config s) ->
  exists batches,
    MetricsStream.emitted
      (snd (MetricsStream.push_all (map (fun m => [m]) ms) st s))
    = MetricsStream.emitted s ++ batches /\
    Forall (fun batch =>
              Z.of_nat (length batch)
              = Config.metricsBufferSize (MetricsStream.config s)) batches /\
    Z.of_nat (length batches)
    = (Z.of_nat (length (MetricsStream.buffer s)) + Z.of_nat (length ms))
      / Config.metricsBufferSize (MetricsStream.config s) /\
    Z.of_nat
      (length (MetricsStream.buffer
                 (snd (MetricsStream.push_all (map (fun m => [m]) ms) st s))))
    = (Z.of_nat (length (MetricsStream.buffer s)) + Z.of_nat (length ms))
      mod Config.metricsBufferSize (MetricsStream.config s).
Proof.
  revert st s. induction ms as [|m ms IH]; intros st s Hpos Hbelow.
  - exists []. simpl. rewrite app_nil_r, Z.add_0_r.
    repeat split; [constructor | |].
    + now rewrite Z.div_small by lia.
    + now rewrite Z.mod_small by lia.
  - simpl map. simpl MetricsStream.push_all.
    pose proof (push_config [m] st s) as Hcfg.
    destruct (Z_lt_le_dec
                (Z.of_nat (length (MetricsStream.buffer s) + length [m]))
                (Config.metricsBufferSize (MetricsStream.config s)))
      as [Hlt|Hge].
    + pose proof (push_below [m] st s Hlt) as Hpush.
      destruct (MetricsStream.push [m] st s) as [st1 s1].
      injection Hpush as -> ->. simpl in Hcfg.
      destruct (IH (fst (MetricsStream.immutable_copies [m] st))
                  (MetricsStream.mk (MetricsStream.config s)
                     (MetricsStream.buffer s
                      ++ snd (MetricsStream.immutable_copies [m] st))
                     (MetricsStream.emitted s)))
        as (batches & Hev & Hall & Hn & Hb); simpl.
      * exact Hpos.
      * rewrite length_app. simpl in *. lia.
      * simpl in *. exists batches. rewrite length_app in Hn, Hb.
        simpl in Hn, Hb.
        replace (Z.of_nat (length (MetricsStream.buffer s))
                 + Z.of_nat (S (length ms)))
          with (Z.of_nat (length (MetricsStream.buffer s) + 1)
                + Z.of_nat (length ms)) by lia.
        auto.
    + pose proof (push_reaching [m] st s Hpos Hge) as Hpush.
      destruct (MetricsStream.push [m] st s) as [st1 s1].
      injection Hpush as -> ->. simpl in Hcfg.
      destruct (IH (fst (MetricsStream.immutable_copies [m] st))
                  (MetricsStream.mk (MetricsStream.config s) []
                     (MetricsStream.emitted s
                      ++ [MetricsStream.buffer s
                          ++ snd (MetricsStream.immutable_copies [m] st)])))
        as (batches & Hev & Hall & Hn & Hb); simpl.
      * exact Hpos.
      * exact Hpos.
      * simpl in *.
        assert (Hfull : Z.of_nat (length (MetricsStream.buffer s)) + 1
                        = Config.metricsBufferSize (MetricsStream.config s))
          by lia.
        change (Z.of_nat 0) with 0 in Hn, Hb. rewrite Z.add_0_l in Hn, Hb.
        exists ((MetricsStream.buffer s ++ [length st]) :: batches).
        repeat split.
        -- rewrite Hev, <- app_assoc. reflexivity.
        -- constructor; [|assumption]. rewrite length_app. simpl. lia.
        -- simpl length. rewrite Nat2Z.inj_succ, Hn.
           replace (Z.of_nat (length (MetricsStream.buffer s))
                    + Z.of_nat (S (length ms)))
             with (1 * Config.metricsBufferSize (MetricsStream.config s)
                   + Z.of_nat (length ms)) by lia.
           rewrite Z.div_add_l by lia. lia.
        -- rewrite Hb.
           replace (Z.of_nat (length (MetricsStream.buffer s))
                    + Z.of_nat (S (length ms)))
             with (Z.of_nat (length ms)
                   + 1 * Config.metricsBufferSize (MetricsStream.config s))
             by lia.
           now rewrite Z_mod_plus_full.
Qed.

Lemma one_at_a_time_batches_witness :
  exists batches,
    MetricsStream.emitted
      (snd (MetricsStream.push_all
              (map (fun m => [m]) [1%nat; 3%nat; 5%nat; 1%nat; 3%nat])
              Fixtures.store3 (MetricsStream.new Fixtures.config3)))
    = batches /\
    Forall (fun batch => Z.of_nat (length batch) = 3) batches /\
    Z.of_nat (length batches) = 1 /\
    Z.of_nat
      (length (MetricsStream.buffer
                 (snd (MetricsStream.push_all
                         (map (fun m => [m])
                              [1%nat; 3%nat; 5%nat; 1%nat; 3%nat])
                         Fixtures.store3
                         (MetricsStream.new Fixtures.config3)))))
    = 2.
Proof.
  apply (one_at_a_time_batches [1%nat; 3%nat; 5%nat; 1%nat; 3%nat]
           Fixtures.store3 (MetricsStream.new Fixtures.config3));
    simpl; lia.
Defined.

Lemma stream_inv_new cfg st :
  0 < Config.metricsBufferSize cfg ->
  Runs.stream_inv cfg st (MetricsStream.new cfg).
Proof.
  intros Hpos. unfold Runs.stream_inv, MetricsStream.new,
    MetricsStream.frozen_refs. simpl.
  repeat split; auto.
Qed.

Lemma frozen_payloads_extend st objs payloads :
  Forall (MetricsStream.frozen_refs st) payloads ->
  Forall (MetricsStream.frozen_refs (st ++ objs)) payloads.
Proof.
  apply List.Forall_impl. intros payload. apply frozen_refs_extend.
Qed.

(** Every call keeps the invariant and only appends to the store. *)
Lemma stream_step_inv op cfg st s :
  0 < Config.metricsBufferSize cfg ->
  Runs.stream_inv cfg st s ->
  Runs.stream_inv cfg (fst (Runs.stream_step op st s))
    (snd (Runs.stream_step op st s)) /\
  exists objs, fst (Runs.stream_step op st s) = st ++ objs.
Proof.
  intros Hpos (Hcfg & Hlt & Hne & Hbuf & Hev).
  destruct op as [metrics| |]; simpl.
  - destruct (frozen_refs_push metrics st s Hbuf) as [Hall Hbuf'].
    destruct (immutable_copies_spec metrics st)
      as (objs & Hst & Hlen & _ & Hrefs).
    pose proof (push_store metrics st s) as Hstore.
    rewrite Hst in Hstore.
    split; [|exists objs; exact Hstore].
    unfold Runs.stream_inv. rewrite push_config.
    split; [exact Hcfg|].
    destruct (Z_lt_le_dec
                (Z.of_nat (length (MetricsStream.buffer s) + length metrics))
                (Config.metricsBufferSize (MetricsStream.config s)))
      as [Hbelow|Hreach].
    + rewrite push_below in * by assumption. simpl in *.
      repeat split.
      * rewrite length_app, Hrefs, length_seq. now rewrite <- Hcfg.
      * exact Hne.
      * exact Hbuf'.
      * rewrite Hst. now apply frozen_payloads_extend.
    + rewrite push_reaching in * by (try assumption; now rewrite Hcfg).
      simpl in *. repeat split.
      * exact Hpos.
      * apply Forall_app. split; [exact Hne|].
        constructor; [|constructor].
        intros Hnil. apply (f_equal (@length _)) in Hnil.
        rewrite length_app, Hrefs, length_seq in Hnil. simpl in Hnil.
        rewrite Hcfg in Hreach. lia.
      * constructor.
      * apply Forall_app. split.
        -- rewrite Hst. now apply frozen_payloads_extend.
        -- constructor; [exact Hall|constructor].
  - split; [|exists []; now rewrite app_nil_r].
    destruct (MetricsStream.buffer s) as [|r rest] eqn:Hb.
    + rewrite flush_empty by assumption.
      unfold Runs.stream_inv. rewrite Hb. auto.
    + rewrite flush_nonempty by (rewrite Hb; discriminate).
      unfold Runs.stream_inv. simpl. repeat split; auto.
      * apply Forall_app. split; [exact Hne|].
        constructor; [|constructor]. rewrite Hb. discriminate.
      * constructor.
      * apply Forall_app. split; [exact Hev|].
        constructor; [|constructor]. now rewrite Hb.
  - split; [|exists []; now rewrite app_nil_r].
    unfold Runs.stream_inv, MetricsStream.clear. simpl.
    repeat split; auto. constructor.
Qed.

Lemma stream_run_inv ops cfg st s :
  0 < Config.metricsBufferSize cfg ->
  Runs.stream_inv cfg st s ->
  Runs.stream_inv cfg (fst (Runs.stream_run ops st s))
    (snd (Runs.stream_run ops st s)) /\
  exists objs, fst (Runs.stream_run ops st s) = st ++ objs.
Proof.
  intros Hpos. revert st s.
  induction ops as [|op rest IH]; intros st s Hinv; simpl.
  - split; [exact Hinv|]. exists []. now rewrite app_nil_r.
  - destruct (stream_step_inv op cfg st s Hpos Hinv)
      as (Hinv1 & objs1 & Hst1).
    destruct (Runs.stream_step op st s) as [st1 s1]. simpl in *.
    destruct (IH st1 s1 Hinv1) as (Hinv2 & objs2 & Hst2).
    split; [exact Hinv2|].
    exists (objs1 ++ objs2). now rewrite Hst2, Hst1, <- app_assoc.
Qed.

(** X22. Whatever calls of [push], [flush] and [clear] are made on a stream
    built with a positive capacity: its configuration stays the one given,
    the buffer holds fewer metrics than the capacity after every call, no
    ['data'] event carries an empty array, every metric buffered or
    delivered is a frozen object, so that a write to one of its properties
    is rejected and changes nothing, and the objects that existed before are
    left as they were. *)
Theorem stream_calls_invariant ops cfg st :
  0 < Config.metricsBufferSize cfg ->
  MetricsStream.config
    (snd (Runs.stream_run ops st (MetricsStream.new cfg))) = cfg /\
  Z.of_nat
    (length (MetricsStream.buffer
               (snd (Runs.stream_run ops st (MetricsStream.new cfg)))))
    < Config.metricsBufferSize cfg /\
  Forall (fun payload => payload <> [])
    (MetricsStream.emitted
       (snd (Runs.stream_run ops st (MetricsStream.new cfg)))) /\
  (forall r k v,
      In r (MetricsStream.buffer
              (snd (Runs.stream_run ops st (MetricsStream.new cfg))))
      \/ (exists payload,
            In payload
              (MetricsStream.emitted
                 (snd (Runs.stream_run ops st (MetricsStream.new cfg))))
            /\ In r payload) ->
      Store.assign r k v
        (fst (Runs.stream_run ops st (MetricsStream.new cfg)))
      = (fst (Runs.stream_run ops st (MetricsStream.new cfg)),
         Throw (mkError "TypeError"))) /\
  exists objs,
    fst (Runs.stream_run ops st (MetricsStream.new cfg)) = st ++ objs.
Proof.
  intros Hpos.
  destruct (stream_run_inv ops cfg st (MetricsStream.new cfg) Hpos
              (stream_inv_new cfg st Hpos))
    as ((Hcfg & Hlt & Hne & Hbuf & Hev) & Hst).
  repeat split; try assumption.
  intros r k v Hin.
  assert (Hfrozen : exists o,
             fst (Runs.stream_run ops st (MetricsStream.new cfg)) !! r
             = Some o /\ Store.frozen o = true).
  { destruct Hin as [Hin|(payload & Hp & Hin)].
    - unfold MetricsStream.frozen_refs in Hbuf.
      rewrite List.Forall_forall in Hbuf. now apply Hbuf.
    - rewrite List.Forall_forall in Hev. specialize (Hev payload Hp).
      unfold MetricsStream.frozen_refs in Hev.
      rewrite List.Forall_forall in Hev. now apply Hev. }
  destruct Hfrozen as (o & Hr & Hf). now apply (assign_frozen _ _ o).
Qed.

Lemma stream_calls_invariant_witness :
  MetricsStream.config
    (snd (Runs.stream_run
          [Runs.Push [1%nat; 3%nat]; Runs.Flush; Runs.Push [5%nat];
           Runs.Clear; Runs.Push [1%nat; 3%nat; 5%nat; 1%nat]]
          Fixtures.store3 (MetricsStream.new Fixtures.config3))) = Fixtures.config3 /\
  Z.of_nat
    (length (MetricsStream.buffer
       (snd (Runs.stream_run
          [Runs.Push [1%nat; 3%nat]; Runs.Flush; Runs.Push [5%nat];
           Runs.Clear; Runs.Push [1%nat; 3%nat; 5%nat; 1%nat]]
          Fixtures.store3 (MetricsStream.new Fixtures.config3)))))
    < Config.metricsBufferSize Fixtures.config3 /\
  Forall (fun payload => payload <> [])
    (MetricsStream.emitted
       (snd (Runs.stream_run
          [Runs.Push [1%nat; 3%nat]; Runs.Flush; Runs.Push [5%nat];
           Runs.Clear; Runs.Push [1%nat; 3%nat; 5%nat; 1%nat]]
          Fixtures.store3 (MetricsStream.new Fixtures.config3)))) /\
  (forall r k v,
      In r (MetricsStream.buffer
        (snd (Runs.stream_run
          [Runs.Push [1%nat; 3%nat]; Runs.Flush; Runs.Push [5%nat];
           Runs.Clear; Runs.Push [1%nat; 3%nat; 5%nat; 1%nat]]
          Fixtures.store3 (MetricsStream.new Fixtures.config3))))
      \/ (exists payload,
            In payload
              (MetricsStream.emitted
                 (snd (Runs.stream_run
          [Runs.Push [1%nat; 3%nat]; Runs.Flush; Runs.Push [5%nat];
           Runs.Clear; Runs.Push [1%nat; 3%nat; 5%nat; 1%nat]]
          Fixtures.store3 (MetricsStream.new Fixtures.config3))))
            /\ In r payload) ->
      Store.assign r k v
        (fst (Runs.stream_run
          [Runs.Push [1%nat; 3%nat]; Runs.Flush; Runs.Push [5%nat];
           Runs.Clear; Runs.Push [1%nat; 3%nat; 5%nat; 1%nat]]
          Fixtures.store3 (MetricsStream.new Fixtures.config3)))
      = (fst (Runs.stream_run
          [Runs.Push [1%nat; 3%nat]; Runs.Flush; Runs.Push [5%nat];
           Runs.Clear; Runs.Push [1%nat; 3%nat; 5%nat; 1%nat]]
          Fixtures.store3 (MetricsStream.new Fixtures.config3)),
         Throw (mkError "TypeError"))) /\
  exists objs,
    fst (Runs.stream_run
          [Runs.Push [1%nat; 3%nat]; Runs.Flush; Runs.Push [5%nat];
           Runs.Clear; Runs.Push [1%nat; 3%nat; 5%nat; 1%nat]]
          Fixtures.store3 (MetricsStream.new Fixtures.config3)) = Fixtures.store3 ++ objs.
Proof.
  apply (stream_calls_invariant
           [Runs.Push [1%nat; 3%nat]; Runs.Flush; Runs.Push [5%nat];
            Runs.Clear; Runs.Push [1%nat; 3%nat; 5%nat; 1%nat]]
           Fixtures.config3 Fixtures.store3).
  simpl. lia.
Defined.

(** ** Calls of [start()] taken turn by turn *)

Lemma find_app_found {A} (f : A -> bool) (l l' : list A) x :
  List.find f l = Some x -> List.find f (l ++ l') = Some x.
Proof.
  induction l as [|y l IH]; simpl; [discriminate|].
  destruct (f y); [trivial | exact IH].
Qed.

Lemma arm_iter_next cfg k tm :
  Timers.next_handle (Nat.iter k (Process.arm cfg) tm)
  = (Timers.next_handle tm + k)%nat.
Proof.
  induction k as [|k IH]; simpl; [lia|]. rewrite IH. lia.
Qed.

Lemma arm_wf cfg tm : Timers.wf tm -> Timers.wf (Process.arm cfg tm).
Proof. apply wf_setInterval. Qed.

Lemma count_settled_all pool :
  Forall Process.settled pool ->
  Process.count_settled pool = length pool.
Proof.
  induction 1 as [|p rest Hp _ IH]; simpl; [reflexivity|].
  destruct p; [destruct Hp | now rewrite IH].
Qed.

Lemma count_settled_goes_on pool j k k' :
  pool !! j = Some (Process.Suspended k) ->
  Process.count_settled (<[j := Process.Suspended k']> pool)
  = Process.count_settled pool.
Proof.
  revert j. induction pool as [|p rest IH]; intros [|j]; simpl;
    try discriminate.
  - now intros [= ->].
  - intros Hj. destruct p; simpl; now rewrite (IH j).
Qed.

Lemma count_settled_settles pool j k r :
  pool !! j = Some (Process.Suspended k) ->
  Process.count_settled (<[j := Process.Settled r]> pool)
  = S (Process.count_settled pool).
Proof.
  revert j. induction pool as [|p rest IH]; intros [|j]; simpl;
    try discriminate.
  - now intros [= ->].
  - intros Hj. destruct p; simpl; now rewrite (IH j).
Qed.

Section Overlap.
Context {C : Type} `{Collector.Impl C}.

Lemma await_start_step n env tm (a : Agent.t C) k :
  Process.await_start (S n) env (tm, a, Process.Suspended k)
  = Process.await_start n env (Process.start_turn env k tm a).
Proof. reflexivity. Qed.

(** The turns of a call from position [length done] on are the rest of the
    loop of [Agent.start]. *)
Lemma await_from env tm (a : Agent.t C) done rest :
  Agent.collectors a = done ++ rest ->
  Process.await_start (S (length rest)) env
    (tm, a, Process.Suspended (Process.AtLoop (length done)))
  = match Agent.for_each (Collector.start env) rest with
    | (cs, Ok _) =>
        (Process.arm (Agent.config a) tm,
         Agent.mk (Agent.config a) (done ++ cs) true
           (Some (Timers.next_handle tm)) (Agent.emitted a),
         Process.Settled (Ok tt))
    | (cs, Throw _) =>
        (tm,
         Agent.mk (Agent.config a) (done ++ cs) false
           (Agent.collectionInterval a) (Agent.emitted a),
         Process.Settled (Throw (mkError "Start failed")))
    end.
Proof.
  revert done a. induction rest as [|[name c] rest IH]; intros done a Hcs.
  - simpl. rewrite Hcs, app_nil_r.
    rewrite lookup_ge_None_2 by lia. reflexivity.
  - cbn [length]. rewrite await_start_step.
    unfold Process.start_turn at 1.
    rewrite Hcs, list_lookup_middle by reflexivity.
    cbn [Agent.for_each].
    destruct (Collector.start env c) as [c' [[]|e]].
    + rewrite insert_app_r_alt, Nat.sub_diag by lia. simpl insert.
      replace (S (length done)) with (length (done ++ [(name, c')]))
        by (rewrite length_app; simpl; lia).
      rewrite IH by (simpl; now rewrite <- app_assoc).
      destruct (Agent.for_each (Collector.start env) rest) as [cs [[]|e]];
        simpl; now rewrite <- app_assoc.
    + rewrite insert_app_r_alt, Nat.sub_diag by lia. simpl insert.
      rewrite await_start_step. simpl. now destruct rest.
Qed.

(** X23. An awaited [start()], taken turn by turn, ends as [Agent.start]
    says: the call followed by as many resumptions as there are collectors
    has settled, with the timers, the Agent and the result of
    [Agent.start]. *)
Theorem start_awaited env tm (a : Agent.t C) :
  Process.await_start (length (Agent.collectors a)) env
    (Process.start_call env tm a)
  = (fst (fst (Agent.start env tm a)), snd (fst (Agent.start env tm a)),
     Process.Settled (snd (Agent.start env tm a))).
Proof.
  unfold Process.start_call, Agent.start.
  destruct (Agent.isRunning a) eqn:Hrun.
  - now destruct (length (Agent.collectors a)).
  - pose proof (await_from env tm a [] (Agent.collectors a) eq_refl) as Hturns.
    cbn [Process.await_start length] in Hturns. rewrite Hturns.
    destruct (Agent.for_each (Collector.start env) (Agent.collectors a))
      as [cs [[]|e]]; reflexivity.
Qed.

(** A call of [start()] on an Agent that is not running and has a
    collector is suspended after the first collector, with the flag still
    false. *)
Lemma call_start_suspends env tm (a : Agent.t C) pool :
  Agent.isRunning a = false ->
  Agent.collectors a <> [] ->
  (forall c, snd (Collector.start env c) = Ok tt) ->
  exists a',
    Process.call_start env (tm, a, pool)
    = (tm, a', pool ++ [Process.Suspended (Process.AtLoop 1)]) /\
    Agent.isRunning a' = false /\
    Agent.config a' = Agent.config a /\
    Agent.emitted a' = Agent.emitted a /\
    length (Agent.collectors a') = length (Agent.collectors a).
Proof.
  intros Hrun Hcs Hstart.
  unfold Process.call_start, Process.start_call, Process.start_turn.
  rewrite Hrun.
  destruct (Agent.collectors a) as [|[name c] rest] eqn:Ha; [easy|].
  simpl. specialize (Hstart c).
  destruct (Collector.start env c) as [c' r]. simpl in Hstart. subst r.
  eexists. split; [reflexivity|]. simpl. auto.
Qed.

(** What holds while calls of [start()] that passed the guard are resumed,
    when no collector's [start()] throws: every call is in the loop or has
    returned, and one timer has been armed for each call that returned. *)
Lemma resume_keeps env cfg tm0 j tm (a : Agent.t C) pool :
  (forall c, snd (Collector.start env c) = Ok tt) ->
  Agent.config a = cfg ->
  Forall (fun p => (exists i, p = Process.Suspended (Process.AtLoop i))
                   \/ p = Process.Settled (Ok tt)) pool ->
  tm = Nat.iter (Process.count_settled pool) (Process.arm cfg) tm0 ->
  ((0 < Process.count_settled pool)%nat ->
     Agent.isRunning a = true /\
     Agent.collectionInterval a
     = Some (Timers.next_handle tm0 + Process.count_settled pool - 1)%nat) ->
  let s' := Process.resume env j (tm, a, pool) in
  Agent.config (snd (fst s')) = cfg /\
  Forall (fun p => (exists i, p = Process.Suspended (Process.AtLoop i))
                   \/ p = Process.Settled (Ok tt)) (snd s') /\
  fst (fst s')
  = Nat.iter (Process.count_settled (snd s')) (Process.arm cfg) tm0 /\
  ((0 < Process.count_settled (snd s'))%nat ->
     Agent.isRunning (snd (fst s')) = true /\
     Agent.collectionInterval (snd (fst s'))
     = Some (Timers.next_handle tm0
             + Process.count_settled (snd s') - 1)%nat) /\
  Agent.emitted (snd (fst s')) = Agent.emitted a /\
  length (snd s') = length pool.
Proof.
  intros Hstart Hcfg Hpool Htm Hrun. cbv zeta. unfold Process.resume.
  destruct (pool !! j) as [[k|r]|] eqn:Hj; simpl;
    try (repeat split; auto; apply Hrun; assumption).
  assert (Hk : exists i, k = Process.AtLoop i).
  { rewrite List.Forall_forall in Hpool.
    destruct (Hpool (Process.Suspended k)) as [[i Hi]|Hi].
    - apply list_elem_of_In. eapply list_elem_of_lookup_2. exact Hj.
    - exists i. now injection Hi.
    - discriminate. }
  destruct Hk as [i ->]. unfold Process.start_turn.
  destruct (Agent.collectors a !! i) as [[name c]|] eqn:Hi.
  - specialize (Hstart c).
    destruct (Collector.start env c) as [c' r]. simpl in Hstart. subst r.
    simpl. rewrite (count_settled_goes_on pool j _ _ Hj).
    repeat split; auto.
    + apply Forall_insert; [exact Hpool|]. left. now eexists.
    + now apply Hrun.
    + now apply Hrun.
    + now rewrite length_insert.
  - simpl. rewrite (count_settled_settles pool j _ _ Hj).
    repeat split; auto.
    + apply Forall_insert; [exact Hpool|]. now right.
    + simpl. now rewrite <- Htm, Hcfg.
    + rewrite Htm, arm_iter_next. f_equal. lia.
    + now rewrite length_insert.
Qed.

Lemma resume_all_keeps env cfg tm0 schedule tm (a : Agent.t C) pool :
  (forall c, snd (Collector.start env c) = Ok tt) ->
  Agent.config a = cfg ->
  Forall (fun p => (exists i, p = Process.Suspended (Process.AtLoop i))
                   \/ p = Process.Settled (Ok tt)) pool ->
  tm = Nat.iter (Process.count_settled pool) (Process.arm cfg) tm0 ->
  ((0 < Process.count_settled pool)%nat ->
     Agent.isRunning a = true /\
     Agent.collectionInterval a
     = Some (Timers.next_handle tm0 + Process.count_settled pool - 1)%nat) ->
  let s' := Process.resume_all env schedule (tm, a, pool) in
  Agent.config (snd (fst s')) = cfg /\
  fst (fst s')
  = Nat.iter (Process.count_settled (snd s')) (Process.arm cfg) tm0 /\
  ((0 < Process.count_settled (snd s'))%nat ->
     Agent.isRunning (snd (fst s')) = true /\
     Agent.collectionInterval (snd (fst s'))
     = Some (Timers.next_handle tm0
             + Process.count_settled (snd s') - 1)%nat) /\
  Agent.emitted (snd (fst s')) = Agent.emitted a /\
  length (snd s') = length pool.
Proof.
  intros Hstart. revert tm a pool.
  induction schedule as [|j rest IH]; intros tm a pool Hcfg Hpool Htm Hrun;
    cbv zeta; cbn [Process.resume_all].
  - simpl. auto.
  - destruct (resume_keeps env cfg tm0 j tm a pool Hstart Hcfg Hpool Htm Hrun)
      as (Hcfg1 & Hpool1 & Htm1 & Hrun1 & Hev1 & Hlen1).
    destruct (Process.resume env j (tm, a, pool)) as [[tm1 a1] pool1].
    simpl in *.
    destruct (IH tm1 a1 pool1 Hcfg1 Hpool1 Htm1 Hrun1)
      as (Hcfg2 & Htm2 & Hrun2 & Hev2 & Hlen2).
    repeat split; try assumption; try (now apply Hrun2).
    + now rewrite Hev2.
    + now rewrite Hlen2.
Qed.

(** A turn of a call that is in the loop: at a collector, whose [start()]
    returns, and past the last collector. *)
Lemma resume_in_loop env j tm (a : Agent.t C) pool i name c :
  pool !! j = Some (Process.Suspended (Process.AtLoop i)) ->
  Agent.collectors a !! i = Some (name, c) ->
  snd (Collector.start env c) = Ok tt ->
  Process.resume env j (tm, a, pool)
  = (tm,
     Agent.mk (Agent.config a)
       (<[i := (name, fst (Collector.start env c))]> (Agent.collectors a))
       (Agent.isRunning a) (Agent.collectionInterval a) (Agent.emitted a),
     <[j := Process.Suspended (Process.AtLoop (S i))]> pool).
Proof.
  intros Hj Hi Hc. unfold Process.resume, Process.start_turn.
  rewrite Hj, Hi.
  destruct (Collector.start env c) as [c' r]. simpl in Hc. now subst r.
Qed.

Lemma resume_at_end env j tm (a : Agent.t C) pool i :
  pool !! j = Some (Process.Suspended (Process.AtLoop i)) ->
  Agent.collectors a !! i = None ->
  Process.resume env j (tm, a, pool)
  = (Process.arm (Agent.config a) tm,
     Agent.mk (Agent.config a) (Agent.collectors a) true
       (Some (Timers.next_handle tm)) (Agent.emitted a),
     <[j := Process.Settled (Ok tt)]> pool).
Proof.
  intros Hj Hi. unfold Process.resume, Process.start_turn.
  now rewrite Hj, Hi.
Qed.

(** Two calls that are at the same position of the loop and are resumed
    in turn both return. *)
Lemma in_turn_settles env d : forall i tm (a : Agent.t C),
  (forall c, snd (Collector.start env c) = Ok tt) ->
  (length (Agent.collectors a) - i = d)%nat ->
  Forall Process.settled
    (snd (Process.resume_all env (Process.in_turn (S d))
            (tm, a, [Process.Suspended (Process.AtLoop i);
                     Process.Suspended (Process.AtLoop i)]))).
Proof.
  induction d as [|d IH]; intros i tm a Hstart Hd.
  - change (Process.in_turn 1) with [0%nat; 1%nat].
    cbn [Process.resume_all].
    rewrite (resume_at_end env 0 tm a _ i)
      by (try reflexivity; apply lookup_ge_None_2; lia).
    rewrite (resume_at_end env 1 _ _ _ i)
      by (try reflexivity; apply lookup_ge_None_2; simpl; lia).
    repeat constructor.
  - change (Process.in_turn (S (S d)))
      with (0%nat :: 1%nat :: Process.in_turn (S d)).
    cbn [Process.resume_all].
    destruct (lookup_lt_is_Some_2 (Agent.collectors a) i) as [[name c] Hi];
      [lia|].
    rewrite (resume_in_loop env 0 tm a _ i name c)
      by (try reflexivity; auto).
    rewrite (resume_in_loop env 1 _ _ _ i name (fst (Collector.start env c)))
      by (try reflexivity; auto; simpl;
          apply list_lookup_insert_eq; apply lookup_lt_Some in Hi; lia).
    cbn [insert list_insert].
    apply IH; [exact Hstart|].
    cbn [Agent.collectors]. rewrite !length_insert. lia.
Qed.

(** X24. Calls of [start()] that overlap arm a timer each.  On an Agent
    that is not running and has a collector, with collectors whose
    [start()] does not throw (and, as everywhere in [Agent], arms no timer
    of the runtime) and timers handed out in increasing order: a
    second [start()] called before the first has returned passes the guard
    as well, since the running flag is set only after the loop, and both
    calls are suspended in the loop.  Resumed in turn, both return.  Once
    both have returned, in whatever order the runtime resumed them, two
    timers of the collection cycle are armed, the Agent is running, it
    holds the handle of the second timer only and has emitted nothing.  An
    awaited [stop()] during which every collector stops then returns and
    leaves the Agent not running, but clears the second timer only: the
    first stays armed, and when it fires a collection cycle runs on the
    stopped Agent. *)
Theorem overlapping_starts env env' schedule tm (a : Agent.t C) :
  Timers.wf tm ->
  Agent.isRunning a = false ->
  Agent.collectors a <> [] ->
  (forall c, snd (Collector.start env c) = Ok tt) ->
  let first :=
    Timers.mkEntry (Timers.next_handle tm) Timers.CbAgentCollect
      (Config.sampleInterval (Agent.config a)) in
  let second :=
    Timers.mkEntry (S (Timers.next_handle tm)) Timers.CbAgentCollect
      (Config.sampleInterval (Agent.config a)) in
  let made := Process.call_start env (Process.call_start env (tm, a, [])) in
  let s := Process.resume_all env schedule made in
  snd made = [Process.Suspended (Process.AtLoop 1);
              Process.Suspended (Process.AtLoop 1)] /\
  fst (fst made) = tm /\
  Agent.isRunning (snd (fst made)) = false /\
  Forall Process.settled
    (snd (Process.resume_all env
            (Process.in_turn (length (Agent.collectors a))) made)) /\
  (Forall Process.settled (snd s) ->
     Timers.armed (fst (fst s)) = Timers.armed tm ++ [first; second] /\
     Agent.isRunning (snd (fst s)) = true /\
     Agent.collectionInterval (snd (fst s))
     = Some (S (Timers.next_handle tm)) /\
     Agent.emitted (snd (fst s)) = Agent.emitted a /\
     (Forall (Agent.succeeds (Collector.stop env'))
             (Agent.collectors (snd (fst s))) ->
        snd (Agent.stop env' (fst (fst s)) (snd (fst s))) = Ok tt /\
        Agent.isRunning
          (snd (fst (Agent.stop env' (fst (fst s)) (snd (fst s))))) = false /\
        Timers.armed (fst (fst (Agent.stop env' (fst (fst s)) (snd (fst s)))))
        = Timers.armed tm ++ [first] /\
        forall env'',
          Agent.fire env'' (Timers.next_handle tm)
            (fst (fst (Agent.stop env' (fst (fst s)) (snd (fst s)))))
            (snd (fst (Agent.stop env' (fst (fst s)) (snd (fst s)))))
          = Agent.collect env''
              (snd (fst (Agent.stop env' (fst (fst s)) (snd (fst s))))))).
Proof.
  intros Hwf Hrun Hcs Hstart first second made s.
  destruct (call_start_suspends env tm a [] Hrun Hcs Hstart)
    as (a1 & Hcall1 & Hrun1 & Hcfg1 & Hev1 & Hlen1).
  assert (Hcs1 : Agent.collectors a1 <> []).
  { intros Hnil. apply Hcs. apply length_zero_iff_nil.
    now rewrite <- Hlen1, Hnil. }
  destruct (call_start_suspends env tm a1
              [Process.Suspended (Process.AtLoop 1)] Hrun1 Hcs1 Hstart)
    as (a2 & Hcall2 & Hrun2 & Hcfg2 & Hev2 & Hlen2).
  assert (Hmade : made = (tm, a2, [Process.Suspended (Process.AtLoop 1);
                                   Process.Suspended (Process.AtLoop 1)])).
  { unfold made. rewrite app_nil_l in Hcall1. now rewrite Hcall1, Hcall2. }
  assert (Hlen : length (Agent.collectors a)
                 = S (length (Agent.collectors a2) - 1)).
  { rewrite Hlen2, Hlen1.
    destruct (Agent.collectors a); [easy | simpl; lia]. }
  repeat apply conj; try (rewrite Hmade; easy).
  - rewrite Hmade, Hlen. now apply in_turn_settles.
  - intros Hdone. subst s. rewrite Hmade in *.
    destruct (resume_all_keeps env (Agent.config a) tm schedule tm a2
                [Process.Suspended (Process.AtLoop 1);
                 Process.Suspended (Process.AtLoop 1)] Hstart)
      as (_ & Htm & Hflag & Hev & Hpool);
      [congruence
      | constructor; [left; now eexists
                     | constructor; [left; now eexists | constructor]]
      | reflexivity | simpl; lia |].
    rewrite (count_settled_all _ Hdone), Hpool in Htm, Hflag.
    simpl length in Htm, Hflag. destruct Hflag as [Hrun' Hci]; [lia|].
    replace (Timers.next_handle tm + 2 - 1)%nat
      with (S (Timers.next_handle tm)) in Hci by lia.
    set (tm2 := fst (fst (Process.resume_all env schedule
                            (tm, a2, [Process.Suspended (Process.AtLoop 1);
                                      Process.Suspended (Process.AtLoop 1)]))))
      in *.
    set (a' := snd (fst (Process.resume_all env schedule
                           (tm, a2, [Process.Suspended (Process.AtLoop 1);
                                     Process.Suspended (Process.AtLoop 1)]))))
      in *.
    assert (Harmed : Timers.armed tm2 = Timers.armed tm ++ [first; second]).
    { rewrite Htm. simpl. now rewrite <- app_assoc. }
    repeat apply conj; try assumption; try congruence.
    intros Hstop. rewrite (stop_succeeds env' tm2 a' Hrun' Hstop), Hci. simpl.
    assert (Hleft : Timers.armed (Timers.clearInterval
                                    (S (Timers.next_handle tm)) tm2)
                    = Timers.armed tm ++ [first]).
    { unfold Timers.clearInterval. simpl. rewrite Harmed.
      change (Timers.armed tm ++ [first; second])
        with (Timers.armed tm ++ [first] ++ [second]).
      rewrite app_assoc, List.filter_app. simpl.
      rewrite Nat.eqb_refl. simpl. rewrite app_nil_r.
      apply (clear_fresh_handle (Process.arm (Agent.config a) tm)).
      now apply arm_wf. }
    repeat apply conj; try reflexivity; try assumption.
    intros env''.
    apply (fire_agent_timer env'' _ _ _ first); [|reflexivity].
    pose proof (find_setInterval Timers.CbAgentCollect
                  (Config.sampleInterval (Agent.config a)) tm Hwf) as Hfind.
    unfold Timers.find in *. rewrite Hleft. exact Hfind.
Qed.

End Overlap.

Lemma start_never_throws env (c : Provided.t) :
  snd (Collector.start env c) = Ok tt.
Proof.
  destruct c as [[cfg snaps run]|[cfg run usage stamp]]; simpl;
    unfold MemoryCollector.start, CpuCollector.start; simpl;
    now destruct run.
Qed.

Lemma overlapping_starts_witness :
  let s :=
    Process.resume_all Fixtures.env0 (Process.in_turn 2)
      (Process.call_start Fixtures.env0
         (Process.call_start Fixtures.env0
            (Timers.empty, Samples.readme_agent, []))) in
  let stopped := Agent.stop Fixtures.env0 (fst (fst s)) (snd (fst s)) in
  Timers.armed (fst (fst s))
  = [Timers.mkEntry 0%nat Timers.CbAgentCollect 100;
     Timers.mkEntry 1%nat Timers.CbAgentCollect 100] /\
  Agent.collectionInterval (snd (fst s)) = Some 1%nat /\
  snd stopped = Ok tt /\
  Agent.isRunning (snd (fst stopped)) = false /\
  Timers.armed (fst (fst stopped))
  = [Timers.mkEntry 0%nat Timers.CbAgentCollect 100] /\
  forall env'',
    Agent.fire env'' 0%nat (fst (fst stopped)) (snd (fst stopped))
    = Agent.collect env'' (snd (fst stopped)).
Proof.
  cbv zeta.
  destruct (overlapping_starts Fixtures.env0 Fixtures.env0
              (Process.in_turn 2) Timers.empty Samples.readme_agent
              wf_empty eq_refl)
    as (_ & _ & _ & _ & Hboth).
  - discriminate.
  - apply start_never_throws.
  - destruct Hboth as (Harmed & _ & Hci & _ & Hstopped).
    + repeat constructor.
    + destruct Hstopped as (Hok & Hflag & Hleft & Hfire).
      * repeat constructor.
      * repeat apply conj; assumption.
Defined.
